(** * Shipyard controller manager: container fleet control logic

    A shallow embedding of the container-handling methods of
    [controller/manager/manager.go] (Container, Containers,
    ContainersByImage, IdenticalContainers, Destroy, SaveEvent,
    RedeployContainers, Run, Scale) and the properties they have on every
    runtime client, plus a small simulated engine on which the
    state-changing properties are checked.  The event handler of
    [usage.go], [generateId] of [utils.go] and the account, token and key
    methods of the manager follow, the latter over the queries they run and
    over a simulated database. *)

From Stdlib Require Import List String Ascii ZArith Lia Bool Arith.
From Stdlib Require Import DecimalString DecimalNat.
Import ListNotations.
Local Open Scope string_scope.
Local Open Scope Z_scope.

(** ** Data of the program *)

(** Go's [error] values; the manager only passes them on. *)
Definition error := string.

(** A Go result pair [(v, err)] of a client call: exactly one side is set. *)
Inductive result (A : Type) : Type :=
| Ok (a : A)
| Err (e : error).
Arguments Ok {A} a.
Arguments Err {A} e.

(** shipyard.Event, from event.go. *)
Module Event.
Record t := mk {
    Type_ : string;
    Container : string;
    Time : Z;
    Message : string;
    Tags : list string
  }.
End Event.

(** The records of the docker client library the manager imports
    (github.com/samalba/dockerclient), with the fields the manager reads or
    writes.  [ContainerConfig.HostConfig] is the value field whose
    address [Run] passes to StartContainer; [ContainerInfo.Config] and
    [ContainerInfo.HostConfig] are pointers in Go, held here by value. *)
Module dockerclient.

Module HostConfig.
Record t := mk {
      Binds : list string;
      NetworkMode : string
    }.
End HostConfig.

Module ContainerConfig.
Record t := mk {
      Hostname : string;
      Memory : Z;
      Image : string;
      Cmd : list string;
      HostConfig : HostConfig.t
    }.
    (** [cfg.Hostname = h] *)
Definition set_Hostname (h : string) (cfg : t) : t :=
      mk h (Memory cfg) (Image cfg) (Cmd cfg) (HostConfig cfg).
End ContainerConfig.

  (** An entry of ListContainers. *)
Module Container.
Record t := mk {
      Id : string;
      Image : string
    }.
End Container.

  (** The answer of InspectContainer. *)
Module ContainerInfo.
Record t := mk {
      Id : string;
      Image : string;
      Args : list string;
      Config : ContainerConfig.t;
      HostConfig : HostConfig.t
    }.
    (** [info.Config = cfg] *)
Definition set_Config (cfg : ContainerConfig.t) (info : t) : t :=
      mk (Id info) (Image info) (Args info) cfg (HostConfig info).
End ContainerInfo.

  (** The calls the manager issues to the engine, with their arguments. *)
Inductive Call : Type :=
  | ListContainersC (all : bool) (size : bool) (filters : string)
  | InspectContainerC (id : string)
  | PullImageC (name : string)
  | CreateContainerC (config : ContainerConfig.t) (name : string)
  | StartContainerC (id : string) (config : HostConfig.t)
  | KillContainerC (id : string) (signal : string)
  | RemoveContainerC (id : string) (force : bool)
  | InsertEventC (e : Event.t).

  (** The engine as the manager sees it: every call may fail and may change
      the engine's state [W]. *)
Record DockerClient (W : Type) := {
    ListContainers : bool -> bool -> string -> W -> result (list Container.t) * W;
    InspectContainer : string -> W -> result ContainerInfo.t * W;
    PullImage : string -> W -> result unit * W;
    CreateContainer : ContainerConfig.t -> string -> W -> result string * W;
    StartContainer : string -> HostConfig.t -> W -> result unit * W;
    KillContainer : string -> string -> W -> result unit * W;
    RemoveContainer : string -> bool -> W -> result unit * W
  }.
Arguments ListContainers {W}.
Arguments InspectContainer {W}.
Arguments PullImage {W}.
Arguments CreateContainer {W}.
Arguments StartContainer {W}.
Arguments KillContainer {W}.
Arguments RemoveContainer {W}.

End dockerclient.

Abbreviation HostConfigT := dockerclient.HostConfig.t.
Abbreviation ContainerConfigT := dockerclient.ContainerConfig.t.
Abbreviation ContainerT := dockerclient.Container.t.
Abbreviation ContainerInfoT := dockerclient.ContainerInfo.t.
Abbreviation Call := dockerclient.Call.

(** ** Go's [strings] functions used by the manager *)

Module strings.
  (** [strings.Index(s, substr)]: position of the first occurrence, or -1. *)
Definition Index (s substr : string) : Z :=
    match String.index 0 substr s with
    | Some n => Z.of_nat n
    | None => -1
    end.
  (** [strings.HasPrefix(s, prefix)] *)
Definition HasPrefix (s prefix : string) : bool := String.prefix prefix s.
End strings.

(** ** Effects: engine state, call log, panics and blocked calls *)

(** How a Go call ends: it returns a value, it panics, or it never returns
    because it waits on a WaitGroup that cannot reach zero. *)
Inductive Outcome (A : Type) : Type :=
| Returns (a : A)
| Panics
| Blocks.
Arguments Returns {A} a.
Arguments Panics {A}.
Arguments Blocks {A}.

Module manager.
Import dockerclient.

Section Manager.

Context {W : Type}.

  (** The fields of [Manager] the methods below use: the docker client, the
      session of the event table, and the clock behind [time.Now().Unix()]. *)
Record Manager := {
    client : DockerClient W;
    session : Event.t -> W -> result unit * W;
    unixNow : W -> Z
  }.

Variable m : Manager.

  (** The state threaded through the methods: the engine and the log of
      calls issued so far, oldest first. *)
Record St := mkSt {
    world : W;
    calls : list Call
  }.

Definition M (A : Type) : Type := St -> Outcome A * St.

Definition ret {A} (a : A) : M A := fun st => (Returns a, st).

Definition bind {A B} (c : M A) (k : A -> M B) : M B :=
    fun st =>
      match c st with
      | (Returns a, st') => k a st'
      | (Panics, st') => (Panics, st')
      | (Blocks, st') => (Blocks, st')
      end.

Definition panic {A} : M A := fun st => (Panics, st).

  (** One call to the engine: run it and append it to the log. *)
Definition call {R} (c : Call) (op : W -> result R * W) (st : St) : result R * St :=
  let (r, w') := op (world st) in (r, mkSt w' (calls st ++ [c])).

Definition invoke {R} (c : Call) (op : W -> result R * W) : M (result R) :=
  fun st => let (r, st') := call c op st in (Returns r, st').

End Manager.

Arguments Manager W : clear implicits.
Arguments St W : clear implicits.
Arguments M W A : clear implicits.

Declare Scope go_scope.
Delimit Scope go_scope with go.
Notation "x <- c ;; k" := (bind c (fun x => k))
  (at level 61, c at next level, right associativity) : go_scope.
Local Open Scope go_scope.

Section Methods.

Context {W : Type}.
Variable m : Manager W.

Definition mListContainers (all size : bool) (filters : string) :=
    invoke (ListContainersC all size filters)
           (ListContainers (client m) all size filters).
Definition mInspectContainer (id : string) :=
    invoke (InspectContainerC id) (InspectContainer (client m) id).
Definition mPullImage (name : string) :=
    invoke (PullImageC name) (PullImage (client m) name).
Definition mCreateContainer (config : ContainerConfigT) (name : string) :=
    invoke (CreateContainerC config name) (CreateContainer (client m) config name).
Definition mStartContainer (id : string) (hc : HostConfigT) :=
    invoke (StartContainerC id hc) (StartContainer (client m) id hc).
Definition mKillContainer (id signal : string) :=
    invoke (KillContainerC id signal) (KillContainer (client m) id signal).
Definition mRemoveContainer (id : string) (force : bool) :=
    invoke (RemoveContainerC id force) (RemoveContainer (client m) id force).
Definition mInsertEvent (e : Event.t) :=
    invoke (InsertEventC e) (session m e).

  (** [time.Now().Unix()] *)
Definition timeNowUnix : M W Z := fun st => (Returns (unixNow m (world st)), st).

  (** [Manager.Container(id string)], returning a [ContainerInfo] pointer
      (possibly nil) and an error. *)
Fixpoint Container_loop (id : string) (containers : list ContainerT)
    : M W (option ContainerInfoT * option error) :=
    match containers with
    | [] => ret (None, None)
    | cnt :: rest =>
        if strings.HasPrefix (Container.Id cnt) id then
          r <- mInspectContainer (Container.Id cnt) ;;
          match r with
          | Err err => ret (None, Some err)
          | Ok info => ret (Some info, None)
          end
        else Container_loop id rest
    end.

Definition Container (id : string) : M W (option ContainerInfoT * option error) :=
    r <- mListContainers true false EmptyString ;;
    match r with
    | Err err => ret (None, Some err)
    | Ok containers => Container_loop id containers
    end.

  (** [Manager.Containers(all bool)] *)
Definition Containers (all : bool) : M W (result (list ContainerT)) :=
    mListContainers all false EmptyString.

  (** [Manager.ContainersByImage(name string, all bool)]: the loop
      appends to [imageContainers] and leaves the function on the first
      failing inspection. *)
Fixpoint ContainersByImage_loop (name : string) (allContainers : list ContainerT)
      (imageContainers : list ContainerInfoT) : M W (result (list ContainerInfoT)) :=
    match allContainers with
    | [] => ret (Ok imageContainers)
    | c :: rest =>
        if strings.Index (Container.Image c) name >? -1 then
          r <- mInspectContainer (Container.Id c) ;;
          match r with
          | Err err => ret (Err err)
          | Ok info => ContainersByImage_loop name rest (imageContainers ++ [info])
          end
        else ContainersByImage_loop name rest imageContainers
    end.

Definition ContainersByImage (name : string) (all : bool)
    : M W (result (list ContainerInfoT)) :=
    r <- Containers all ;;
    match r with
    | Err err => ret (Err err)
    | Ok allContainers => ContainersByImage_loop name allContainers []
    end.

  (** [Manager.IdenticalContainers(container, all bool)] *)
Fixpoint IdenticalContainers_loop (container : ContainerInfoT)
      (imageContainers containers : list ContainerInfoT) : list ContainerInfoT :=
    match imageContainers with
    | [] => containers
    | c :: rest =>
        let args := Z.of_nat (List.length (ContainerInfo.Args c)) in
        let origArgs := Z.of_nat (List.length (ContainerInfo.Args container)) in
        if (ContainerConfig.Memory (ContainerInfo.Config c)
              =? ContainerConfig.Memory (ContainerInfo.Config container))
           && (args =? origArgs)
        then IdenticalContainers_loop container rest (containers ++ [c])
        else IdenticalContainers_loop container rest containers
    end.

Definition IdenticalContainers (container : ContainerInfoT) (all : bool)
    : M W (result (list ContainerInfoT)) :=
    r <- ContainersByImage (ContainerInfo.Image container) all ;;
    match r with
    | Err err => ret (Err err)
    | Ok imageContainers =>
        ret (Ok (IdenticalContainers_loop container imageContainers []))
    end.

  (** [Manager.Destroy(id string) error] *)
Definition Destroy (id : string) : M W (option error) :=
    r <- mKillContainer id "kill" ;;
    match r with
    | Err err => ret (Some err)
    | Ok _ =>
        r <- mRemoveContainer id true ;;
        match r with
        | Err err => ret (Some err)
        | Ok _ => ret None
        end
    end.

  (** [Manager.SaveEvent(event) error] *)
Definition SaveEvent (event : Event.t) : M W (option error) :=
    r <- mInsertEvent event ;;
    match r with
    | Err err => ret (Some err)
    | Ok _ => ret None
    end.

(** [Manager.RedeployContainers(image string) error].  The loop either
    leaves the function through one of its [return err], or runs to its end
    with the [deployed] flag.  The two [logger.Infof] calls write to the
    process log only; the second evaluates [containerId[:8]], which panics
    on an identifier shorter than eight bytes. *)
Inductive LoopExit : Type :=
| LoopReturn (err : error)
| LoopEnd (deployed : bool).

Fixpoint RedeployContainers_loop (image : string) (containers : list ContainerT)
    (deployed : bool) : M W LoopExit :=
  match containers with
  | [] => ret (LoopEnd deployed)
  | c :: rest =>
      if strings.Index (Container.Image c) image >? -1 then
        r <- mInspectContainer (Container.Id c) ;;
        match r with
        | Err err => ret (LoopReturn err)
        | Ok info =>
            let cfg := ContainerInfo.Config info in
            r <- mPullImage image ;;
            match r with
            | Err err => ret (LoopReturn err)
            | Ok _ =>
                _ <- Destroy (Container.Id c) ;;
                r <- mCreateContainer cfg EmptyString ;;
                match r with
                | Err err => ret (LoopReturn err)
                | Ok containerId =>
                    r <- mStartContainer containerId (ContainerInfo.HostConfig info) ;;
                    match r with
                    | Err err => ret (LoopReturn err)
                    | Ok _ =>
                        if (String.length containerId <? 8)%nat then panic
                        else RedeployContainers_loop image rest true
                    end
                end
            end
        end
      else RedeployContainers_loop image rest deployed
  end.

Definition deployEvent (image : string) (now : Z) : Event.t :=
  Event.mk "deploy" EmptyString now (image ++ " deployed") ["deploy"].

Definition RedeployContainers (image : string) : M W (option error) :=
  r <- Containers false ;;
  match r with
  | Err err => ret (Some err)
  | Ok containers =>
      x <- RedeployContainers_loop image containers false ;;
      match x with
      | LoopReturn err => ret (Some err)
      | LoopEnd deployed =>
          if deployed then
            now <- timeNowUnix ;;
            e <- SaveEvent (deployEvent image now) ;;
            match e with
            | Some err => ret (Some err)
            | None => ret None
            end
          else ret None
      end
  end.

(** *** Run: the batch of goroutines

    Each goroutine of [Run] is a small machine whose state is the statement
    it is about to execute.  One step is one client call together with the
    test of its error, or one access to a variable shared with the other
    goroutines ([runErr], [launched], the WaitGroup counter).  The append
    [launched = append(launched, containerId)] is a read followed by a
    write. *)
Inductive Goroutine : Type :=
| GPull                             (* m.client.PullImage(config.Image, nil) *)
| GCreate                           (* m.client.CreateContainer(config, name) *)
| GStart (containerId : string)     (* m.client.StartContainer(containerId, ...) *)
| GFail (err : error)               (* runErr = err; return *)
| GLoad (containerId : string)      (* reads launched for the append *)
| GStore (l : list string)          (* assigns the appended slice to launched *)
| GDone                             (* wg.Done() *)
| GReturned                         (* left through a return, wg.Done() not run *)
| GFinished.                        (* reached the end of the function body *)

Record RunState := mkRun {
  rs_st : St W;
  goroutines : list Goroutine;
  launched : list string;
  runErr : option error;
  wg : Z
}.

Definition runnable (g : Goroutine) : bool :=
  match g with
  | GReturned | GFinished => false
  | _ => true
  end.

(** [xs[i] = x], nothing when [i] is out of range (never the case below) *)
Fixpoint set_nth {A} (i : nat) (x : A) (xs : list A) : list A :=
  match xs, i with
  | [], _ => []
  | _ :: xs', O => x :: xs'
  | y :: xs', S i' => y :: set_nth i' x xs'
  end.

(** One step of a goroutine found in state [g]. *)
Definition step_goroutine (config : ContainerConfigT) (g : Goroutine)
    (rs : RunState) : Goroutine * RunState :=
  match g with
  | GPull =>
      let (r, st') := call (PullImageC (ContainerConfig.Image config))
                        (PullImage (client m) (ContainerConfig.Image config)) (rs_st rs) in
      (match r with Err err => GFail err | Ok _ => GCreate end,
       mkRun st' (goroutines rs) (launched rs) (runErr rs) (wg rs))
  | GCreate =>
      let (r, st') := call (CreateContainerC config EmptyString)
                        (CreateContainer (client m) config EmptyString) (rs_st rs) in
      (match r with Err err => GFail err | Ok containerId => GStart containerId end,
       mkRun st' (goroutines rs) (launched rs) (runErr rs) (wg rs))
  | GStart containerId =>
      let hc := ContainerConfig.HostConfig config in
      let (r, st') := call (StartContainerC containerId hc)
                        (StartContainer (client m) containerId hc) (rs_st rs) in
      (match r with Err err => GFail err | Ok _ => GLoad containerId end,
       mkRun st' (goroutines rs) (launched rs) (runErr rs) (wg rs))
  | GFail err =>
      (GReturned, mkRun (rs_st rs) (goroutines rs) (launched rs) (Some err) (wg rs))
  | GLoad containerId =>
      (GStore (launched rs ++ [containerId]), rs)
  | GStore l =>
      (GDone, mkRun (rs_st rs) (goroutines rs) l (runErr rs) (wg rs))
  | GDone =>
      (GFinished, mkRun (rs_st rs) (goroutines rs) (launched rs) (runErr rs) (wg rs - 1))
  | GReturned => (GReturned, rs)
  | GFinished => (GFinished, rs)
  end.

(** Goroutine number [i] takes one step. *)
Definition step (config : ContainerConfigT) (i : nat) (rs : RunState) : RunState :=
  match nth_error (goroutines rs) i with
  | None => rs
  | Some g =>
      let (g', rs') := step_goroutine config g rs in
      mkRun (rs_st rs') (set_nth i g' (goroutines rs')) (launched rs') (runErr rs') (wg rs')
  end.

(** The positions of the goroutines that can still take a step. *)
Fixpoint runnable_from (i : nat) (gs : list Goroutine) : list nat :=
  match gs with
  | [] => []
  | g :: gs' => if runnable g then i :: runnable_from (S i) gs' else runnable_from (S i) gs'
  end.

(** The Go scheduler is free to run any goroutine that is not finished; the
    list [sched] stands for its choices, one number per step (0 once the
    list is used up), read modulo the number of runnable goroutines. *)
Definition pick (choice : nat) (gs : list Goroutine) : option nat :=
  let r := runnable_from 0 gs in
  nth_error r (choice mod List.length r)%nat.

Fixpoint schedule (config : ContainerConfigT) (fuel : nat) (sched : list nat)
    (rs : RunState) : RunState :=
  match fuel with
  | O => rs
  | S fuel' =>
      match pick (hd 0%nat sched) (goroutines rs) with
      | None => rs
      | Some i => schedule config fuel' (tl sched) (step config i rs)
      end
  end.

(** [Manager.Run(config, count int, pull bool) ([]string, error)].
    [wg.Add(count)] panics on a negative count.  A goroutine takes at most
    six steps, so [6 * count] steps let every goroutine run until it has
    returned; then [wg.Wait()] returns if the counter is zero and never
    otherwise, no goroutine being left to call [wg.Done()].  A goroutine
    starts at the pull or, when [pull] is false, at the creation. *)
Definition Run_init (count : Z) (pull : bool) (st : St W) : RunState :=
  mkRun st (repeat (if pull then GPull else GCreate) (Z.to_nat count)) [] None count.

(** The state of the batch when no goroutine can move any more. *)
Definition Run_final (config : ContainerConfigT) (count : Z) (pull : bool)
    (sched : list nat) (st : St W) : RunState :=
  schedule config (6 * Z.to_nat count) sched (Run_init count pull st).

Definition Run (config : ContainerConfigT) (count : Z) (pull : bool)
    (sched : list nat) : M W (list string * option error) :=
  fun st =>
    if count <? 0 then (Panics, st)
    else
      let rs := Run_final config count pull sched st in
      if wg rs =? 0 then (Returns (launched rs, runErr rs), rs_st rs)
      else (Blocks, rs_st rs).

(** [Manager.Scale(container, count int) error].  The method writes
    [container.Config.Hostname] through the caller's pointer, so the
    descriptor as the call leaves it is returned next to the error.

    For [count >= 0] the bound of [imageContainers[0:numKill]] is within the
    slice and neither subtraction leaves the range of [int].  For a negative
    [count] the bound is past the length of the slice; Go checks it against
    the capacity, which the appends of IdenticalContainers may have left
    larger, and the elements past the length are nil.  The model does not
    follow the capacity and panics at the slice expression. *)
Fixpoint Scale_loop (delContainers : list ContainerInfoT) : M W (option error) :=
  match delContainers with
  | [] => ret None
  | c :: rest =>
      e <- Destroy (ContainerInfo.Id c) ;;
      match e with
      | Some err => ret (Some err)
      | None => Scale_loop rest
      end
  end.

Definition Scale (container : ContainerInfoT) (count : Z) (sched : list nat)
    : M W (ContainerInfoT * option error) :=
  r <- mInspectContainer (ContainerInfo.Id container) ;;
  match r with
  | Err err => ret (container, Some err)
  | Ok info =>
      r <- IdenticalContainers info true ;;
      match r with
      | Err err => ret (container, Some err)
      | Ok imageContainers =>
          let containerCount := Z.of_nat (List.length imageContainers) in
          if containerCount >? count then
            let numKill := containerCount - count in
            if numKill >? containerCount then panic
            else
              let delContainers := firstn (Z.to_nat numKill) imageContainers in
              e <- Scale_loop delContainers ;;
              match e with
              | Some err => ret (container, Some err)
              | None => ret (container, None)
              end
          else if containerCount <? count then
            let numAdd := count - containerCount in
            let container' :=
              ContainerInfo.set_Config
                (ContainerConfig.set_Hostname EmptyString (ContainerInfo.Config container))
                container in
            x <- Run (ContainerInfo.Config container') numAdd false sched ;;
            match snd x with
            | Some err => ret (container', Some err)
            | None => ret (container', None)
            end
          else ret (container, None)
      end
  end.

End Methods.

End manager.

(** ** Reading the call log *)

Module trace.
Import dockerclient.

Definition is_list (c : Call) : bool :=
  match c with ListContainersC _ _ _ => true | _ => false end.
Definition is_pull (c : Call) : bool :=
  match c with PullImageC _ => true | _ => false end.
Definition is_create (c : Call) : bool :=
  match c with CreateContainerC _ _ => true | _ => false end.
Definition is_event (c : Call) : bool :=
  match c with InsertEventC _ => true | _ => false end.

(** The test of RedeployContainers and ContainersByImage on a listed entry. *)
Definition matches (image : string) (c : ContainerT) : bool :=
  strings.Index (Container.Image c) image >? -1.

(** The calls one pass of the redeployment loop over [cs] can issue. *)
Definition redeploy_call (image : string) (cs : list ContainerT) (c : Call) : Prop :=
  match c with
  | InspectContainerC id =>
      exists e, In e cs /\ matches image e = true /\ Container.Id e = id
  | PullImageC name => name = image
  | KillContainerC id signal =>
      signal = "kill" /\ exists e, In e cs /\ matches image e = true /\ Container.Id e = id
  | RemoveContainerC id force =>
      force = true /\ exists e, In e cs /\ matches image e = true /\ Container.Id e = id
  | CreateContainerC _ name => name = EmptyString
  | StartContainerC _ _ => True
  | ListContainersC _ _ _ => False
  | InsertEventC _ => False
  end.


End trace.

(** ** Measures on a batch of goroutines *)

Module batch.
Import dockerclient manager.

Definition total (f : Goroutine -> nat) (gs : list Goroutine) : nat :=
  list_sum (map f gs).

(** Steps a goroutine can still take, at most. *)
Definition remaining (g : Goroutine) : nat :=
  match g with
  | GPull => 6
  | GCreate => 5
  | GStart _ => 4
  | GLoad _ => 3
  | GStore _ => 2
  | GDone => 1
  | GFail _ => 1
  | GReturned => 0
  | GFinished => 0
  end%nat.

(** The goroutine has called [wg.Done()]. *)
Definition finished (g : Goroutine) : nat :=
  match g with GFinished => 1 | _ => 0 end%nat.

(** One of the goroutine's client calls has failed. *)
Definition failed (g : Goroutine) : nat :=
  match g with GFail _ | GReturned => 1 | _ => 0 end%nat.

(** The goroutine has issued its CreateContainer call, in a batch started
    without pull. *)
Definition created (g : Goroutine) : nat :=
  match g with GPull | GCreate => 0 | _ => 1 end%nat.

(** The calls a goroutine of [Run config _ false] can issue. *)
Definition launch_call (config : ContainerConfigT) (c : Call) : Prop :=
  c = CreateContainerC config EmptyString \/
  exists id, c = StartContainerC id (ContainerConfig.HostConfig config).

End batch.

(** ** A simulated engine

    A stand-in for the container engine behind the client.  It keeps the
    containers in listing order, numbers the calls it receives and lets the
    calls whose number is in [faults] fail without effect; a kill stops a
    container, a removal takes it off the list, a creation appends a stopped
    container under a fresh identifier. *)
Module sim.
Import dockerclient manager.

Record SimContainer := mkC {
  info : ContainerInfoT;
  running : bool
}.

Record World := mkW {
  containers : list SimContainer;
  images : list string;
  events : list Event.t;
  clock : Z;
  tick : nat;
  faults : list nat;
  serial : nat
}.

Definition faulty (w : World) : bool := existsb (Nat.eqb (tick w)) (faults w).

Definition advance (w : World) : World :=
  mkW (containers w) (images w) (events w) (clock w) (S (tick w)) (faults w) (serial w).

Definition with_containers (cs : list SimContainer) (w : World) : World :=
  mkW cs (images w) (events w) (clock w) (tick w) (faults w) (serial w).

(** Every call is numbered; a call numbered in [faults] fails. *)
Definition attempt {R} (op : World -> result R * World) (w : World) : result R * World :=
  if faulty w then (Err "engine fault", advance w) else op (advance w).

Definition has_id (id : string) (c : SimContainer) : bool :=
  String.eqb (ContainerInfo.Id (info c)) id.

Definition entry (c : SimContainer) : ContainerT :=
  Container.mk (ContainerInfo.Id (info c)) (ContainerInfo.Image (info c)).

Definition simList (all size : bool) (filters : string) : World -> result (list ContainerT) * World :=
  attempt (fun w =>
    (Ok (map entry (filter (fun c => all || running c) (containers w))), w)).

Definition simInspect (id : string) : World -> result ContainerInfoT * World :=
  attempt (fun w =>
    match find (has_id id) (containers w) with
    | Some c => (Ok (info c), w)
    | None => (Err "no such container", w)
    end).

Definition simPull (name : string) : World -> result unit * World :=
  attempt (fun w =>
    (Ok tt, mkW (containers w) (images w ++ [name]) (events w) (clock w)
                (tick w) (faults w) (serial w))).

Definition fresh_id (n : nat) : string :=
  "replica-" ++ NilEmpty.string_of_uint (Nat.to_uint n).

Definition simCreate (config : ContainerConfigT) (name : string)
    : World -> result string * World :=
  attempt (fun w =>
    let id := fresh_id (serial w) in
    let c := mkC (ContainerInfo.mk id (ContainerConfig.Image config)
                    (ContainerConfig.Cmd config) config
                    (ContainerConfig.HostConfig config)) false in
    (Ok id, mkW (containers w ++ [c]) (images w) (events w) (clock w)
                (tick w) (faults w) (S (serial w)))).

Definition simStart (id : string) (hc : HostConfigT) : World -> result unit * World :=
  attempt (fun w =>
    if existsb (has_id id) (containers w) then
      (Ok tt, with_containers
                (map (fun c => if has_id id c
                               then mkC (ContainerInfo.mk (ContainerInfo.Id (info c))
                                           (ContainerInfo.Image (info c))
                                           (ContainerInfo.Args (info c))
                                           (ContainerInfo.Config (info c)) hc) true
                               else c) (containers w)) w)
    else (Err "no such container", w)).

Definition simKill (id signal : string) : World -> result unit * World :=
  attempt (fun w =>
    if existsb (has_id id) (containers w) then
      (Ok tt, with_containers
                (map (fun c => if has_id id c then mkC (info c) false else c)
                     (containers w)) w)
    else (Err "no such container", w)).

Definition simRemove (id : string) (force : bool) : World -> result unit * World :=
  attempt (fun w =>
    if existsb (has_id id) (containers w) then
      (Ok tt, with_containers (filter (fun c => negb (has_id id c)) (containers w)) w)
    else (Err "no such container", w)).

Definition simInsertEvent (e : Event.t) : World -> result unit * World :=
  attempt (fun w =>
    (Ok tt, mkW (containers w) (images w) (events w ++ [e]) (clock w)
                (tick w) (faults w) (serial w))).

Definition simClient : DockerClient World :=
  {| ListContainers := simList;
     InspectContainer := simInspect;
     PullImage := simPull;
     CreateContainer := simCreate;
     StartContainer := simStart;
     KillContainer := simKill;
     RemoveContainer := simRemove |}.

Definition simManager : Manager World :=
  {| client := simClient; session := simInsertEvent; unixNow := clock |}.

(** A fresh state of the manager on an engine holding [cs], whose calls
    numbered in [fs] fail. *)
Definition boot (cs : list SimContainer) (fs : list nat) : St World :=
  mkSt (mkW cs [] [] 1700000000 0 fs 0) [].

(** A replica as the engine reports it. *)
Definition replica (id image hostname : string) (memory : Z) (args : list string)
    (running : bool) : SimContainer :=
  let hc := HostConfig.mk [] "bridge" in
  mkC (ContainerInfo.mk id image args
         (ContainerConfig.mk hostname memory image args hc) hc) running.

Definition ident (c : SimContainer) : string := ContainerInfo.Id (info c).

(** The test IdenticalContainers applies to an inspected container. *)
Definition same_shape (ref c : ContainerInfoT) : bool :=
  (ContainerConfig.Memory (ContainerInfo.Config c)
     =? ContainerConfig.Memory (ContainerInfo.Config ref))
  && (Z.of_nat (List.length (ContainerInfo.Args c))
        =? Z.of_nat (List.length (ContainerInfo.Args ref))).

(** The containers of the engine that IdenticalContainers keeps for the
    reference [ref]. *)
Definition in_class (ref : ContainerInfoT) (c : SimContainer) : bool :=
  trace.matches (ContainerInfo.Image ref) (entry c) && same_shape ref (info c).

(** The containers left once those named in [del] are gone. *)
Definition survives (del : list ContainerInfoT) (c : SimContainer) : bool :=
  negb (existsb (fun d => String.eqb (ident c) (ContainerInfo.Id d)) del).

End sim.

(** ** Batches on the simulated engine *)

Module sim_batch.
Import dockerclient manager batch sim.

(** A batch without pull on the engine whose first call fails: as long as
    no call was made no goroutine is past its creation, and from the first
    call on one goroutine has failed. *)
Definition first_call_fails (rs : @RunState World) : Prop :=
  faults (world (rs_st rs)) = [0%nat] /\
  Forall (fun g => g <> GPull) (goroutines rs) /\
  (total created (goroutines rs) <= tick (world (rs_st rs)))%nat /\
  (1 <= tick (world (rs_st rs)) -> 1 <= total failed (goroutines rs))%nat.

(** The identifier names a running container of the engine. *)
Definition is_running (w : World) (id : string) : bool :=
  existsb (fun c => has_id id c && running c) (containers w).

(** A batch on a quiet engine whose first [k] goroutines have run to their
    end one after the other, and whose others have not started. *)
Definition sequential (pull : bool) (s0 k j : nat) (count : Z) (rs : @RunState World) : Prop :=
  goroutines rs = (repeat GFinished k ++ repeat (if pull then GPull else GCreate) j)%list /\
  launched rs = map fresh_id (seq s0 k) /\
  runErr rs = None /\
  wg rs = count - Z.of_nat k /\
  faults (world (rs_st rs)) = [] /\
  serial (world (rs_st rs)) = (s0 + k)%nat /\
  Forall (fun id => is_running (world (rs_st rs)) id = true) (launched rs).

End sim_batch.

(** ** A small fleet on the simulated engine *)

Module fleet.
Import dockerclient manager sim.

Definition web1 : SimContainer := replica "aaaaaaaa1" "myapp:v1" "web1" 64 ["serve"] true.
Definition web2 : SimContainer := replica "bbbbbbbb2" "myapp:v1" "web2" 64 ["serve"] true.
Definition web3 : SimContainer := replica "cccccccc3" "myapp:v1" "web3" 64 ["serve"] true.
Definition db : SimContainer := replica "dddddddd4" "other:v1" "db" 128 ["run"] true.
(** A stopped replica of the same image. *)
Definition parked : SimContainer := replica "eeeeeeee5" "myapp:v1" "web5" 64 ["serve"] false.
(** A replica whose image name is contained in the others'. *)
Definition app : SimContainer := replica "ffffffff6" "app" "app" 64 ["serve"] true.

(** The template of a launch. *)
Definition template : ContainerConfigT :=
  ContainerConfig.mk "web" 64 "myapp:v1" ["serve"] (HostConfig.mk [] "bridge").

End fleet.

(** ** The handler of engine events *)

(** dockerclient.Event, the record the engine's event stream delivers. *)
Module docker_event.
Record t := mk {
  Id : string;
  Status : string;
  From : string;
  Time : Z
}.
End docker_event.

Module eventhandler.
Import dockerclient manager.
Local Open Scope go_scope.

Section Handler.

Context {W : Type}.
(** [h.Manager] *)
Variable m : Manager W.

(** [EventHandler.logDockerEvent(e) error] *)
Definition logDockerEvent (e : docker_event.t) : M W (option error) :=
  let evt := Event.mk (docker_event.Status e) (docker_event.Id e) (docker_event.Time e)
                      EmptyString ["docker"] in
  r <- SaveEvent m evt ;;
  match r with
  | Some err => ret (Some err)
  | None => ret None
  end.

(** [EventHandler.Handle(e) error].  The log line evaluates [e.Id[:12]],
    which panics on an identifier shorter than twelve bytes; the result of
    [logDockerEvent] is dropped. *)
Definition Handle (e : docker_event.t) : M W (option error) :=
  if (String.length (docker_event.Id e) <? 12)%nat then panic
  else
    _ <- logDockerEvent e ;;
    ret None.

End Handler.

End eventhandler.

(** ** Identifiers of webhook keys *)

Module utils.

(** [encoding/hex]: two lower-case digits per byte, high nibble first. *)
Definition hextable : string := "0123456789abcdef".

Definition hexdigit (v : N) : ascii :=
  match String.get (N.to_nat v) hextable with
  | Some c => c
  | None => "0"%char
  end.

Fixpoint EncodeToString (src : list Byte.byte) : string :=
  match src with
  | [] => EmptyString
  | b :: rest =>
      String (hexdigit (N.shiftr (Byte.to_N b) 4))
        (String (hexdigit (N.land (Byte.to_N b) 15)) (EncodeToString rest))
  end.

(** [generateId(n int) string].  [Sum256] stands for the SHA-256 digest of
    the standard library and [now] for the text of [time.Now().String()].
    The slice expression [mdStr[:n]] panics unless [0 <= n <= len(mdStr)]. *)
Definition generateId (Sum256 : list Byte.byte -> list Byte.byte) (now : string)
    (n : Z) : Outcome string :=
  let md := Sum256 (list_byte_of_string now) in
  let mdStr := EncodeToString md in
  if (n <? 0) || (Z.of_nat (String.length mdStr) <? n) then Panics
  else Returns (String.substring 0 (Z.to_nat n) mdStr).

End utils.

(** ** More ways to read a batch and a log *)

Module trace_more.
Import dockerclient manager.

(** The calls that only read the engine. *)
Definition is_query (c : Call) : bool :=
  match c with
  | ListContainersC _ _ _ => true
  | InspectContainerC _ => true
  | _ => false
  end.

Definition is_start (c : Call) : bool :=
  match c with StartContainerC _ _ => true | _ => false end.

(** The goroutine is past its pull, in a batch started with pull. *)
Definition pulled (g : Goroutine) : nat :=
  match g with GPull => 0 | _ => 1 end%nat.

(** The goroutine has read [launched] for its append. *)
Definition loaded (g : Goroutine) : nat :=
  match g with GStore _ | GDone | GFinished => 1 | _ => 0 end%nat.

(** The goroutine has left through an error branch. *)
Definition returned (g : Goroutine) : nat :=
  match g with GReturned => 1 | _ => 0 end%nat.

(** The identifiers a goroutine holds for the append. *)
Definition holds (g : Goroutine) : list string :=
  match g with
  | GLoad containerId => [containerId]
  | GStore l => l
  | _ => []
  end.

(** The slice a goroutine is about to assign to [launched], if any. *)
Definition pending (g : Goroutine) : nat :=
  match g with GStore l => List.length l | _ => 0%nat end.

(** The calls a goroutine of Run can issue for the template [config]. *)
Definition batch_call (config : ContainerConfigT) (c : Call) : Prop :=
  c = PullImageC (ContainerConfig.Image config) \/
  c = CreateContainerC config EmptyString \/
  exists id, c = StartContainerC id (ContainerConfig.HostConfig config).

(** What holds of a batch that started with the log [l0], with [k0]
    goroutines already past the pull: the calls added are calls of the
    batch, one pull per goroutine past its pull; every identifier in
    [launched] or held for an append was passed to StartContainer; [runErr]
    is set only once a goroutine has left through an error branch; and no
    slice is longer than the number of goroutines that have read
    [launched]. *)
Definition batch_inv {W : Type} (config : ContainerConfigT) (l0 : list Call) (k0 : nat)
    (rs : @RunState W) : Prop :=
  exists new,
    calls (rs_st rs) = (l0 ++ new)%list /\
    Forall (batch_call config) new /\
    (List.length (filter trace.is_pull new) + k0
       = batch.total pulled (goroutines rs))%nat /\
    (forall id, In id (launched rs) ->
       In (StartContainerC id (ContainerConfig.HostConfig config)) new) /\
    Forall (fun g => forall id, In id (holds g) ->
              In (StartContainerC id (ContainerConfig.HostConfig config)) new)
           (goroutines rs) /\
    (runErr rs <> None -> (1 <= batch.total returned (goroutines rs))%nat) /\
    (List.length (launched rs) <= batch.total loaded (goroutines rs))%nat /\
    Forall (fun g => (pending g <= batch.total loaded (goroutines rs))%nat) (goroutines rs).

End trace_more.

(** ** An engine with short identifiers *)

Module sim_short.
Import dockerclient manager sim.

(** As [simCreate], with identifiers of two bytes and more. *)
Definition short_id (n : nat) : string :=
  "r" ++ NilEmpty.string_of_uint (Nat.to_uint n).

Definition shortCreate (config : ContainerConfigT) (name : string)
    : World -> result string * World :=
  attempt (fun w =>
    let id := short_id (serial w) in
    let c := mkC (ContainerInfo.mk id (ContainerConfig.Image config)
                    (ContainerConfig.Cmd config) config
                    (ContainerConfig.HostConfig config)) false in
    (Ok id, mkW (containers w ++ [c]) (images w) (events w) (clock w)
                (tick w) (faults w) (S (serial w)))).

Definition shortClient : DockerClient World :=
  {| ListContainers := simList;
     InspectContainer := simInspect;
     PullImage := simPull;
     CreateContainer := shortCreate;
     StartContainer := simStart;
     KillContainer := simKill;
     RemoveContainer := simRemove |}.

Definition shortManager : Manager World :=
  {| client := shortClient; session := simInsertEvent; unixNow := clock |}.

End sim_short.

(** ** Redeployment on the simulated engine *)

Module sim_redeploy.
Import dockerclient manager sim.

(** The container that takes the place of [c] when it is redeployed as the
    [n]-th creation of the engine: created from the configuration of [c],
    started with its host configuration. *)
Definition replacement (c : SimContainer) (n : nat) : SimContainer :=
  let cfg := ContainerInfo.Config (info c) in
  mkC (ContainerInfo.mk (fresh_id n) (ContainerConfig.Image cfg) (ContainerConfig.Cmd cfg)
         cfg (ContainerInfo.HostConfig (info c))) true.

Fixpoint replacements (ts : list SimContainer) (n : nat) : list SimContainer :=
  match ts with
  | [] => []
  | t :: ts' => replacement t n :: replacements ts' (S n)
  end.

(** The containers of [l] whose image reference contains [image]. *)
Definition targets (image : string) (l : list SimContainer) : list SimContainer :=
  filter (fun c => trace.matches image (entry c)) l.

(** The books of the engine other than its containers: what a call on a
    quiet engine leaves as it is. *)
Definition same_books (w w' : World) : Prop :=
  faults w' = faults w /\ clock w' = clock w /\ events w' = events w.

End sim_redeploy.

(** ** Accounts, tokens and keys *)

(** The records of the packages [shipyard] and [dockerhub] that the manager
    keeps in its tables, with the fields the manager reads or writes.  The
    tokens of an account are pointers in Go, held here by value. *)
Module AuthToken.
Record t := mk {
    Token : string;
    UserAgent : string
  }.
Definition set_Token (tk : string) (a : t) : t := mk tk (UserAgent a).
End AuthToken.

Module Account.
Record t := mk {
    ID : string;
    Username : string;
    Password : string;
    Tokens : list AuthToken.t
  }.
Definition set_Password (p : string) (a : t) : t :=
  mk (ID a) (Username a) p (Tokens a).
End Account.

Module ServiceKey.
Record t := mk {
    Key : string;
    Description : string
  }.
End ServiceKey.

Module WebhookKey.
Record t := mk {
    ID : string;
    Key : string;
    Image : string
  }.
End WebhookKey.

(** The methods of [shipyard.Authenticator] the manager calls; hashing and
    token generation draw on the clock and on random salt. *)
Module Authenticator.
Record t (W : Type) := mk {
    Hash : string -> W -> result string * W;
    GenerateToken : W -> result string * W;
    Authenticate : string -> string -> bool
  }.
Arguments Hash {W}.
Arguments GenerateToken {W}.
Arguments Authenticate {W}.
End Authenticator.

Module store.
Import manager.
Local Open Scope go_scope.

(** The errors of these methods: the package's own values, which Go compares
    by identity, and the errors handed on from the database, the
    authenticator or the event table. *)
Inductive Error : Type :=
| ErrAccountExists
| ErrAccountDoesNotExist
| ErrRoleDoesNotExist
| ErrServiceKeyDoesNotExist
| ErrInvalidAuthToken
| ErrExtensionDoesNotExist
| ErrWebhookKeyDoesNotExist
| Passed (e : error).

(** What the manager reads from the cursor of a query: [res.IsNil()] and
    the outcome of [res.One(&v)]. *)
Record Cursor (A : Type) := mkCursor {
    IsNil : bool;
    One : result A
  }.
Arguments mkCursor {A}.
Arguments IsNil {A}.
Arguments One {A}.

(** The database and the authenticator as the manager sees them, one field
    per query expression of the source:
    - [accountsFilterUsername u]: accounts, Filter username = u, Run;
    - [accountsUpdatePassword u h]: accounts, Filter username = u,
      Update password := h, RunWrite;
    - [accountsInsert a]: accounts, Insert a, RunWrite;
    - [accountsDeleteUserAgent u ua]: accounts, Filter username = u, Filter
      Row.Field user_agent = ua, Delete, Run;
    - [accountsUpdateTokens u l]: accounts, Filter username = u, Update
      tokens := l, RunWrite;
    - [serviceKeysFilterKey k], [serviceKeysInsert k], [serviceKeysDeleteKey k]:
      service_keys, Filter key = k, Run; Insert, RunWrite; Filter key = k,
      Delete, RunWrite;
    - [webhookKeysFilterKey k], [webhookKeysInsert k]: webhook_keys, as above;
    - [webhookKeysGetDelete id]: webhook_keys, Get id, Delete, Run, answering
      [res.IsNil()];
    - [authenticator]: the field of that name, a [shipyard.Authenticator];
    - [goUsageReport]: the statement [go m.usageReport()] of [Manager.init];
    - [timeNowString], [Sum256]: [time.Now().String()] and the SHA-256
      digest behind [generateId]. *)
Record Backend (W : Type) := {
    authenticator : Authenticator.t W;
    accountsFilterUsername : string -> W -> result (Cursor Account.t) * W;
    accountsUpdatePassword : string -> string -> W -> result unit * W;
    accountsInsert : Account.t -> W -> result unit * W;
    accountsDeleteUserAgent : string -> string -> W -> result unit * W;
    accountsUpdateTokens : string -> list AuthToken.t -> W -> result unit * W;
    serviceKeysFilterKey : string -> W -> result (Cursor ServiceKey.t) * W;
    serviceKeysInsert : ServiceKey.t -> W -> result unit * W;
    serviceKeysDeleteKey : string -> W -> result unit * W;
    webhookKeysFilterKey : string -> W -> result (Cursor WebhookKey.t) * W;
    webhookKeysInsert : WebhookKey.t -> W -> result unit * W;
    webhookKeysGetDelete : string -> W -> result bool * W;
    goUsageReport : W -> W;
    timeNowString : W -> string;
    Sum256 : list Byte.byte -> list Byte.byte
  }.
Arguments accountsFilterUsername {W}.
Arguments accountsUpdatePassword {W}.
Arguments accountsInsert {W}.
Arguments accountsDeleteUserAgent {W}.
Arguments accountsUpdateTokens {W}.
Arguments serviceKeysFilterKey {W}.
Arguments serviceKeysInsert {W}.
Arguments serviceKeysDeleteKey {W}.
Arguments webhookKeysFilterKey {W}.
Arguments webhookKeysInsert {W}.
Arguments webhookKeysGetDelete {W}.
Arguments authenticator {W}.
Arguments goUsageReport {W}.
Arguments timeNowString {W}.
Arguments Sum256 {W}.

Section Store.

Context {W : Type}.
Variable m : Manager W.
Variable db : Backend W.

(** One query or one call of the authenticator. *)
Definition run {R} (op : W -> result R * W) : M W (result R) :=
  fun st => let (r, w') := op (world st) in (Returns r, mkSt w' (calls st)).

(** [Manager.init()] *)
Definition init : M W unit :=
  fun st => (Returns tt, mkSt (goUsageReport db (world st)) (calls st)).

(** The error of [SaveEvent], as these methods return it. *)
Definition saveEvent (evt : Event.t) : M W (option Error) :=
  e <- SaveEvent m evt ;;
  match e with
  | Some err => ret (Some (Passed err))
  | None => ret None
  end.

(** [Manager.Account(username string)] *)
Definition Account (username : string) : M W (option Account.t * option Error) :=
  r <- run (accountsFilterUsername db username) ;;
  match r with
  | Err err => ret (None, Some (Passed err))
  | Ok res =>
      if IsNil res then ret (None, Some ErrAccountDoesNotExist)
      else
        match One res with
        | Err err => ret (None, Some (Passed err))
        | Ok account => ret (Some account, None)
        end
  end.

(** [Manager.SaveAccount(account) error].  The method writes the hash into
    the caller's account, which is returned here beside the error. *)
Definition SaveAccount (account : Account.t) : M W (Account.t * option Error) :=
  let pass := Account.Password account in
  h <- run (Authenticator.Hash (authenticator db) pass) ;;
  match h with
  | Err err => ret (account, Some (Passed err))
  | Ok hash =>
      p <- Account (Account.Username account) ;;
      let (acct, err) := p in
      let proceed :=
        let account := Account.set_Password hash account in
        match acct with
        | Some _ =>
            r <- run (accountsUpdatePassword db (Account.Username account) hash) ;;
            match r with
            | Err err => ret (account, Some (Passed err))
            | Ok _ => ret (account, None)
            end
        | None =>
            r <- run (accountsInsert db account) ;;
            match r with
            | Err err => ret (account, Some (Passed err))
            | Ok _ =>
                now <- timeNowUnix m ;;
                let evt := Event.mk "add-account" EmptyString now
                             ("name=" ++ Account.Username account)
                             ["cluster"; "security"] in
                e <- saveEvent evt ;;
                ret (account, e)
            end
        end in
      match err with
      | None => proceed
      | Some ErrAccountDoesNotExist => proceed
      | Some e => ret (account, Some e)
      end
  end.

(** [Manager.Authenticate(username, password string) bool] *)
Definition Authenticate (username password : string) : M W bool :=
  p <- Account username ;;
  let (acct, err) := p in
  match err with
  | Some _ => ret false
  | None =>
      match acct with
      | None => panic
      | Some acct => ret (Authenticator.Authenticate (authenticator db) password
                           (Account.Password acct))
      end
  end.

(** The loop of [NewAuthToken]: the first token of the user agent gets the
    new value in place and is the one returned. *)
Fixpoint NewAuthToken_loop (userAgent tk : string) (tokens : list AuthToken.t)
    : option (list AuthToken.t * AuthToken.t) :=
  match tokens with
  | [] => None
  | t :: rest =>
      if String.eqb (AuthToken.UserAgent t) userAgent then
        let t' := AuthToken.set_Token tk t in
        Some (t' :: rest, t')
      else
        match NewAuthToken_loop userAgent tk rest with
        | Some (rest', token) => Some (t :: rest', token)
        | None => None
        end
  end.

(** The token list and the token after the loop and the [if !found]. *)
Definition NewAuthToken_tokens (userAgent tk : string) (tokens : list AuthToken.t)
    : list AuthToken.t * AuthToken.t :=
  match NewAuthToken_loop userAgent tk tokens with
  | Some found => found
  | None =>
      let token := AuthToken.mk tk userAgent in
      ((tokens ++ [token])%list, token)
  end.

(** [Manager.NewAuthToken(username, userAgent string)] *)
Definition NewAuthToken (username userAgent : string)
    : M W (option AuthToken.t * option Error) :=
  g <- run (Authenticator.GenerateToken (authenticator db)) ;;
  match g with
  | Err err => ret (None, Some (Passed err))
  | Ok tk =>
      p <- Account username ;;
      let (acct, err) := p in
      match err with
      | Some e => ret (None, Some e)
      | None =>
          match acct with
          | None => panic
          | Some acct =>
              let (tokens, token) :=
                NewAuthToken_tokens userAgent tk (Account.Tokens acct) in
              r <- run (accountsDeleteUserAgent db username userAgent) ;;
              match r with
              | Err err => ret (None, Some (Passed err))
              | Ok _ =>
                  r <- run (accountsUpdateTokens db username tokens) ;;
                  match r with
                  | Err err => ret (None, Some (Passed err))
                  | Ok _ => ret (Some token, None)
                  end
              end
          end
      end
  end.

(** The loop of [VerifyAuthToken]: [found]. *)
Fixpoint VerifyAuthToken_loop (token : string) (tokens : list AuthToken.t) : bool :=
  match tokens with
  | [] => false
  | t :: rest =>
      if String.eqb token (AuthToken.Token t) then true
      else VerifyAuthToken_loop token rest
  end.

(** [Manager.VerifyAuthToken(username, token string) error] *)
Definition VerifyAuthToken (username token : string) : M W (option Error) :=
  p <- Account username ;;
  let (acct, err) := p in
  match err with
  | Some e => ret (Some e)
  | None =>
      match acct with
      | None => panic
      | Some acct =>
          if VerifyAuthToken_loop token (Account.Tokens acct) then ret None
          else ret (Some ErrInvalidAuthToken)
      end
  end.

(** [Manager.ServiceKey(key string)] *)
Definition ServiceKey (key : string) : M W (option ServiceKey.t * option Error) :=
  r <- run (serviceKeysFilterKey db key) ;;
  match r with
  | Err err => ret (None, Some (Passed err))
  | Ok res =>
      if IsNil res then ret (None, Some ErrServiceKeyDoesNotExist)
      else
        match One res with
        | Err err => ret (None, Some (Passed err))
        | Ok k => ret (Some k, None)
        end
  end.

(** [Manager.SaveServiceKey(key) error] *)
Definition SaveServiceKey (key : ServiceKey.t) : M W (option Error) :=
  r <- run (serviceKeysInsert db key) ;;
  match r with
  | Err err => ret (Some (Passed err))
  | Ok _ =>
      _ <- init ;;
      now <- timeNowUnix m ;;
      let evt := Event.mk "add-service-key" EmptyString now
                   ("description=" ++ ServiceKey.Description key)
                   ["cluster"; "security"] in
      saveEvent evt
  end.

(** [Manager.RemoveServiceKey(key string) error] *)
Definition RemoveServiceKey (key : string) : M W (option Error) :=
  p <- ServiceKey key ;;
  let (k, err) := p in
  match err with
  | Some e => ret (Some e)
  | None =>
      match k with
      | None => panic
      | Some k =>
          now <- timeNowUnix m ;;
          let evt := Event.mk "remove-service-key" EmptyString now
                       ("description=" ++ ServiceKey.Description k)
                       ["cluster"; "security"] in
          e <- saveEvent evt ;;
          match e with
          | Some err => ret (Some err)
          | None =>
              r <- run (serviceKeysDeleteKey db key) ;;
              match r with
              | Err err => ret (Some (Passed err))
              | Ok _ => ret None
              end
          end
      end
  end.

(** [Manager.VerifyServiceKey(key string) error] *)
Definition VerifyServiceKey (key : string) : M W (option Error) :=
  p <- ServiceKey key ;;
  ret (snd p).

(** [Manager.NewServiceKey(description string)].  The slice expression
    [k[24:]] panics on a token shorter than 24 bytes. *)
Definition NewServiceKey (description : string)
    : M W (option ServiceKey.t * option Error) :=
  g <- run (Authenticator.GenerateToken (authenticator db)) ;;
  match g with
  | Err err => ret (None, Some (Passed err))
  | Ok k =>
      if (String.length k <? 24)%nat then panic
      else
        let key := ServiceKey.mk (String.substring 24 (String.length k - 24) k)
                                 description in
        e <- SaveServiceKey key ;;
        match e with
        | Some err => ret (None, Some err)
        | None => ret (Some key, None)
        end
  end.

(** [Manager.WebhookKey(key string)] *)
Definition WebhookKey (key : string) : M W (option WebhookKey.t * option Error) :=
  r <- run (webhookKeysFilterKey db key) ;;
  match r with
  | Err err => ret (None, Some (Passed err))
  | Ok res =>
      if IsNil res then ret (None, Some ErrWebhookKeyDoesNotExist)
      else
        match One res with
        | Err err => ret (None, Some (Passed err))
        | Ok k => ret (Some k, None)
        end
  end.

(** [Manager.SaveWebhookKey(key) error] *)
Definition SaveWebhookKey (key : WebhookKey.t) : M W (option Error) :=
  r <- run (webhookKeysInsert db key) ;;
  match r with
  | Err err => ret (Some (Passed err))
  | Ok _ =>
      now <- timeNowUnix m ;;
      let evt := Event.mk "add-webhook-key" EmptyString now
                   ("image=" ++ WebhookKey.Image key) ["docker"; "webhook"] in
      saveEvent evt
  end.

(** [generateId(16)] at the time of the call. *)
Definition generateId16 : M W string :=
  fun st => (utils.generateId (Sum256 db) (timeNowString db (world st)) 16, st).

(** [Manager.NewWebhookKey(image string)] *)
Definition NewWebhookKey (image : string)
    : M W (option WebhookKey.t * option Error) :=
  k <- generateId16 ;;
  let key := WebhookKey.mk EmptyString k image in
  e <- SaveWebhookKey key ;;
  match e with
  | Some err => ret (None, Some err)
  | None => ret (Some key, None)
  end.

(** [Manager.DeleteWebhookKey(id string) error] *)
Definition DeleteWebhookKey (id : string) : M W (option Error) :=
  p <- WebhookKey id ;;
  let (key, err) := p in
  match err with
  | Some e => ret (Some e)
  | None =>
      match key with
      | None => panic
      | Some key =>
          r <- run (webhookKeysGetDelete db (WebhookKey.ID key)) ;;
          match r with
          | Err err => ret (Some (Passed err))
          | Ok isNil =>
              if isNil then ret (Some ErrWebhookKeyDoesNotExist)
              else
                now <- timeNowUnix m ;;
                let evt := Event.mk "delete-webhook-key" EmptyString now
                             ("image=" ++ WebhookKey.Image key ++ " key="
                                ++ WebhookKey.Key key)
                             ["docker"; "webhook"] in
                saveEvent evt
          end
      end
  end.

End Store.

End store.

(** ** A simulated database *)

(** Tables held as lists beside the simulated engine, whose call counter and
    faults also number the queries and the calls of the authenticator. *)
Module sim_store.
Import dockerclient manager sim store.

Record Tables := mkT {
  engine : World;
  accounts : list Account.t;
  service_keys : list ServiceKey.t;
  webhook_keys : list WebhookKey.t;
  reporters : nat;
  minted : nat
}.

Definition with_engine (e : World) (t : Tables) : Tables :=
  mkT e (accounts t) (service_keys t) (webhook_keys t) (reporters t) (minted t).

Definition with_accounts (l : list Account.t) (t : Tables) : Tables :=
  mkT (engine t) l (service_keys t) (webhook_keys t) (reporters t) (minted t).

Definition with_service_keys (l : list ServiceKey.t) (t : Tables) : Tables :=
  mkT (engine t) (accounts t) l (webhook_keys t) (reporters t) (minted t).

Definition with_webhook_keys (l : list WebhookKey.t) (t : Tables) : Tables :=
  mkT (engine t) (accounts t) (service_keys t) l (reporters t) (minted t).

Definition mint (t : Tables) : Tables :=
  mkT (engine t) (accounts t) (service_keys t) (webhook_keys t) (reporters t)
      (S (minted t)).

(** A call of the engine, made on the engine of the tables. *)
Definition on_engine {R} (op : World -> result R * World) (t : Tables)
    : result R * Tables :=
  let (r, e) := op (engine t) in (r, with_engine e t).

(** The tables once one more call is counted. *)
Definition counted (t : Tables) : Tables := with_engine (advance (engine t)) t.

(** A query: numbered like a call of the engine, and failing when its
    number is in [faults]. *)
Definition query {R} (f : Tables -> result R * Tables) (t : Tables)
    : result R * Tables :=
  if faulty (engine t) then (Err "database fault", counted t) else f (counted t).

(** The cursor over the rows a query selects. *)
Definition cursor_of {A} (rows : list A) : Cursor A :=
  match rows with
  | [] => mkCursor true (Err "empty result")
  | a :: _ => mkCursor false (Ok a)
  end.

Definition named (u : string) (a : Account.t) : bool :=
  String.eqb (Account.Username a) u.

Definition keyed (k : string) (s : ServiceKey.t) : bool :=
  String.eqb (ServiceKey.Key s) k.

Definition with_tokens (l : list AuthToken.t) (a : Account.t) : Account.t :=
  Account.mk (Account.ID a) (Account.Username a) (Account.Password a) l.

(** The identifier the database gives a webhook key inserted without one. *)
Definition row_id (n : nat) : string :=
  "row-" ++ NilEmpty.string_of_uint (Nat.to_uint n).

(** The digest of the simulated authenticator, and its tokens: 24 bytes of
    header and a serial number. *)
Definition digest (p : string) : string := "bcrypt:" ++ p.

Definition token (n : nat) : string :=
  "$2a$10$abcdefghijklmnopq" ++ "key" ++ NilEmpty.string_of_uint (Nat.to_uint n).

Definition simAuthenticator : Authenticator.t Tables :=
  {| Authenticator.Hash := fun p => query (fun t => (Ok (digest p), t));
     Authenticator.GenerateToken :=
       query (fun t =>
         (Ok (token (minted t)), mint t));
     Authenticator.Authenticate := fun p h => String.eqb h (digest p) |}.

(** No account row has a field [user_agent] of its own, so the delete query
    of NewAuthToken selects nothing. *)
Definition simBackend : Backend Tables :=
  {| authenticator := simAuthenticator;
     accountsFilterUsername := fun u =>
       query (fun t => (Ok (cursor_of (filter (named u) (accounts t))), t));
     accountsUpdatePassword := fun u h =>
       query (fun t =>
         (Ok tt, with_accounts
                   (map (fun a => if named u a then Account.set_Password h a else a)
                        (accounts t)) t));
     accountsInsert := fun a =>
       query (fun t => (Ok tt, with_accounts (accounts t ++ [a]) t));
     accountsDeleteUserAgent := fun u ua => query (fun t => (Ok tt, t));
     accountsUpdateTokens := fun u l =>
       query (fun t =>
         (Ok tt, with_accounts
                   (map (fun a => if named u a then with_tokens l a else a)
                        (accounts t)) t));
     serviceKeysFilterKey := fun k =>
       query (fun t => (Ok (cursor_of (filter (keyed k) (service_keys t))), t));
     serviceKeysInsert := fun k =>
       query (fun t => (Ok tt, with_service_keys (service_keys t ++ [k]) t));
     serviceKeysDeleteKey := fun k =>
       query (fun t =>
         (Ok tt, with_service_keys
                   (filter (fun s => negb (keyed k s)) (service_keys t)) t));
     webhookKeysFilterKey := fun k =>
       query (fun t =>
         (Ok (cursor_of (filter (fun x => String.eqb (WebhookKey.Key x) k)
                                (webhook_keys t))), t));
     webhookKeysInsert := fun k =>
       query (fun t =>
         let row := if String.eqb (WebhookKey.ID k) EmptyString
                    then WebhookKey.mk (row_id (minted t)) (WebhookKey.Key k)
                                       (WebhookKey.Image k)
                    else k in
         (Ok tt, mint (with_webhook_keys (webhook_keys t ++ [row]) t)));
     webhookKeysGetDelete := fun id =>
       query (fun t =>
         (Ok false,
          with_webhook_keys
            (filter (fun x => negb (String.eqb (WebhookKey.ID x) id)) (webhook_keys t))
            t));
     goUsageReport := fun t =>
       mkT (engine t) (accounts t) (service_keys t) (webhook_keys t)
           (S (reporters t)) (minted t);
     timeNowString := fun t =>
       "2015-01-01 00:00:" ++ NilEmpty.string_of_uint (Nat.to_uint (tick (engine t)));
     Sum256 := fun bs => firstn 32 (bs ++ repeat Byte.x2a 32) |}.

Definition storeClient : DockerClient Tables :=
  {| ListContainers := fun all size filters => on_engine (simList all size filters);
     InspectContainer := fun id => on_engine (simInspect id);
     PullImage := fun name => on_engine (simPull name);
     CreateContainer := fun config name => on_engine (simCreate config name);
     StartContainer := fun id hc => on_engine (simStart id hc);
     KillContainer := fun id signal => on_engine (simKill id signal);
     RemoveContainer := fun id force => on_engine (simRemove id force) |}.

Definition storeManager : Manager Tables :=
  {| client := storeClient;
     session := fun e => on_engine (simInsertEvent e);
     unixNow := fun t => clock (engine t) |}.

(** A fresh state of the manager over the given tables, whose calls
    numbered in [fs] fail. *)
Definition open (accts : list Account.t) (keys : list ServiceKey.t)
    (hooks : list WebhookKey.t) (fs : list nat) : St Tables :=
  mkSt (mkT (world (boot [] fs)) accts keys hooks 0 0) [].

(** Sample rows. *)
Definition laptop : AuthToken.t := AuthToken.mk "tok-laptop" "firefox".
Definition phone : AuthToken.t := AuthToken.mk "tok-phone" "safari".
Definition admin : Account.t := Account.mk "1" "admin" (digest "secret") [laptop; phone].
Definition guest : Account.t := Account.mk "2" "guest" (digest "guest") [].
Definition ci : ServiceKey.t := ServiceKey.mk "keyci" "continuous integration".
Definition hook : WebhookKey.t := WebhookKey.mk "row-9" "0123456789abcdef" "myapp".

End sim_store.

(** ** Anonymous usage information *)

(** shipyard.Usage, from usage.go. *)
Module Usage.
Record t := mk {
    ID : string;
    Version : string;
    NumOfImages : Z;
    NumOfContainers : Z;
    TotalCpus : Z;
    TotalMemory : Z
  }.
End Usage.

Module telemetry.

(** A network interface as [uploadUsage] reads it: its name and the text
    of [HardwareAddr.String()]. *)
Record Interface := mkInterface {
    Name : string;
    HardwareAddr : string
  }.

(** The fields of the engine's [Info] that are reported. *)
Record Info := mkInfo {
    Containers : Z;
    Images : Z;
    NCPU : Z;
    MemTotal : Z
  }.

(** What [uploadUsage] calls: [net.Interfaces()], [m.client.Info()],
    [strings.Replace], [json.Marshal] on a usage record and [http.Post] with
    its URL, content type and body; and the manager's [version]. *)
Record Host (W : Type) := {
    Interfaces : W -> result (list Interface) * W;
    clientInfo : W -> result Info * W;
    Replace : string -> string -> string -> Z -> string;
    Marshal : Usage.t -> result string;
    Post : string -> string -> string -> W -> result unit * W;
    version : string
  }.
Arguments Interfaces {W}.
Arguments clientInfo {W}.
Arguments Replace {W}.
Arguments Marshal {W}.
Arguments Post {W}.
Arguments version {W}.

Definition trackerHost : string := "http://tracker.shipyard-project.com".

Section Upload.

Context {W : Type}.
Variable h : Host W.

(** The loop over the interfaces: the first one that is not named lo
    gives the identifier, and the loop is left. *)
Fixpoint uploadUsage_loop (ifaces : list Interface) (id : string) : string :=
  match ifaces with
  | [] => id
  | iface :: rest =>
      if negb (String.eqb (Name iface) "lo") then
        let hw := HardwareAddr iface in
        Replace h hw ":" EmptyString (-1)
      else uploadUsage_loop rest id
  end.

(** The identifier and the engine after [net.Interfaces()]. *)
Definition uploadUsage_id (w : W) : string * W :=
  let id := "anon" in
  let (r, w1) := Interfaces h w in
  match r with
  | Ok ifaces => (uploadUsage_loop ifaces id, w1)
  | Err _ => (id, w1)
  end.

(** [Manager.uploadUsage()].  An error of [json.Marshal] is logged and
    the empty buffer is posted. *)
Definition uploadUsage (w : W) : W :=
  let (id, w1) := uploadUsage_id w in
  let (r, w2) := clientInfo h w1 in
  match r with
  | Err _ => w2
  | Ok info =>
      let usage := Usage.mk id (version h) (Images info) (Containers info)
                            (NCPU info) (MemTotal info) in
      let b := match Marshal h usage with
               | Ok b => b
               | Err _ => EmptyString
               end in
      snd (Post h (trackerHost ++ "/update") "application/json" b w2)
  end.

End Upload.

(** A host with two interfaces that keeps the bodies posted to it, for the
    instances. *)
Definition remove_colons (s old new : string) (n : Z) : string :=
  string_of_list_ascii
    (filter (fun c => negb (Ascii.eqb c ":"%char)) (list_ascii_of_string s)).

Definition sampleHost (ifaces : list Interface) (up : bool) : Host (list string) :=
  {| Interfaces := fun w => (Ok ifaces, w);
     clientInfo := fun w =>
       if up then (Ok (mkInfo 3 5 4 8192), w) else (Err "engine unreachable", w);
     Replace := remove_colons;
     Marshal := fun u => Ok (Usage.ID u ++ "/" ++ Usage.Version u);
     Post := fun url ctype body w => (Ok tt, (w ++ [(url ++ " " ++ body)%string])%list);
     version := "2.0.8" |}.

End telemetry.

(** ** The tables of the database *)

Module schema.

(** The two queries of [initdb]: [r.Table(tbl).Run] and
    [r.Db(m.database).TableCreate(tbl).Run]. *)
Record Schema (W : Type) := {
    tableRun : string -> W -> result unit * W;
    tableCreate : string -> W -> result unit * W
  }.
Arguments tableRun {W}.
Arguments tableCreate {W}.

(** How [initdb] ends: it returns, or [logger.Fatalf] ends the process
    with the error of a creation. *)
Inductive Startup : Type :=
| Ready
| Fatal (e : error).

Definition tables : list string :=
  ["config"; "events"; "accounts"; "roles"; "service_keys"; "extensions"; "webhook_keys"].

Section Initdb.

Context {W : Type}.
Variable s : Schema W.

Fixpoint initdb_loop (tbls : list string) (w : W) : Startup * W :=
  match tbls with
  | [] => (Ready, w)
  | tbl :: rest =>
      let (r, w1) := tableRun s tbl w in
      match r with
      | Ok _ => initdb_loop rest w1
      | Err _ =>
          let (r', w2) := tableCreate s tbl w1 in
          match r' with
          | Err err => (Fatal err, w2)
          | Ok _ => initdb_loop rest w2
          end
      end
  end.

(** [Manager.initdb()] *)
Definition initdb (w : W) : Startup * W := initdb_loop tables w.

End Initdb.

(** A simulated server: the tables it holds and the tables it refuses to
    create.  Reading a table that is not held fails. *)
Definition held (t : string) (l : list string) : bool := existsb (String.eqb t) l.

Definition simSchema : Schema (list string * list string) :=
  {| tableRun := fun t w =>
       if held t (fst w) then (Ok tt, w) else (Err "table does not exist", w);
     tableCreate := fun t w =>
       if held t (snd w) then (Err "creation refused", w)
       else (Ok tt, ((fst w ++ [t])%list, snd w)) |}.

End schema.

(** ** An engine that keeps its answers *)

(** Any engine, with every call and what the engine answered to it kept on
    a tape beside the engine's state.  The manager runs on it as on the
    engine itself; the tape tells which calls failed. *)
Module recorded.
Import dockerclient manager trace.
Local Open Scope list_scope.

Inductive Answer : Type :=
| Refused (e : error)
| Listed (cs : list ContainerT)
| Described (info : ContainerInfoT)
| Created (id : string)
| Done.

Definition Tape : Type := list (Call * Answer).

Section Recorded.

Context {W : Type}.

Definition keep {R} (c : Call) (say : R -> Answer) (op : W -> result R * W)
    (wt : W * Tape) : result R * (W * Tape) :=
  let (r, w') := op (fst wt) in
  (r, (w', (snd wt ++ [(c, match r with Ok a => say a | Err e => Refused e end)])%list)).

Definition recordedClient (cl : DockerClient W) : DockerClient (W * Tape) :=
  {| ListContainers := fun all size filters =>
       keep (ListContainersC all size filters) Listed (ListContainers cl all size filters);
     InspectContainer := fun id =>
       keep (InspectContainerC id) Described (InspectContainer cl id);
     PullImage := fun name =>
       keep (PullImageC name) (fun _ => Done) (PullImage cl name);
     CreateContainer := fun config name =>
       keep (CreateContainerC config name) Created (CreateContainer cl config name);
     StartContainer := fun id hc =>
       keep (StartContainerC id hc) (fun _ => Done) (StartContainer cl id hc);
     KillContainer := fun id signal =>
       keep (KillContainerC id signal) (fun _ => Done) (KillContainer cl id signal);
     RemoveContainer := fun id force =>
       keep (RemoveContainerC id force) (fun _ => Done) (RemoveContainer cl id force) |}.

Definition recordedManager (m : Manager W) : Manager (W * Tape) :=
  {| client := recordedClient (client m);
     session := fun e => keep (InsertEventC e) (fun _ => Done) (session m e);
     unixNow := fun wt => unixNow m (fst wt) |}.

Definition tape (s : St (W * Tape)) : Tape := snd (world s).

(** The state of the manager on the engine itself. *)
Definition forget (s : St (W * Tape)) : St W := mkSt (fst (world s)) (calls s).

(** A state of the manager on the engine, with a tape. *)
Definition observe (st : St W) (tp : Tape) : St (W * Tape) :=
  mkSt (world st, tp) (calls st).

(** The computation on the recording engine does what the one on the
    engine does, and writes on the tape what it adds to the call log. *)
Definition follows {A} (c' : M (W * Tape) A) (c : M W A) : Prop :=
  forall s,
    fst (c' s) = fst (c (forget s)) /\
    forget (snd (c' s)) = snd (c (forget s)) /\
    exists t, tape (snd (c' s)) = (tape s ++ t)%list /\
              calls (snd (c' s)) = (calls s ++ map fst t)%list.

End Recorded.

(** The calls after whose failure a method returns: all but the two calls
    of Destroy inside RedeployContainers, whose result is dropped there. *)
Definition aborts (c : Call) : bool :=
  match c with
  | KillContainerC _ _ => false
  | RemoveContainerC _ _ => false
  | _ => true
  end.

(** The entry of a start that the engine accepted. *)
Definition started (x : Call * Answer) : bool :=
  match x with
  | (StartContainerC _ _, Done) => true
  | _ => false
  end.

(** The identifiers inspected, in order. *)
Definition inspections (t : Tape) : list string :=
  flat_map (fun x => match fst x with InspectContainerC id => [id] | _ => [] end) t.



Definition quiet (x : Call * Answer) : Prop :=
  is_event (fst x) = false /\ is_list (fst x) = false.

(** The tapes [Destroy id] can leave. *)
Inductive destroyed (id : string) : Tape -> Prop :=
| kill_refused (e : error) :
    destroyed id [(KillContainerC id "kill", Refused e)]
| remove_refused (e : error) :
    destroyed id [(KillContainerC id "kill", Done); (RemoveContainerC id true, Refused e)]
| removed :
    destroyed id [(KillContainerC id "kill", Done); (RemoveContainerC id true, Done)].

(** The tapes the loop of RedeployContainers can leave over the listed
    entries, from the flag [deployed], with the way the loop ends. *)
Inductive pass (image : string)
    : list ContainerT -> bool -> Tape -> Outcome LoopExit -> Prop :=
| pass_end (d : bool) : pass image [] d [] (Returns (LoopEnd d))
| pass_skip c rest d t x :
    matches image c = false ->
    pass image rest d t x ->
    pass image (c :: rest) d t x
| pass_inspect c rest d e :
    matches image c = true ->
    pass image (c :: rest) d
         [(InspectContainerC (Container.Id c), Refused e)] (Returns (LoopReturn e))
| pass_pull c rest d info e :
    matches image c = true ->
    pass image (c :: rest) d
         [(InspectContainerC (Container.Id c), Described info);
          (PullImageC image, Refused e)] (Returns (LoopReturn e))
| pass_create c rest d info dt e :
    matches image c = true ->
    destroyed (Container.Id c) dt ->
    pass image (c :: rest) d
         ([(InspectContainerC (Container.Id c), Described info); (PullImageC image, Done)]
            ++ dt ++ [(CreateContainerC (ContainerInfo.Config info) EmptyString, Refused e)])
         (Returns (LoopReturn e))
| pass_start c rest d info dt id e :
    matches image c = true ->
    destroyed (Container.Id c) dt ->
    pass image (c :: rest) d
         ([(InspectContainerC (Container.Id c), Described info); (PullImageC image, Done)]
            ++ dt ++ [(CreateContainerC (ContainerInfo.Config info) EmptyString, Created id);
                      (StartContainerC id (ContainerInfo.HostConfig info), Refused e)])
         (Returns (LoopReturn e))
| pass_panic c rest d info dt id :
    matches image c = true ->
    destroyed (Container.Id c) dt ->
    (String.length id < 8)%nat ->
    pass image (c :: rest) d
         ([(InspectContainerC (Container.Id c), Described info); (PullImageC image, Done)]
            ++ dt ++ [(CreateContainerC (ContainerInfo.Config info) EmptyString, Created id);
                      (StartContainerC id (ContainerInfo.HostConfig info), Done)])
         Panics
| pass_next c rest d info dt id t x :
    matches image c = true ->
    destroyed (Container.Id c) dt ->
    (8 <= String.length id)%nat ->
    pass image rest true t x ->
    pass image (c :: rest) d
         ([(InspectContainerC (Container.Id c), Described info); (PullImageC image, Done)]
            ++ dt ++ [(CreateContainerC (ContainerInfo.Config info) EmptyString, Created id);
                      (StartContainerC id (ContainerInfo.HostConfig info), Done)] ++ t)
         x.

End recorded.

(** ** An engine that lists by image name *)

(** As the simulated engine, but the listing shows each container under the
    image name of its configuration, while the inspection gives the
    image reference of the container itself. *)
Module sim_names.
Import dockerclient manager sim.






End sim_names.

(** ** Facts about the string functions *)

Module strings_facts.

Lemma prefix_split (p s : string) :
  String.prefix p s = true <-> exists rest, s = p ++ rest.
Proof.
  revert s; induction p as [|a p IH]; intros s.
  - split; [intros _; exists s; reflexivity | intros _; destruct s; reflexivity].
  - destruct s as [|b s]; simpl.
    + split; [discriminate | intros [rest H]; discriminate].
    + destruct (Ascii.ascii_dec a b) as [->|Hab].
      * rewrite IH. split; intros [rest H]; exists rest.
        -- now rewrite H.
        -- now inversion H.
      * split; [discriminate | intros [rest H]; inversion H; subst; now elim Hab].
Qed.

(** [strings.HasPrefix(s, p)] holds exactly when [s] starts with [p]. *)
Lemma HasPrefix_spec (s p : string) :
  strings.HasPrefix s p = true <-> exists rest, s = p ++ rest.
Proof. apply prefix_split. Qed.

Lemma index_found (sub s : string) :
  String.index 0 sub s <> None <-> exists pre post, s = pre ++ sub ++ post.
Proof.
  induction s as [|b s IH].
  - simpl. destruct sub as [|a sub].
    + split; [intros _; exists EmptyString, EmptyString; reflexivity | discriminate].
    + split; [congruence|].
      intros [pre [post H]]. destruct pre; discriminate.
  - cbn [String.index].
    destruct (String.prefix sub (String b s)) eqn:Hp.
    + split; [intros _|discriminate].
      apply prefix_split in Hp. destruct Hp as [rest Hr].
      exists EmptyString, rest. exact Hr.
    + split.
      * destruct (String.index 0 sub s) as [n|] eqn:Hi; [intros _|congruence].
        destruct IH as [IH _]. destruct IH as [pre [post H]]; [discriminate|].
        exists (String b pre), post. simpl. now rewrite H.
      * intros [pre [post H]].
        destruct pre as [|c pre].
        -- simpl in H. assert (String.prefix sub (String b s) = true) as Ht.
           { apply prefix_split. exists post. exact H. }
           congruence.
        -- simpl in H. inversion H; subst.
           destruct IH as [_ IH].
           destruct (String.index 0 sub (pre ++ sub ++ post)); [discriminate|].
           exfalso. apply IH; [|reflexivity]. now exists pre, post.
Qed.

(** [strings.Index(s, sub) > -1] holds exactly when [sub] occurs in [s]. *)
Lemma Index_spec (s sub : string) :
  (strings.Index s sub >? -1) = true <-> exists pre post, s = pre ++ sub ++ post.
Proof.
  rewrite <- index_found. unfold strings.Index.
  destruct (String.index 0 sub s) as [n|].
  - split; [discriminate | intros _; apply Z.gtb_lt; lia].
  - split; [discriminate | congruence].
Qed.

Lemma Index_refl (s : string) : (strings.Index s s >? -1) = true.
Proof. apply Index_spec. exists EmptyString, EmptyString. simpl.
  induction s; simpl; congruence. Qed.

End strings_facts.

(** ** Properties that hold on every engine *)

Section ManagerFacts.
Import dockerclient manager trace.
Local Open Scope list_scope.

Context {W : Type}.
Variable m : Manager W.

Ltac run_call H :=
  unfold bind, ret, invoke, call; cbn [world calls]; rewrite H; cbn [world calls].

(** *** Destroy *)

Lemma Destroy_kill_fails (id : string) (st : St W) (e : error) (w1 : W) :
  KillContainer (client m) id "kill" (world st) = (Err e, w1) ->
  Destroy m id st = (Returns (Some e), mkSt w1 (calls st ++ [KillContainerC id "kill"])).
Proof.
  intros Hk. unfold Destroy, mKillContainer. run_call Hk. reflexivity.
Qed.

Lemma Destroy_kill_succeeds (id : string) (st : St W) (w1 w2 : W) (r : result unit) :
  KillContainer (client m) id "kill" (world st) = (Ok tt, w1) ->
  RemoveContainer (client m) id true w1 = (r, w2) ->
  Destroy m id st =
    (Returns (match r with Err e => Some e | Ok _ => None end),
     mkSt w2 (calls st ++ [KillContainerC id "kill"; RemoveContainerC id true])).
Proof.
  intros Hk Hr. unfold Destroy, mKillContainer, mRemoveContainer.
  run_call Hk. run_call Hr. rewrite <- app_assoc. destruct r; reflexivity.
Qed.

(** C5, as the code has it: Destroy asks for the removal (with force) only
    after a successful kill.  When the kill fails its error is returned and
    no removal is requested; when the kill succeeds the removal is requested
    and its error, if any, is returned.  So the call reports success exactly
    when both the kill and the removal succeed. *)
Theorem Destroy_removes_only_after_kill (id : string) (st : St W)
    (rk rr : result unit) (w1 w2 : W) :
  KillContainer (client m) id "kill" (world st) = (rk, w1) ->
  RemoveContainer (client m) id true w1 = (rr, w2) ->
  exists (out : option error) (st' : St W),
    Destroy m id st = (Returns out, st') /\
    (forall e, rk = Err e ->
       out = Some e /\ calls st' = calls st ++ [KillContainerC id "kill"] /\ world st' = w1) /\
    (rk = Ok tt ->
       calls st' = calls st ++ [KillContainerC id "kill"; RemoveContainerC id true] /\
       world st' = w2 /\
       forall e, rr = Err e -> out = Some e) /\
    (out = None <-> rk = Ok tt /\ rr = Ok tt).
Proof.
  intros Hk Hr. destruct rk as [[]|ek].
  - rewrite (Destroy_kill_succeeds id st w1 w2 rr Hk Hr).
    eexists; eexists; split; [reflexivity|]. cbn [calls world].
    split; [discriminate|]. split.
    + intros _. repeat split. intros e ->. reflexivity.
    + destruct rr as [[]|er]; split; try tauto; try discriminate.
      intros [_ H]; discriminate.
  - rewrite (Destroy_kill_fails id st ek w1 Hk).
    eexists; eexists; split; [reflexivity|]. cbn [calls world].
    split; [intros e He; inversion He; subst; auto|].
    split; [discriminate|].
    split; [discriminate | intros [H _]; discriminate].
Qed.

(** *** Container *)

Lemma Container_loop_skip (id : string) (pre rest : list ContainerT) (st : St W) :
  (forall c, In c pre -> strings.HasPrefix (Container.Id c) id = false) ->
  Container_loop m id (pre ++ rest) st = Container_loop m id rest st.
Proof.
  induction pre as [|c pre IH]; intros Hpre; [reflexivity|].
  simpl. rewrite (Hpre c (or_introl eq_refl)).
  apply IH. intros c' Hc'. apply Hpre. now right.
Qed.

(** C10: when the listing succeeds, Container inspects the first listed
    container whose identifier starts with [id] and returns that answer;
    when no listed identifier starts with [id] it returns neither a
    container nor an error. *)
Theorem Container_first_prefix_match (id : string) (st : St W)
    (containers : list ContainerT) (w1 : W) :
  ListContainers (client m) true false EmptyString (world st) = (Ok containers, w1) ->
  let st1 := mkSt w1 (calls st ++ [ListContainersC true false EmptyString]) in
  (forall pre cnt post info w2,
      containers = pre ++ cnt :: post ->
      (forall c, In c pre -> ~ exists rest, Container.Id c = (id ++ rest)%string) ->
      (exists rest, Container.Id cnt = (id ++ rest)%string) ->
      InspectContainer (client m) (Container.Id cnt) w1 = (Ok info, w2) ->
      Container m id st =
        (Returns (Some info, None),
         mkSt w2 (calls st1 ++ [InspectContainerC (Container.Id cnt)])))
  /\
  ((forall c, In c containers -> ~ exists rest, Container.Id c = (id ++ rest)%string) ->
   Container m id st = (Returns (None, None), st1)).
Proof.
  intros Hl st1. split.
  - intros pre cnt post info w2 -> Hpre Hcnt Hi.
    unfold Container, mListContainers. run_call Hl.
    rewrite Container_loop_skip.
    + simpl. apply strings_facts.HasPrefix_spec in Hcnt. rewrite Hcnt.
      unfold mInspectContainer. run_call Hi. reflexivity.
    + intros c Hc. specialize (Hpre c Hc).
      destruct (strings.HasPrefix (Container.Id c) id) eqn:E; [|reflexivity].
      apply strings_facts.HasPrefix_spec in E. contradiction.
  - intros Hnone.
    unfold Container, mListContainers. run_call Hl.
    rewrite <- (app_nil_r containers), Container_loop_skip; [reflexivity|].
    intros c Hc. specialize (Hnone c Hc).
    destruct (strings.HasPrefix (Container.Id c) id) eqn:E; [|reflexivity].
    apply strings_facts.HasPrefix_spec in E. contradiction.
Qed.

(** *** RedeployContainers *)

(* The loop was left at a [return err] or a panic after the calls [l]. *)
Ltac exit_loop H l :=
  unfold ret, panic in H; inversion H; subst; clear H;
  exists l; cbn [calls]; repeat rewrite <- app_assoc;
  split; [reflexivity|];
  split; [repeat (constructor; [simpl; auto|]); constructor|];
  split; [simpl List.length at 1; lia|];
  let d' := fresh "d" in let Hd' := fresh "Hd" in
  intros d' Hd'; discriminate.

Lemma redeploy_call_weaken (image : string) (c0 : ContainerT) (cs : list ContainerT) (c : Call) :
  redeploy_call image cs c -> redeploy_call image (c0 :: cs) c.
Proof.
  destruct c; simpl; auto.
  - intros [e [H1 H2]]. exists e. split; [now right|assumption].
  - intros [Hs [e [H1 H2]]]. split; [assumption|]. exists e. split; [now right|assumption].
  - intros [Hs [e [H1 H2]]]. split; [assumption|]. exists e. split; [now right|assumption].
Qed.

Lemma Destroy_trace (id : string) (st : St W) :
  exists out st' new,
    Destroy m id st = (Returns out, st') /\
    calls st' = calls st ++ new /\
    (new = [KillContainerC id "kill"] \/
     new = [KillContainerC id "kill"; RemoveContainerC id true]).
Proof.
  destruct (KillContainer (client m) id "kill" (world st)) as [rk w1] eqn:Hk.
  destruct rk as [[]|e].
  - destruct (RemoveContainer (client m) id true w1) as [rr w2] eqn:Hr.
    rewrite (Destroy_kill_succeeds id st w1 w2 rr Hk Hr).
    do 3 eexists. split; [reflexivity|]. split; [reflexivity|]. now right.
  - rewrite (Destroy_kill_fails id st e w1 Hk).
    do 3 eexists. split; [reflexivity|]. split; [reflexivity|]. now left.
Qed.

(** What one run of the loop adds to the log. *)
Lemma RedeployContainers_loop_trace (image : string) (cs : list ContainerT) :
  forall (d : bool) (st : St W) x st',
    RedeployContainers_loop m image cs d st = (x, st') ->
    exists new,
      calls st' = calls st ++ new /\
      Forall (redeploy_call image cs) new /\
      (List.length (filter is_pull new) <= List.length (filter (matches image) cs))%nat /\
      (forall d', x = Returns (LoopEnd d') ->
         d' = d || existsb (matches image) cs /\
         List.length (filter is_pull new) = List.length (filter (matches image) cs)).
Proof.
  induction cs as [|c rest IH]; intros d st x st' H.
  - inversion H; subst. exists []. rewrite app_nil_r.
    repeat split; auto; inversion H0; now rewrite orb_false_r.
  - assert (Hown : forall id, id = Container.Id c -> matches image c = true ->
              exists e, In e (c :: rest) /\ matches image e = true /\ Container.Id e = id).
    { intros id -> Hm. exists c. repeat split; [now left|assumption]. }
    simpl in H. fold (matches image c) in H.
    destruct (matches image c) eqn:Hm.
    2:{ apply IH in H. destruct H as [new [H1 [H2 [H3 H4]]]].
        exists new. split; [assumption|]. split.
        - eapply Forall_impl; [|exact H2]. apply redeploy_call_weaken.
        - simpl. fold (matches image c). rewrite Hm. simpl. split; [assumption|].
          exact H4. }
    specialize (Hown _ eq_refl eq_refl).
    assert (Hcount : List.length (filter (matches image) (c :: rest))
                     = S (List.length (filter (matches image) rest))).
    { simpl. fold (matches image c). now rewrite Hm. }
    assert (Hex : existsb (matches image) (c :: rest) = true).
    { simpl. fold (matches image c). now rewrite Hm. }
    rewrite Hcount, Hex, orb_true_r. clear Hcount Hex.
    unfold bind at 1, mInspectContainer, invoke, call in H.
    destruct (InspectContainer (client m) (Container.Id c) (world st)) as [ri w1].
    cbn [world calls] in H.
    destruct ri as [info|err]; [|exit_loop H [InspectContainerC (Container.Id c)]].
    unfold bind at 1, mPullImage, invoke, call in H. cbn [world calls] in H.
    destruct (PullImage (client m) image w1) as [rp w2].
    destruct rp as [[]|err];
      [|exit_loop H [InspectContainerC (Container.Id c); PullImageC image]].
    unfold bind at 1 in H.
    destruct (Destroy_trace (Container.Id c)
                (mkSt w2 ((calls st ++ [InspectContainerC (Container.Id c)]) ++ [PullImageC image])))
      as (out & st2 & dn & Hd & Hcalls & Hshape).
    rewrite Hd in H. cbn [calls] in Hcalls.
    unfold bind at 1, mCreateContainer, invoke, call in H. cbn [world calls] in H.
    destruct (CreateContainer (client m) (ContainerInfo.Config info) EmptyString (world st2))
      as [rc w3].
    rewrite Hcalls in H.
    destruct rc as [containerId|err].
    2:{ destruct Hshape as [-> | ->];
        [exit_loop H [InspectContainerC (Container.Id c); PullImageC image;
                      KillContainerC (Container.Id c) "kill";
                      CreateContainerC (ContainerInfo.Config info) EmptyString]
        |exit_loop H [InspectContainerC (Container.Id c); PullImageC image;
                      KillContainerC (Container.Id c) "kill";
                      RemoveContainerC (Container.Id c) true;
                      CreateContainerC (ContainerInfo.Config info) EmptyString]]. }
    unfold bind at 1, mStartContainer, invoke, call in H. cbn [world calls] in H.
    destruct (StartContainer (client m) containerId (ContainerInfo.HostConfig info) w3)
      as [rs w4].
    destruct rs as [[]|err].
    2:{ destruct Hshape as [-> | ->];
        [exit_loop H [InspectContainerC (Container.Id c); PullImageC image;
                      KillContainerC (Container.Id c) "kill";
                      CreateContainerC (ContainerInfo.Config info) EmptyString;
                      StartContainerC containerId (ContainerInfo.HostConfig info)]
        |exit_loop H [InspectContainerC (Container.Id c); PullImageC image;
                      KillContainerC (Container.Id c) "kill";
                      RemoveContainerC (Container.Id c) true;
                      CreateContainerC (ContainerInfo.Config info) EmptyString;
                      StartContainerC containerId (ContainerInfo.HostConfig info)]]. }
    destruct (String.length containerId <? 8)%nat.
    { destruct Hshape as [-> | ->];
        [exit_loop H [InspectContainerC (Container.Id c); PullImageC image;
                      KillContainerC (Container.Id c) "kill";
                      CreateContainerC (ContainerInfo.Config info) EmptyString;
                      StartContainerC containerId (ContainerInfo.HostConfig info)]
        |exit_loop H [InspectContainerC (Container.Id c); PullImageC image;
                      KillContainerC (Container.Id c) "kill";
                      RemoveContainerC (Container.Id c) true;
                      CreateContainerC (ContainerInfo.Config info) EmptyString;
                      StartContainerC containerId (ContainerInfo.HostConfig info)]]. }
    apply IH in H. destruct H as [new [H1 [H2 [H3 H4]]]]. cbn [calls] in H1.
    assert (Hrest : Forall (redeploy_call image (c :: rest)) new).
    { eapply Forall_impl; [|exact H2]. apply redeploy_call_weaken. }
    destruct Hshape as [-> | ->].
    + exists ([InspectContainerC (Container.Id c); PullImageC image;
               KillContainerC (Container.Id c) "kill";
               CreateContainerC (ContainerInfo.Config info) EmptyString;
               StartContainerC containerId (ContainerInfo.HostConfig info)] ++ new).
      split; [rewrite H1; repeat rewrite <- app_assoc; reflexivity|].
      split; [repeat (constructor; [simpl; auto|]); exact Hrest|].
      simpl. split; [lia|]. intros d' Hd'. destruct (H4 d' Hd') as [-> ->]. auto.
    + exists ([InspectContainerC (Container.Id c); PullImageC image;
               KillContainerC (Container.Id c) "kill";
               RemoveContainerC (Container.Id c) true;
               CreateContainerC (ContainerInfo.Config info) EmptyString;
               StartContainerC containerId (ContainerInfo.HostConfig info)] ++ new).
      split; [rewrite H1; repeat rewrite <- app_assoc; reflexivity|].
      split; [repeat (constructor; [simpl; auto|]); exact Hrest|].
      simpl. split; [lia|]. intros d' Hd'. destruct (H4 d' Hd') as [-> ->]. auto.
Qed.

Lemma redeploy_calls_no_event (image : string) (cs : list ContainerT) (l : list Call) :
  Forall (redeploy_call image cs) l -> filter is_event l = [].
Proof.
  induction 1 as [|c l Hc _ IH]; [reflexivity|].
  simpl. destruct c; simpl in *; try assumption. contradiction.
Qed.

(** The whole of RedeployContainers, step by step: the listing of the
    running containers, the loop, and the event after a loop that ran to its
    end with [deployed] set. *)
Lemma RedeployContainers_trace (image : string) (st : St W) :
  let lst := ListContainersC false false EmptyString in
  exists r w1,
    ListContainers (client m) false false EmptyString (world st) = (r, w1) /\
    match r with
    | Err err =>
        RedeployContainers m image st = (Returns (Some err), mkSt w1 (calls st ++ [lst]))
    | Ok cs =>
        exists x st2 loopnew,
          RedeployContainers_loop m image cs false (mkSt w1 (calls st ++ [lst])) = (x, st2) /\
          calls st2 = calls st ++ lst :: loopnew /\
          Forall (redeploy_call image cs) loopnew /\
          (List.length (filter is_pull loopnew)
             <= List.length (filter (matches image) cs))%nat /\
          match x with
          | Returns (LoopReturn err) =>
              RedeployContainers m image st = (Returns (Some err), st2)
          | Returns (LoopEnd deployed) =>
              deployed = existsb (matches image) cs /\
              List.length (filter is_pull loopnew)
                = List.length (filter (matches image) cs) /\
              if deployed then
                let evt := deployEvent image (unixNow m (world st2)) in
                exists re w3,
                  session m evt (world st2) = (re, w3) /\
                  RedeployContainers m image st =
                    (Returns (match re with Err e => Some e | Ok _ => None end),
                     mkSt w3 (calls st2 ++ [InsertEventC evt]))
              else RedeployContainers m image st = (Returns None, st2)
          | Panics => RedeployContainers m image st = (Panics, st2)
          | Blocks => RedeployContainers m image st = (Blocks, st2)
          end
    end.
Proof.
  intros lst.
  destruct (ListContainers (client m) false false EmptyString (world st)) as [r w1] eqn:Hl.
  exists r, w1. split; [reflexivity|].
  remember (RedeployContainers m image st) as R eqn:HR.
  unfold RedeployContainers, Containers, mListContainers in HR.
  unfold bind at 1, invoke, call in HR. rewrite Hl in HR. cbn [world calls] in HR.
  fold lst in HR.
  destruct r as [cs|err]; [|exact HR].
  destruct (RedeployContainers_loop m image cs false (mkSt w1 (calls st ++ [lst])))
    as [x st2] eqn:Hloop.
  destruct (RedeployContainers_loop_trace image cs false _ x st2 Hloop)
    as [new [H1 [H2 [H3 H4]]]].
  cbn [calls] in H1. rewrite <- app_assoc in H1. simpl in H1.
  exists x, st2, new. split; [reflexivity|]. split; [exact H1|].
  split; [exact H2|]. split; [exact H3|].
  unfold bind at 1 in HR. rewrite Hloop in HR.
  destruct x as [[err|deployed]| |]; try exact HR.
  destruct (H4 deployed eq_refl) as [Hd Hn]. simpl in Hd.
  split; [exact Hd|]. split; [exact Hn|].
  destruct deployed; [|exact HR].
  cbn zeta.
  destruct (session m (deployEvent image (unixNow m (world st2))) (world st2))
    as [re w3] eqn:Hs.
  exists re, w3. split; [reflexivity|].
  cbv beta iota zeta delta [bind timeNowUnix SaveEvent mInsertEvent invoke call ret] in HR.
  rewrite Hs in HR. rewrite HR. destruct re as [[]|e]; reflexivity.
Qed.

(** C2, as the code has it: every image pull of a redeployment names the
    string the caller passed, whatever the image reference of the replica
    being replaced; there is at most one pull per listed replica whose image
    contains that string, and exactly one each when the call returns without
    error. *)
Theorem RedeployContainers_pulls_caller_image (image : string) (st : St W)
    (cs : list ContainerT) (w1 : W) :
  ListContainers (client m) false false EmptyString (world st) = (Ok cs, w1) ->
  exists out st' new,
    RedeployContainers m image st = (out, st') /\
    calls st' = calls st ++ new /\
    (forall name, In (PullImageC name) new -> name = image) /\
    (List.length (filter is_pull new) <= List.length (filter (matches image) cs))%nat /\
    (out = Returns None ->
     List.length (filter is_pull new) = List.length (filter (matches image) cs)).
Proof.
  intros Hl.
  destruct (RedeployContainers_trace image st) as (r & w & Hl' & Hr).
  rewrite Hl in Hl'. inversion Hl'; subst r w; clear Hl'.
  destruct Hr as (x & st2 & loopnew & Hloop & Hcalls & Hall & Hle & Hx).
  assert (Hpull : forall l name,
            Forall (redeploy_call image cs) l -> In (PullImageC name) l -> name = image).
  { intros l name Hf Hin. rewrite Forall_forall in Hf. exact (Hf _ Hin). }
  set (lst := ListContainersC false false EmptyString) in *.
  assert (Hnew : forall name, In (PullImageC name) (lst :: loopnew) -> name = image).
  { intros name [Hc|Hin]; [discriminate|]. eauto. }
  destruct x as [[err|deployed]| |].
  - do 3 eexists. split; [exact Hx|]. split; [exact Hcalls|].
    split; [exact Hnew|]. simpl. split; [exact Hle|discriminate].
  - destruct Hx as [Hd [Hn Hx]]. destruct deployed.
    + destruct Hx as (re & w3 & Hs & Hx).
      do 3 eexists. split; [exact Hx|]. cbn [calls]. rewrite Hcalls.
      split; [rewrite <- app_assoc; reflexivity|].
      split.
      * intros name Hin. simpl in Hin. destruct Hin as [Hc|Hin]; [discriminate|].
        apply in_app_or in Hin. destruct Hin as [Hin|[Hc|[]]]; [eauto|discriminate].
      * simpl. rewrite filter_app, length_app. simpl. rewrite Nat.add_0_r.
        split; [exact Hle|intros _; exact Hn].
    + do 3 eexists. split; [exact Hx|]. split; [exact Hcalls|].
      split; [exact Hnew|]. simpl. split; [exact Hle|intros _; exact Hn].
  - do 3 eexists. split; [exact Hx|]. split; [exact Hcalls|].
    split; [exact Hnew|]. simpl. split; [exact Hle|discriminate].
  - do 3 eexists. split; [exact Hx|]. split; [exact Hcalls|].
    split; [exact Hnew|]. simpl. split; [exact Hle|discriminate].
Qed.

End ManagerFacts.

(** ** The batch of Run on every engine *)

Section BatchFacts.
Import dockerclient manager trace batch.
Local Open Scope list_scope.

Context {W : Type}.
Variable m : Manager W.
Variable config : ContainerConfigT.

Lemma set_nth_length {A} (i : nat) (x : A) (xs : list A) :
  List.length (set_nth i x xs) = List.length xs.
Proof.
  revert i; induction xs as [|y xs IH]; intros [|i]; simpl; auto.
Qed.

Lemma set_nth_total (f : Goroutine -> nat) (gs : list Goroutine) :
  forall i g g', nth_error gs i = Some g ->
    (total f (set_nth i g' gs) + f g = total f gs + f g')%nat.
Proof.
  unfold total. induction gs as [|a gs IH]; intros [|i] g g' H; simpl in *; try discriminate.
  - inversion H; subst. lia.
  - specialize (IH i g g' H). lia.
Qed.

Lemma set_nth_Forall {A} (P : A -> Prop) (xs : list A) :
  forall i x, Forall P xs -> P x -> Forall P (set_nth i x xs).
Proof.
  induction xs as [|y xs IH]; intros [|i] x Hxs Hx; simpl; auto;
    inversion Hxs; subst; constructor; auto.
Qed.

Lemma runnable_from_spec (gs : list Goroutine) :
  forall k i, In i (runnable_from k gs) ->
    exists g, nth_error gs (i - k) = Some g /\ runnable g = true /\ (k <= i)%nat.
Proof.
  induction gs as [|a gs IH]; intros k i Hin; simpl in Hin; [contradiction|].
  destruct (runnable a) eqn:Ha.
  - destruct Hin as [<-|Hin].
    + exists a. rewrite Nat.sub_diag. auto.
    + destruct (IH _ _ Hin) as (g & Hg & Hr & Hk).
      exists g. replace (i - k)%nat with (S (i - S k)) by lia. simpl. auto with arith.
  - destruct (IH _ _ Hin) as (g & Hg & Hr & Hk).
    exists g. replace (i - k)%nat with (S (i - S k)) by lia. simpl. auto with arith.
Qed.

Lemma runnable_from_nil (gs : list Goroutine) :
  forall k, runnable_from k gs = [] -> Forall (fun g => runnable g = false) gs.
Proof.
  induction gs as [|a gs IH]; intros k H; [constructor|].
  simpl in H. destruct (runnable a) eqn:Ha; [discriminate|].
  constructor; eauto.
Qed.

Lemma pick_some (choice : nat) (gs : list Goroutine) (i : nat) :
  pick choice gs = Some i ->
  exists g, nth_error gs i = Some g /\ runnable g = true.
Proof.
  unfold pick. intros H. apply nth_error_In in H.
  destruct (runnable_from_spec gs 0 i H) as (g & Hg & Hr & _).
  rewrite Nat.sub_0_r in Hg. eauto.
Qed.

Lemma pick_none (choice : nat) (gs : list Goroutine) :
  pick choice gs = None -> Forall (fun g => runnable g = false) gs.
Proof.
  unfold pick. intros H.
  destruct (runnable_from 0 gs) as [|a r] eqn:Hr.
  - eapply runnable_from_nil; eassumption.
  - apply nth_error_None in H.
    pose proof (Nat.mod_upper_bound choice (List.length (a :: r))) as Hb.
    simpl in *. lia.
Qed.

(** A step leaves the list of goroutines as it is but for the one that
    moved. *)
Lemma step_goroutine_keeps (g : Goroutine) (rs : @RunState W) :
  goroutines (snd (step_goroutine m config g rs)) = goroutines rs.
Proof.
  destruct g; simpl; unfold call;
    repeat match goal with
           | |- context [let (_, _) := ?e in _] => destruct e
           end; reflexivity.
Qed.

Lemma step_goroutine_remaining (g : Goroutine) (rs : @RunState W) :
  runnable g = true ->
  (remaining (fst (step_goroutine m config g rs)) < remaining g)%nat.
Proof.
  destruct g; simpl; try discriminate; intros _; unfold call;
    repeat match goal with
           | |- context [let (_, _) := ?e in _] => destruct e
           | |- context [match ?r with Ok _ => _ | Err _ => _ end] => destruct r
           end; simpl; lia.
Qed.

Lemma step_goroutines (i : nat) (g : Goroutine) (rs : @RunState W) :
  nth_error (goroutines rs) i = Some g ->
  goroutines (step m config i rs)
    = set_nth i (fst (step_goroutine m config g rs)) (goroutines rs).
Proof.
  intros H. unfold step. rewrite H.
  pose proof (step_goroutine_keeps g rs) as Hk.
  destruct (step_goroutine m config g rs) as [g' rs']. simpl in *. now rewrite Hk.
Qed.

(** Whatever holds before a batch and is kept by every step of a runnable
    goroutine holds when the scheduler stops. *)
Lemma schedule_preserves (P : @RunState W -> Prop) :
  (forall i g rs, nth_error (goroutines rs) i = Some g -> runnable g = true ->
     P rs -> P (step m config i rs)) ->
  forall fuel sched rs, P rs -> P (schedule m config fuel sched rs).
Proof.
  intros Hstep. induction fuel as [|fuel IH]; intros sched rs HP; simpl; [assumption|].
  destruct (pick (hd 0%nat sched) (goroutines rs)) as [i|] eqn:Hp; [|assumption].
  destruct (pick_some _ _ _ Hp) as (g & Hg & Hr).
  apply IH. eapply Hstep; eassumption.
Qed.

(** With fuel for all the steps that remain, the scheduler stops only when
    no goroutine can move. *)
Lemma schedule_quiescent :
  forall fuel sched rs,
    (total remaining (goroutines rs) <= fuel)%nat ->
    Forall (fun g => runnable g = false) (goroutines (schedule m config fuel sched rs)).
Proof.
  induction fuel as [|fuel IH]; intros sched rs Hf; simpl.
  - unfold total in Hf. apply Forall_forall. intros g Hin.
    assert (remaining g = 0)%nat as H0.
    { revert Hf Hin. generalize (goroutines rs). induction l as [|a l IHl]; simpl.
      - contradiction.
      - intros Hle [->|Hin]; [lia|]. apply IHl; [lia|assumption]. }
    destruct g; simpl in H0; try discriminate; reflexivity.
  - destruct (pick (hd 0%nat sched) (goroutines rs)) as [i|] eqn:Hp.
    + destruct (pick_some _ _ _ Hp) as (g & Hg & Hr).
      apply IH. rewrite (step_goroutines i g rs Hg).
      pose proof (set_nth_total remaining (goroutines rs) i g
                    (fst (step_goroutine m config g rs)) Hg) as Ht.
      pose proof (step_goroutine_remaining g rs Hr). lia.
    + eapply pick_none; eassumption.
Qed.

(* The cases of one step of goroutine [i], found in state [g] by [Hg]. *)
Ltac step_cases Hg :=
  unfold step; rewrite Hg;
  match goal with |- context [step_goroutine _ _ ?g _] => destruct g end;
  try discriminate; cbn [step_goroutine]; unfold call;
  repeat match goal with
         | |- context [PullImage ?c ?a ?w] => destruct (PullImage c a w) as [[[]|?] ?]
         | |- context [CreateContainer ?c ?a ?b ?w] =>
             destruct (CreateContainer c a b w) as [[?|?] ?]
         | |- context [StartContainer ?c ?a ?b ?w] =>
             destruct (StartContainer c a b w) as [[[]|?] ?]
         end;
  cbn [rs_st goroutines launched runErr wg world calls fst snd].

Ltac use_total f Hg :=
  match goal with
  | |- context [set_nth ?i ?g' ?gs] =>
      let Ht := fresh "Ht" in
      pose proof (set_nth_total f gs i _ g' Hg) as Ht; simpl in Ht
  end.

(** The WaitGroup counter and the goroutines that have called [wg.Done()]
    always add up to the same number. *)
Lemma step_wg (i : nat) (g : Goroutine) (rs : @RunState W) :
  nth_error (goroutines rs) i = Some g -> runnable g = true ->
  wg (step m config i rs) + Z.of_nat (total finished (goroutines (step m config i rs)))
    = wg rs + Z.of_nat (total finished (goroutines rs)).
Proof.
  intros Hg Hr. step_cases Hg; use_total finished Hg; lia.
Qed.

Lemma step_length (i : nat) (rs : @RunState W) :
  List.length (goroutines (step m config i rs)) = List.length (goroutines rs).
Proof.
  unfold step. destruct (nth_error (goroutines rs) i) as [g|] eqn:Hg; [|reflexivity].
  pose proof (step_goroutine_keeps g rs) as Hk.
  destruct (step_goroutine m config g rs) as [g' rs']. simpl in *.
  now rewrite set_nth_length, Hk.
Qed.

Lemma total_repeat (f : Goroutine -> nat) (g : Goroutine) (n : nat) :
  total f (repeat g n) = (n * f g)%nat.
Proof. unfold total. induction n; simpl; lia. Qed.

Lemma total_terminal (gs : list Goroutine) :
  Forall (fun g => runnable g = false) gs ->
  (total finished gs + total failed gs = List.length gs)%nat.
Proof.
  unfold total. induction 1 as [|g gs Hg _ IH]; simpl; [reflexivity|].
  destruct g; simpl in *; try discriminate; lia.
Qed.

Lemma total_failed_terminal (gs : list Goroutine) :
  Forall (fun g => runnable g = false) gs ->
  (total failed gs = 0)%nat <-> ~ In GReturned gs.
Proof.
  unfold total. induction 1 as [|g gs Hg _ IH]; simpl; [tauto|].
  destruct g; simpl in *; try discriminate.
  - split; [lia|]. intros H. exfalso. apply H. now left.
  - rewrite IH. split; [intros H [Hc|Hc]; [discriminate|tauto]|tauto].
Qed.

Lemma Run_final_terminal (count : Z) (pull : bool) (sched : list nat) (st : St W) :
  Forall (fun g => runnable g = false) (goroutines (Run_final m config count pull sched st)).
Proof.
  apply schedule_quiescent. unfold Run_init. cbn [goroutines].
  rewrite total_repeat. destruct pull; simpl; lia.
Qed.

Lemma Run_final_wg (count : Z) (pull : bool) (sched : list nat) (st : St W) :
  0 <= count ->
  wg (Run_final m config count pull sched st)
    = Z.of_nat (total failed (goroutines (Run_final m config count pull sched st))).
Proof.
  intros Hc.
  pose proof (Run_final_terminal count pull sched st) as Hq.
  apply total_terminal in Hq.
  assert (Hinv : wg (Run_final m config count pull sched st)
                 + Z.of_nat (total finished (goroutines (Run_final m config count pull sched st)))
                 = count
                 /\ List.length (goroutines (Run_final m config count pull sched st)) = Z.to_nat count).
  { unfold Run_final.
    apply (schedule_preserves
             (fun rs => wg rs + Z.of_nat (total finished (goroutines rs)) = count
                        /\ List.length (goroutines rs) = Z.to_nat count)).
    - intros i g rs Hg Hr [H1 H2]. rewrite (step_wg i g rs Hg Hr).
      rewrite step_length. auto.
    - unfold Run_init. cbn [wg goroutines]. rewrite total_repeat, repeat_length.
      destruct pull; simpl; split; lia. }
  destruct Hinv as [H1 H2]. lia.
Qed.

(** Run returns exactly when no goroutine left through an error branch; with
    one such goroutine the counter stays positive and [wg.Wait()] blocks. *)
Lemma Run_blocks_iff (count : Z) (pull : bool) (sched : list nat) (st : St W) :
  0 <= count ->
  let rs := Run_final m config count pull sched st in
  (In GReturned (goroutines rs) -> Run m config count pull sched st = (Blocks, rs_st rs)) /\
  (~ In GReturned (goroutines rs) ->
   Run m config count pull sched st = (Returns (launched rs, runErr rs), rs_st rs)).
Proof.
  intros Hc rs.
  pose proof (Run_final_wg count pull sched st Hc) as Hwg.
  pose proof (total_failed_terminal _ (Run_final_terminal count pull sched st)) as Hf.
  fold rs in Hwg, Hf.
  unfold Run. destruct (count <? 0) eqn:Hneg; [apply Z.ltb_lt in Hneg; lia|].
  fold rs.
  split; intros H.
  - destruct (wg rs =? 0) eqn:E; [|reflexivity].
    apply Z.eqb_eq in E. exfalso. apply Hf; [lia|assumption].
  - apply Hf in H. rewrite Hwg, H. reflexivity.
Qed.

(** The log of a batch started without pull: one CreateContainer call per
    goroutine, each with the configuration passed to Run, and no pull. *)
Lemma step_launch_log (st0 : St W) (i : nat) (g : Goroutine) (rs : @RunState W) :
  nth_error (goroutines rs) i = Some g -> runnable g = true ->
  (Forall (fun g => g <> GPull) (goroutines rs) /\
   exists new, calls (rs_st rs) = calls st0 ++ new /\
     Forall (launch_call config) new /\
     List.length (filter is_create new) = total created (goroutines rs)) ->
  (Forall (fun g => g <> GPull) (goroutines (step m config i rs)) /\
   exists new, calls (rs_st (step m config i rs)) = calls st0 ++ new /\
     Forall (launch_call config) new /\
     List.length (filter is_create new) = total created (goroutines (step m config i rs))).
Proof.
  intros Hg Hr [Hnp (new & Hnew & Hall & Hlen)].
  assert (Hgp : g <> GPull).
  { rewrite Forall_forall in Hnp. apply Hnp. eapply nth_error_In; eassumption. }
  step_cases Hg; try congruence;
    (split; [apply set_nth_Forall; [assumption|discriminate]|]);
    use_total created Hg;
    try (exists new; repeat split; [assumption|assumption|lia]).
  - exists (new ++ [CreateContainerC config EmptyString]).
    rewrite Hnew, <- app_assoc. split; [reflexivity|].
    split; [apply Forall_app; split; [assumption|repeat constructor]|].
    rewrite filter_app, length_app. simpl. lia.
  - exists (new ++ [CreateContainerC config EmptyString]).
    rewrite Hnew, <- app_assoc. split; [reflexivity|].
    split; [apply Forall_app; split; [assumption|repeat constructor]|].
    rewrite filter_app, length_app. simpl. lia.
  - exists (new ++ [StartContainerC containerId (ContainerConfig.HostConfig config)]).
    rewrite Hnew, <- app_assoc. split; [reflexivity|].
    split; [apply Forall_app; split; [assumption|]|].
    + constructor; [right; eexists; reflexivity|constructor].
    + rewrite filter_app, length_app. simpl. lia.
  - exists (new ++ [StartContainerC containerId (ContainerConfig.HostConfig config)]).
    rewrite Hnew, <- app_assoc. split; [reflexivity|].
    split; [apply Forall_app; split; [assumption|]|].
    + constructor; [right; eexists; reflexivity|constructor].
    + rewrite filter_app, length_app. simpl. lia.
Qed.

Lemma total_created_terminal (gs : list Goroutine) :
  Forall (fun g => runnable g = false) gs -> total created gs = List.length gs.
Proof.
  unfold total. induction 1 as [|g gs Hg _ IH]; simpl; [reflexivity|].
  destruct g; simpl in *; try discriminate; lia.
Qed.

Lemma Run_launch_log (count : Z) (sched : list nat) (st : St W) :
  0 <= count ->
  exists new,
    calls (rs_st (Run_final m config count false sched st)) = calls st ++ new /\
    Forall (launch_call config) new /\
    List.length (filter is_create new) = Z.to_nat count.
Proof.
  intros Hc.
  pose proof (Run_final_terminal count false sched st) as Hq.
  apply total_created_terminal in Hq.
  assert (Hlen : List.length (goroutines (Run_final m config count false sched st)) = Z.to_nat count).
  { unfold Run_final.
    apply (schedule_preserves (fun rs => List.length (goroutines rs) = Z.to_nat count)).
    - intros i g rs _ _ H. now rewrite step_length.
    - unfold Run_init. cbn [goroutines]. apply repeat_length. }
  assert (Hinv :
    Forall (fun g => g <> GPull) (goroutines (Run_final m config count false sched st)) /\
    exists new, calls (rs_st (Run_final m config count false sched st)) = calls st ++ new /\
      Forall (launch_call config) new /\
      List.length (filter is_create new)
        = total created (goroutines (Run_final m config count false sched st))).
  { unfold Run_final.
    apply (schedule_preserves
      (fun rs => Forall (fun g => g <> GPull) (goroutines rs) /\
         exists new, calls (rs_st rs) = calls st ++ new /\
           Forall (launch_call config) new /\
           List.length (filter is_create new) = total created (goroutines rs))).
    - intros i g rs Hg Hr H. eapply step_launch_log; eassumption.
    - unfold Run_init. cbn [goroutines rs_st]. split.
      + apply Forall_forall. intros g Hin. apply repeat_spec in Hin. subst. discriminate.
      + exists []. rewrite app_nil_r, total_repeat. simpl.
        repeat split; [constructor|lia]. }
  destruct Hinv as [_ (new & H1 & H2 & H3)].
  exists new. repeat split; try assumption. lia.
Qed.

End BatchFacts.

(** ** Scale on every engine *)

Section ScaleFacts.
Import dockerclient manager trace batch.
Local Open Scope list_scope.

Context {W : Type}.
Variable m : Manager W.



Lemma Scale_up_unfold (container info : ContainerInfoT) (count : Z) (sched : list nat)
    (st st1 st2 : St W) (cls : list ContainerInfoT) :
  mInspectContainer m (ContainerInfo.Id container) st = (Returns (Ok info), st1) ->
  IdenticalContainers m info true st1 = (Returns (Ok cls), st2) ->
  Z.of_nat (List.length cls) < count ->
  let template := ContainerConfig.set_Hostname EmptyString (ContainerInfo.Config container) in
  Scale m container count sched st =
    match Run m template (count - Z.of_nat (List.length cls)) false sched st2 with
    | (Returns x, st3) => (Returns (ContainerInfo.set_Config template container, snd x), st3)
    | (Panics, st3) => (Panics, st3)
    | (Blocks, st3) => (Blocks, st3)
    end.
Proof.
  intros Hi Hc Hcount template. unfold Scale.
  unfold bind at 1. rewrite Hi. unfold bind at 1. rewrite Hc.
  destruct (Z.of_nat (List.length cls) >? count) eqn:E; [rewrite Z.gtb_ltb in E; apply Z.ltb_lt in E; lia|].
  destruct (Z.of_nat (List.length cls) <? count) eqn:E2; [|apply Z.ltb_ge in E2; lia].
  unfold bind. cbn [ContainerInfo.Config ContainerInfo.set_Config]. fold template.
  destruct (Run m template (count - Z.of_nat (List.length cls)) false sched st2)
    as [[x| |] st3]; try reflexivity.
  destruct (snd x); reflexivity.
Qed.

(** C9: when the class is smaller than [count], Scale clears the hostname
    of the reference's configuration and launches [count - current]
    goroutines from that configuration without pull: the engine receives
    exactly that many CreateContainer calls, every one with the empty
    hostname, and no PullImage call, whatever the hostname was before. *)
Theorem Scale_up_clears_hostname (container info : ContainerInfoT) (count : Z)
    (sched : list nat) (st st1 st2 : St W) (cls : list ContainerInfoT) :
  mInspectContainer m (ContainerInfo.Id container) st = (Returns (Ok info), st1) ->
  IdenticalContainers m info true st1 = (Returns (Ok cls), st2) ->
  Z.of_nat (List.length cls) < count ->
  let template := ContainerConfig.set_Hostname EmptyString (ContainerInfo.Config container) in
  let numAdd := count - Z.of_nat (List.length cls) in
  ContainerConfig.Hostname template = EmptyString /\
  exists out st3 new,
    Scale m container count sched st = (out, st3) /\
    (out, st3) =
      match Run m template numAdd false sched st2 with
      | (Returns x, s) => (Returns (ContainerInfo.set_Config template container, snd x), s)
      | (Panics, s) => (Panics, s)
      | (Blocks, s) => (Blocks, s)
      end /\
    calls st3 = calls st2 ++ new /\
    filter is_pull new = [] /\
    (forall cfg name, In (CreateContainerC cfg name) new ->
       cfg = template /\ ContainerConfig.Hostname cfg = EmptyString) /\
    List.length (filter is_create new) = Z.to_nat numAdd.
Proof.
  intros Hi Hc Hcount template numAdd. split; [reflexivity|].
  pose proof (Scale_up_unfold container info count sched st st1 st2 cls Hi Hc Hcount) as Hs.
  cbv zeta in Hs. fold template numAdd in Hs.
  assert (Hn : 0 <= numAdd) by (unfold numAdd; lia).
  destruct (Run_launch_log m template numAdd sched st2 Hn) as (new & H1 & H2 & H3).
  assert (Hst : snd (Run m template numAdd false sched st2)
                = rs_st (Run_final m template numAdd false sched st2)).
  { unfold Run. destruct (numAdd <? 0) eqn:E; [apply Z.ltb_lt in E; lia|].
    cbv zeta. destruct (wg _ =? 0); reflexivity. }
  destruct (Run m template numAdd false sched st2) as [o s] eqn:HR. simpl in Hst. subst s.
  exists (fst (Scale m container count sched st)), (snd (Scale m container count sched st)), new.
  split; [now destruct (Scale m container count sched st)|].
  rewrite Hs. split; [destruct o; reflexivity|].
  split; [destruct o; exact H1|].
  split.
  - clear -H2. induction H2 as [|c l Hc _ IH]; [reflexivity|].
    simpl. destruct Hc as [->|[id ->]]; simpl; exact IH.
  - split; [|exact H3].
    intros cfg name Hin. rewrite Forall_forall in H2.
    destruct (H2 _ Hin) as [Heq|[id Heq]]; [|discriminate].
    inversion Heq; subst. split; reflexivity.
Qed.

End ScaleFacts.

(** ** The manager on the simulated engine *)

Section SimFacts.
Import dockerclient manager trace sim.
Local Open Scope list_scope.

Lemma attempt_quiet {R} (op : World -> result R * World) (w : World) :
  faults w = [] -> attempt op w = op (advance w).
Proof. intros H. unfold attempt, faulty. now rewrite H. Qed.

Lemma find_has_id (cs : list SimContainer) (c : SimContainer) :
  NoDup (map ident cs) -> In c cs -> find (has_id (ident c)) cs = Some c.
Proof.
  induction cs as [|a cs IH]; intros Hnd Hin; [contradiction|].
  simpl in *. inversion Hnd as [|? ? Hna Hnd']; subst.
  destruct Hin as [->|Hin].
  - unfold has_id. fold (ident c). now rewrite String.eqb_refl.
  - unfold has_id at 1. fold (ident a). destruct (String.eqb (ident a) (ident c)) eqn:E.
    + apply String.eqb_eq in E. exfalso. apply Hna. rewrite E. now apply in_map.
    + now apply IH.
Qed.

Lemma mInspect_sim (st : St World) (cs : list SimContainer) (c : SimContainer) :
  faults (world st) = [] -> containers (world st) = cs ->
  NoDup (map ident cs) -> In c cs ->
  mInspectContainer simManager (ident c) st
    = (Returns (Ok (info c)),
       mkSt (advance (world st)) (calls st ++ [InspectContainerC (ident c)])).
Proof.
  intros Hq Hcs Hnd Hin.
  unfold mInspectContainer, invoke, call. cbn [client simManager InspectContainer simClient].
  unfold simInspect. rewrite attempt_quiet by assumption.
  cbn [containers advance]. rewrite Hcs, find_has_id by assumption. reflexivity.
Qed.

(** On a quiet engine ContainersByImage inspects, in listing order, the
    listed containers whose image contains [name]. *)
Lemma ContainersByImage_loop_sim (name : string) (cs : list SimContainer) :
  NoDup (map ident cs) ->
  forall (l : list SimContainer) (acc : list ContainerInfoT) (st : St World),
    incl l cs -> faults (world st) = [] -> containers (world st) = cs ->
    exists st',
      ContainersByImage_loop simManager name (map entry l) acc st
        = (Returns (Ok (acc ++ map info (filter (fun c => matches name (entry c)) l))), st') /\
      faults (world st') = [] /\ containers (world st') = cs /\
      events (world st') = events (world st) /\
      calls st' = calls st
        ++ map (fun c => InspectContainerC (ident c))
               (filter (fun c => matches name (entry c)) l).
Proof.
  intros Hnd. induction l as [|c l IH]; intros acc st Hincl Hq Hcs.
  - exists st. simpl. rewrite !app_nil_r. auto.
  - simpl map. cbn [ContainersByImage_loop]. fold (matches name (entry c)).
    assert (Hl : incl l cs) by (intros x Hx; apply Hincl; now right).
    cbn [filter]. destruct (matches name (entry c)) eqn:Hm.
    + unfold bind at 1. change (Container.Id (entry c)) with (ident c).
      rewrite (mInspect_sim st cs c Hq Hcs Hnd (Hincl c (or_introl eq_refl))).
      destruct (IH (acc ++ [info c])
                  (mkSt (advance (world st)) (calls st ++ [InspectContainerC (ident c)]))
                  Hl Hq Hcs) as (st' & Hrun & Hq' & Hcs' & Hev & Hcalls).
      exists st'. rewrite Hrun. cbn [map]. rewrite <- app_assoc. simpl.
      repeat split; try assumption.
      rewrite Hcalls. cbn [calls]. now rewrite <- app_assoc.
    + apply IH; assumption.
Qed.

Lemma IdenticalContainers_loop_filter (ref : ContainerInfoT) (l acc : list ContainerInfoT) :
  IdenticalContainers_loop ref l acc = acc ++ filter (same_shape ref) l.
Proof.
  revert acc. induction l as [|c l IH]; intros acc; simpl.
  - now rewrite app_nil_r.
  - fold (same_shape ref c). destruct (same_shape ref c).
    + rewrite IH, <- app_assoc. reflexivity.
    + apply IH.
Qed.

Lemma filter_filter {A} (p q : A -> bool) (l : list A) :
  filter p (filter q l) = filter (fun x => q x && p x) l.
Proof.
  induction l as [|a l IH]; simpl; [reflexivity|].
  destruct (q a); simpl; [destruct (p a)|]; now rewrite IH.
Qed.

Lemma filter_map_comm {A B} (f : A -> B) (p : B -> bool) (l : list A) :
  filter p (map f l) = map f (filter (fun x => p (f x)) l).
Proof.
  induction l as [|a l IH]; simpl; [reflexivity|].
  destruct (p (f a)); simpl; now rewrite IH.
Qed.

(** On a quiet engine with distinct identifiers IdenticalContainers returns,
    in listing order, the listed containers that pass its two tests. *)
Lemma IdenticalContainers_sim (ref : ContainerInfoT) (all : bool) (st : St World)
    (cs : list SimContainer) :
  faults (world st) = [] -> containers (world st) = cs -> NoDup (map ident cs) ->
  exists st',
    IdenticalContainers simManager ref all st
      = (Returns (Ok (map info (filter (fun c => (all || running c) && in_class ref c) cs))),
         st') /\
    faults (world st') = [] /\ containers (world st') = cs /\
    events (world st') = events (world st).
Proof.
  intros Hq Hcs Hnd.
  unfold IdenticalContainers, ContainersByImage, Containers, mListContainers.
  unfold bind at 1. unfold bind at 1. unfold invoke, call.
  cbn [client simManager ListContainers simClient]. unfold simList.
  rewrite attempt_quiet by assumption. cbn [containers advance]. rewrite Hcs.
  destruct (ContainersByImage_loop_sim (ContainerInfo.Image ref) cs Hnd
              (filter (fun c => all || running c) cs) []
              (mkSt (advance (world st)) (calls st ++ [ListContainersC all false EmptyString])))
    as (st' & Hrun & Hq' & Hcs' & Hev & Hcalls);
    [apply incl_filter|assumption|assumption|].
  rewrite Hrun. exists st'. unfold ret.
  rewrite IdenticalContainers_loop_filter. simpl app.
  rewrite filter_map_comm, !filter_filter.
  split; [reflexivity|]. auto.
Qed.

Lemma mInspect_sim_inv (st st1 : St World) (id : string) (i : ContainerInfoT) :
  faults (world st) = [] ->
  mInspectContainer simManager id st = (Returns (Ok i), st1) ->
  (exists c, In c (containers (world st)) /\ info c = i) /\
  faults (world st1) = [] /\ containers (world st1) = containers (world st).
Proof.
  intros Hq H.
  unfold mInspectContainer, invoke, call in H.
  cbn [client simManager InspectContainer simClient] in H. unfold simInspect in H.
  rewrite attempt_quiet in H by assumption. cbn [containers advance] in H.
  destruct (find (has_id id) (containers (world st))) as [c|] eqn:Hf; [|discriminate].
  inversion H; subst. cbn [world faults containers advance].
  apply find_some in Hf. split; [exists c; tauto|auto].
Qed.

Lemma has_id_mark (id : string) (f : SimContainer -> SimContainer) (cs : list SimContainer) :
  (forall c, ident (f c) = ident c) ->
  (forall c, has_id id c = false -> f c = c) ->
  existsb (has_id id) (map f cs) = existsb (has_id id) cs /\
  filter (fun c => negb (has_id id c)) (map f cs) = filter (fun c => negb (has_id id c)) cs.
Proof.
  intros Hid Hfix. induction cs as [|c cs [IH1 IH2]]; [split; reflexivity|].
  assert (Hh : has_id id (f c) = has_id id c).
  { unfold has_id. fold (ident (f c)) (ident c). now rewrite Hid. }
  simpl. rewrite Hh, IH1, IH2. split; [reflexivity|].
  destruct (has_id id c) eqn:E; simpl; [reflexivity|]. now rewrite Hfix.
Qed.


Lemma survives_cons (d : ContainerInfoT) (del : list ContainerInfoT) (c : SimContainer) :
  survives (d :: del) c = negb (has_id (ContainerInfo.Id d) c) && survives del c.
Proof. unfold survives, has_id, ident. simpl. now rewrite negb_orb. Qed.



(** The containers kept by a test have distinct identifiers when all have. *)
Lemma ident_distinct_filter (keep : SimContainer -> bool) (cs : list SimContainer) :
  NoDup (map ident cs) -> NoDup (map ident (filter keep cs)).
Proof.
  induction cs as [|c cs IH]; intros Hall; [constructor|].
  inversion Hall as [|? ? Hfresh Hrest]; subst. simpl.
  destruct (keep c); [|now apply IH].
  simpl. constructor; [|now apply IH].
  intros Hin. apply Hfresh. apply in_map_iff in Hin. destruct Hin as (x & Hx & Hin).
  apply filter_In in Hin. apply in_map_iff. exists x. tauto.
Qed.


End SimFacts.

(** ** The claims on Scale and on class membership *)

Section Claims.
Import dockerclient manager trace sim.
Local Open Scope list_scope.


End Claims.

(** ** The batch of Run on the simulated engine *)

Section SimBatch.
Import dockerclient manager trace batch sim sim_batch.
Local Open Scope list_scope.

Variable config : ContainerConfigT.

Lemma step_first_call_fails (i : nat) (g : Goroutine) (rs : @RunState World) :
  nth_error (goroutines rs) i = Some g -> runnable g = true ->
  first_call_fails rs -> first_call_fails (step simManager config i rs).
Proof.
  intros Hg Hr (Hf & Hnp & Hc & Hfail).
  assert (Hgp : g <> GPull).
  { rewrite Forall_forall in Hnp. apply Hnp. eapply nth_error_In; eassumption. }
  pose proof (set_nth_total created (goroutines rs) i g) as Htc.
  pose proof (set_nth_total failed (goroutines rs) i g) as Htf.
  unfold first_call_fails, step. rewrite Hg.
  destruct g; try congruence; try discriminate; cbn [step_goroutine]; unfold call;
    cbn [client simManager CreateContainer StartContainer simClient].
  - (* CreateContainer *)
    unfold simCreate, attempt, faulty. rewrite Hf. cbn [existsb orb].
    destruct (tick (world (rs_st rs))) as [|t] eqn:Ht;
      cbn [Nat.eqb orb rs_st goroutines world faults tick advance serial];
      specialize (Htc (GFail "engine fault") Hg) as Htc1;
      specialize (Htf (GFail "engine fault") Hg) as Htf1;
      specialize (Htc (GStart (fresh_id (serial (world (rs_st rs))))) Hg) as Htc2;
      specialize (Htf (GStart (fresh_id (serial (world (rs_st rs))))) Hg) as Htf2;
      simpl in Htc1, Htf1, Htc2, Htf2;
      (split; [assumption|]);
      (split; [apply set_nth_Forall; [assumption|discriminate]|]);
      (split; [lia|]); intros _; lia.
  - (* StartContainer *)
    unfold simStart, attempt.
    specialize (Htc (GFail "no such container") Hg) as Htc1.
    specialize (Htf (GFail "no such container") Hg) as Htf1.
    specialize (Htc (GFail "engine fault") Hg) as Htc3.
    specialize (Htf (GFail "engine fault") Hg) as Htf3.
    specialize (Htc (GLoad containerId) Hg) as Htc2.
    specialize (Htf (GLoad containerId) Hg) as Htf2.
    simpl in Htc1, Htf1, Htc2, Htf2, Htc3, Htf3.
    assert (Hpos : (1 <= tick (world (rs_st rs)))%nat).
    { assert (1 <= total created (goroutines rs))%nat; [|lia].
      clear -Hg. revert i Hg. unfold total.
      induction (goroutines rs) as [|a l IH]; intros [|i] Hg; simpl in *; try discriminate.
      - inversion Hg; subst. simpl. lia.
      - specialize (IH i Hg). lia. }
    specialize (Hfail Hpos).
    destruct (faulty (world (rs_st rs)));
      [|destruct (existsb (has_id containerId) (containers (advance (world (rs_st rs)))))];
      cbn [rs_st goroutines world faults tick advance with_containers];
      (split; [assumption|]);
      (split; [apply set_nth_Forall; [assumption|discriminate]|]);
      split; try lia.
  - (* runErr = err; return *)
    specialize (Htc GReturned Hg). specialize (Htf GReturned Hg). simpl in Htc, Htf.
    cbn [rs_st goroutines]. split; [assumption|].
    split; [apply set_nth_Forall; [assumption|discriminate]|]. split; [lia|].
    intros H. specialize (Hfail H). lia.
  - (* read of launched *)
    specialize (Htc (GStore (launched rs ++ [containerId])) Hg).
    specialize (Htf (GStore (launched rs ++ [containerId])) Hg). simpl in Htc, Htf.
    cbn [rs_st goroutines]. split; [assumption|].
    split; [apply set_nth_Forall; [assumption|discriminate]|]. split; [lia|].
    intros H. specialize (Hfail H). lia.
  - (* write of launched *)
    specialize (Htc GDone Hg). specialize (Htf GDone Hg). simpl in Htc, Htf.
    cbn [rs_st goroutines]. split; [assumption|].
    split; [apply set_nth_Forall; [assumption|discriminate]|]. split; [lia|].
    intros H. specialize (Hfail H). lia.
  - (* wg.Done() *)
    specialize (Htc GFinished Hg). specialize (Htf GFinished Hg). simpl in Htc, Htf.
    cbn [rs_st goroutines]. split; [assumption|].
    split; [apply set_nth_Forall; [assumption|discriminate]|]. split; [lia|].
    intros H. specialize (Hfail H). lia.
Qed.

(** Whatever the size of the batch and the schedule, Run never returns when
    the first call the engine receives fails. *)
Lemma Run_blocks_sim (n : nat) (sched : list nat) (cs : list SimContainer) :
  fst (Run simManager config (Z.of_nat (S n)) false sched (boot cs [0%nat])) = Blocks.
Proof.
  set (st := boot cs [0%nat]). set (count := Z.of_nat (S n)).
  assert (Hc : 0 <= count) by (unfold count; lia).
  pose proof (Run_final_wg simManager config count false sched st Hc) as Hwg.
  pose proof (Run_final_terminal simManager config count false sched st) as Hq.
  pose proof (total_created_terminal _ Hq) as Hcr.
  assert (Hlen : List.length (goroutines (Run_final simManager config count false sched st))
                 = Z.to_nat count).
  { unfold Run_final.
    apply (schedule_preserves simManager config
             (fun rs => List.length (goroutines rs) = Z.to_nat count)).
    - intros i g rs _ _ H. now rewrite step_length.
    - unfold Run_init. cbn [goroutines]. apply repeat_length. }
  assert (Hinv : first_call_fails (Run_final simManager config count false sched st)).
  { unfold Run_final. apply (schedule_preserves simManager config first_call_fails).
    - intros i g rs Hg Hr H. eapply step_first_call_fails; eassumption.
    - unfold first_call_fails, Run_init. cbn [goroutines rs_st]. simpl world.
      cbn [faults tick]. rewrite total_repeat, total_repeat. simpl.
      repeat split; try lia.
      apply Forall_forall. intros g Hin. apply repeat_spec in Hin. subst. discriminate. }
  destruct Hinv as (_ & _ & Hc1 & Hf1).
  unfold Run. destruct (count <? 0) eqn:E; [apply Z.ltb_lt in E; lia|].
  cbv zeta. destruct (wg _ =? 0) eqn:E0; [|reflexivity].
  apply Z.eqb_eq in E0. unfold count in *. lia.
Qed.

End SimBatch.

(** ** The manager on the recording engine *)

Section RecordedFacts.
Import dockerclient manager trace trace_more recorded.
Local Open Scope list_scope.

Context {W : Type}.
Variable m : Manager W.

Lemma follows_ret {A} (a : A) : follows (W := W) (ret a) (ret a).
Proof.
  intros s. split; [reflexivity|]. split; [reflexivity|].
  exists []. simpl. now rewrite !app_nil_r.
Qed.

Lemma follows_panic {A} : follows (W := W) (A := A) panic panic.
Proof.
  intros s. split; [reflexivity|]. split; [reflexivity|].
  exists []. simpl. now rewrite !app_nil_r.
Qed.

Lemma follows_bind {A B} (c' : M (W * Tape) A) (c : M W A)
    (k' : A -> M (W * Tape) B) (k : A -> M W B) :
  follows c' c -> (forall a, follows (k' a) (k a)) -> follows (bind c' k') (bind c k).
Proof.
  intros Hc Hk s. destruct (Hc s) as (H1 & H2 & t1 & H3 & H4).
  unfold bind. destruct (c' s) as [o s1]. destruct (c (forget s)) as [o0 s01].
  simpl in H1, H2, H3, H4. subst o0 s01.
  destruct o as [a| |].
  - destruct (Hk a s1) as (K1 & K2 & t2 & K3 & K4).
    split; [exact K1|]. split; [exact K2|].
    exists (t1 ++ t2). rewrite K3, K4, H3, H4, map_app, !app_assoc. split; reflexivity.
  - split; [reflexivity|]. split; [reflexivity|]. exists t1. split; assumption.
  - split; [reflexivity|]. split; [reflexivity|]. exists t1. split; assumption.
Qed.

Lemma follows_invoke {R} (c : Call) (say : R -> Answer) (op : W -> result R * W) :
  follows (invoke c (keep c say op)) (invoke c op).
Proof.
  intros s. unfold invoke, call, keep, forget, tape. cbn [world calls].
  destruct (op (fst (world s))) as [r w']. cbn.
  split; [reflexivity|]. split; [reflexivity|].
  eexists. split; reflexivity.
Qed.

Lemma follows_now : follows (timeNowUnix (recordedManager m)) (timeNowUnix m).
Proof.
  intros s. split; [reflexivity|]. split; [reflexivity|].
  exists []. simpl. now rewrite !app_nil_r.
Qed.

Ltac follow :=
  repeat first
    [ apply follows_ret
    | apply follows_panic
    | apply follows_now
    | apply follows_invoke
    | apply follows_bind; [|intros ?]
    | match goal with
      | |- follows (match ?x with _ => _ end) _ => destruct x
      | |- follows (if ?x then _ else _) _ => destruct x
      | |- follows (let (_, _) := ?x in _) _ => destruct x
      end ].

Lemma follows_Destroy (id : string) :
  follows (Destroy (recordedManager m) id) (Destroy m id).
Proof. unfold Destroy, mKillContainer, mRemoveContainer. follow. Qed.

Lemma follows_SaveEvent (evt : Event.t) :
  follows (SaveEvent (recordedManager m) evt) (SaveEvent m evt).
Proof. unfold SaveEvent, mInsertEvent. follow. Qed.

Lemma follows_RedeployContainers_loop (image : string) (cs : list ContainerT) :
  forall d,
    follows (RedeployContainers_loop (recordedManager m) image cs d)
            (RedeployContainers_loop m image cs d).
Proof.
  induction cs as [|c rest IH]; intros d; cbn [RedeployContainers_loop].
  - follow.
  - unfold mInspectContainer, mPullImage, mCreateContainer, mStartContainer.
    destruct (strings.Index (Container.Image c) image >? -1); [|apply IH].
    apply follows_bind; [apply follows_invoke|intros [info|e]]; [|follow].
    apply follows_bind; [apply follows_invoke|intros [[]|e]]; [|follow].
    apply follows_bind; [apply follows_Destroy|intros _].
    apply follows_bind; [apply follows_invoke|intros [id|e]]; [|follow].
    apply follows_bind; [apply follows_invoke|intros [[]|e]]; [|follow].
    destruct (String.length id <? 8)%nat; [follow|apply IH].
Qed.

Lemma follows_RedeployContainers (image : string) :
  follows (RedeployContainers (recordedManager m) image) (RedeployContainers m image).
Proof.
  unfold RedeployContainers, Containers, mListContainers.
  apply follows_bind; [apply follows_invoke|intros [cs|e]]; [|follow].
  apply follows_bind; [apply follows_RedeployContainers_loop|intros [e|[|]]]; [follow| |follow].
  apply follows_bind; [apply follows_now|intros now].
  apply follows_bind; [apply follows_SaveEvent|intros [e|]]; follow.
Qed.




(** One call on the recording engine. *)
Lemma invoke_keep {R} (c : Call) (say : R -> Answer) (op : W -> result R * W)
    (s : St (W * Tape)) :
  invoke c (keep c say op) s
    = let (r, w') := op (fst (world s)) in
      (Returns r,
       mkSt (w', tape s ++ [(c, match r with Ok a => say a | Err e => Refused e end)])
            (calls s ++ [c])).
Proof.
  unfold invoke, call, keep, tape. destruct (op (fst (world s))) as [r w']. reflexivity.
Qed.

Lemma Destroy_tape (id : string) (s : St (W * Tape)) :
  exists out s' dt,
    Destroy (recordedManager m) id s = (Returns out, s') /\
    tape s' = tape s ++ dt /\ destroyed id dt.
Proof.
  unfold Destroy, mKillContainer, mRemoveContainer. unfold bind at 1.
  cbn [client recordedManager recordedClient KillContainer RemoveContainer].
  rewrite invoke_keep.
  destruct (KillContainer (client m) id "kill" (fst (world s))) as [[[]|e] w1].
  - unfold bind. rewrite invoke_keep. cbn [world fst].
    destruct (RemoveContainer (client m) id true w1) as [[[]|e] w2].
    + do 2 eexists.
      exists [(KillContainerC id "kill", Done); (RemoveContainerC id true, Done)].
      split; [reflexivity|]. unfold tape. cbn [world snd].
      rewrite <- app_assoc. split; [reflexivity|constructor].
    + do 2 eexists.
      exists [(KillContainerC id "kill", Done); (RemoveContainerC id true, Refused e)].
      split; [reflexivity|]. unfold tape. cbn [world snd].
      rewrite <- app_assoc. split; [reflexivity|constructor].
  - do 3 eexists. split; [reflexivity|]. unfold tape. cbn [world snd].
    split; [reflexivity|]. constructor.
Qed.

(** The loop of RedeployContainers writes one of the tapes of [pass]. *)
Lemma RedeployContainers_loop_pass (image : string) (cs : list ContainerT) :
  forall (d : bool) (s : St (W * Tape)),
    exists x s' t,
      RedeployContainers_loop (recordedManager m) image cs d s = (x, s') /\
      tape s' = tape s ++ t /\
      pass image cs d t x.
Proof.
  induction cs as [|c rest IH]; intros d s.
  - exists (Returns (LoopEnd d)), s, []. split; [reflexivity|].
    split; [now rewrite app_nil_r|constructor].
  - cbn [RedeployContainers_loop]. fold (matches image c).
    destruct (matches image c) eqn:Hm.
    2:{ destruct (IH d s) as (x & s' & t & H1 & H2 & H3).
        exists x, s', t. split; [exact H1|]. split; [exact H2|]. now constructor. }
    unfold mInspectContainer, mPullImage, mCreateContainer, mStartContainer.
    cbn [client recordedManager recordedClient InspectContainer PullImage
         CreateContainer StartContainer].
    unfold bind at 1. rewrite invoke_keep.
    destruct (InspectContainer (client m) (Container.Id c) (fst (world s))) as [[info|e] w1].
    2:{ do 3 eexists. split; [reflexivity|]. unfold tape. cbn [world snd].
        split; [reflexivity|]. now constructor. }
    unfold bind at 1. rewrite invoke_keep. cbn [world fst].
    destruct (PullImage (client m) image w1) as [[[]|e] w2].
    2:{ do 3 eexists. split; [reflexivity|]. unfold tape. cbn [world snd].
        rewrite <- app_assoc. split; [reflexivity|]. now constructor. }
    unfold bind at 1.
    match goal with
    | |- context [Destroy (recordedManager m) ?i ?s0] =>
        destruct (Destroy_tape i s0) as (out & s3 & dt & HD & Ht3 & Hdt)
    end.
    rewrite HD. unfold tape in Ht3. cbn [world snd calls] in Ht3.
    unfold bind at 1. rewrite invoke_keep.
    destruct (CreateContainer (client m) (ContainerInfo.Config info) EmptyString
                (fst (world s3))) as [[id|e] w4].
    2:{ do 3 eexists. split; [reflexivity|]. unfold tape. cbn [world snd].
        rewrite Ht3, <- !app_assoc. split; [reflexivity|]. now constructor. }
    unfold bind at 1. rewrite invoke_keep. cbn [world fst].
    destruct (StartContainer (client m) id (ContainerInfo.HostConfig info) w4)
      as [[[]|e] w5].
    2:{ do 3 eexists. split; [reflexivity|]. unfold tape. cbn [world snd].
        rewrite Ht3, <- !app_assoc. split; [reflexivity|]. now constructor. }
    destruct (String.length id <? 8)%nat eqn:Hlen.
    + apply Nat.ltb_lt in Hlen.
      do 3 eexists. split; [reflexivity|]. unfold tape. cbn [world snd].
      rewrite Ht3, <- !app_assoc. split; [reflexivity|]. now constructor.
    + apply Nat.ltb_ge in Hlen.
      match goal with
      | |- context [RedeployContainers_loop _ image rest true ?s0] =>
          destruct (IH true s0) as (x & s' & t & H1 & H2 & H3)
      end.
      exists x, s'. eexists. split; [exact H1|].
      rewrite H2. unfold tape. cbn [world snd]. rewrite Ht3, <- !app_assoc.
      split; [reflexivity|]. cbn [app]. now apply pass_next.
Qed.

End RecordedFacts.

(** ** The tapes of a redeployment *)

Section PassFacts.
Import dockerclient manager trace trace_more recorded.
Local Open Scope list_scope.

Lemma destroyed_entries (id : string) (dt : Tape) :
  destroyed id dt ->
  forall x, In x dt ->
    (exists sg, fst x = KillContainerC id sg) \/ (exists f, fst x = RemoveContainerC id f).
Proof.
  intros H x Hx. destruct H; simpl in Hx;
    repeat (destruct Hx as [<-|Hx]; [simpl; eauto|]); contradiction.
Qed.

(** Decomposing membership in the tape of one iteration. *)
Ltac entries H :=
  repeat match type of H with
         | In _ (_ ++ _) => apply in_app_or in H; destruct H as [H|H]
         | In _ (_ :: _) => destruct H as [H|H]
         | In _ [] => destruct H
         end.

Ltac in_destroy Hdt H :=
  let sg := fresh in
  destruct (destroyed_entries _ _ Hdt _ H) as [[sg E]|[sg E]]; simpl in E; subst;
  try discriminate.

Lemma destroyed_quiet (id : string) (dt : Tape) : destroyed id dt -> Forall quiet dt.
Proof. intros []; repeat constructor. Qed.

Lemma destroyed_inspections (id : string) (dt : Tape) :
  destroyed id dt -> inspections dt = [] /\ existsb started dt = false.
Proof. intros []; split; reflexivity. Qed.

Lemma pass_quiet (image : string) cs d t x : pass image cs d t x -> Forall quiet t.
Proof.
  induction 1; repeat (apply Forall_app; split); repeat apply Forall_cons;
    try apply Forall_nil; try (split; reflexivity); try assumption;
    try (eapply destroyed_quiet; eassumption).
Qed.

Lemma pass_never_blocks (image : string) cs d t x : pass image cs d t x -> x <> Blocks.
Proof. induction 1; try discriminate; assumption. Qed.







Lemma existsb_started_app (t1 t2 : Tape) :
  existsb started (t1 ++ t2) = existsb started t1 || existsb started t2.
Proof. apply existsb_app. Qed.

Lemma pass_end_flag (image : string) cs d t x :
  pass image cs d t x ->
  forall d', x = Returns (LoopEnd d') -> d' = d || existsb started t.
Proof.
  induction 1 as [d|c rest d t x Hm Hp IH|c rest d e Hm|c rest d info e Hm
                  |c rest d info dt e Hm Hdt|c rest d info dt id e Hm Hdt
                  |c rest d info dt id Hm Hdt Hlen
                  |c rest d info dt id t x Hm Hdt Hlen Hp IH];
    intros d' Hx; try discriminate.
  - inversion Hx. simpl. now rewrite orb_false_r.
  - exact (IH d' Hx).
  - rewrite (IH d' Hx). rewrite !existsb_started_app.
    destruct (destroyed_inspections _ _ Hdt) as [_ ->]. simpl.
    now rewrite orb_true_r.
Qed.

Lemma pass_return_refused (image : string) cs d t x :
  pass image cs d t x ->
  forall e, x = Returns (LoopReturn e) ->
    exists c, aborts c = true /\ is_event c = false /\ In (c, Refused e) t.
Proof.
  induction 1 as [d|c rest d t x Hm Hp IH|c rest d e Hm|c rest d info e Hm
                  |c rest d info dt e Hm Hdt|c rest d info dt id e Hm Hdt
                  |c rest d info dt id Hm Hdt Hlen
                  |c rest d info dt id t x Hm Hdt Hlen Hp IH];
    intros e0 Hx; try discriminate; try (inversion Hx; subst e0).
  - exact (IH e0 Hx).
  - eexists. split; [|split; [|left; reflexivity]]; reflexivity.
  - eexists. split; [|split; [|right; left; reflexivity]]; reflexivity.
  - eexists. split; [|split; [|apply in_or_app; right; apply in_or_app; right;
                                left; reflexivity]]; reflexivity.
  - eexists. split; [|split; [|apply in_or_app; right; apply in_or_app; right;
                                right; left; reflexivity]]; reflexivity.
  - destruct (IH e0 Hx) as (c0 & H1 & H2 & H3).
    exists c0. split; [exact H1|]. split; [exact H2|].
    apply in_or_app. right. apply in_or_app. right. right. right. exact H3.
Qed.

Lemma pass_refused_last (image : string) cs d t x :
  pass image cs d t x ->
  forall c0 e0, In (c0, Refused e0) t -> aborts c0 = true ->
    x = Returns (LoopReturn e0) /\ exists t0, t = t0 ++ [(c0, Refused e0)].
Proof.
  induction 1 as [d|c rest d t x Hm Hp IH|c rest d e Hm|c rest d info e Hm
                  |c rest d info dt e Hm Hdt|c rest d info dt id e Hm Hdt
                  |c rest d info dt id Hm Hdt Hlen
                  |c rest d info dt id t x Hm Hdt Hlen Hp IH];
    intros c0 e0 Hin Hab.
  - destruct Hin.
  - exact (IH c0 e0 Hin Hab).
  - entries Hin. inversion Hin; subst. split; [reflexivity|]. now exists [].
  - entries Hin; inversion Hin; subst. split; [reflexivity|].
    now exists [(InspectContainerC (Container.Id c), Described info)].
  - entries Hin; try (inversion Hin; subst; fail).
    + in_destroy Hdt Hin.
    + inversion Hin; subst. split; [reflexivity|].
      eexists. rewrite app_assoc. reflexivity.
  - entries Hin; try (inversion Hin; subst; fail).
    + in_destroy Hdt Hin.
    + inversion Hin; subst. split; [reflexivity|].
      exists ([(InspectContainerC (Container.Id c), Described info); (PullImageC image, Done)]
                ++ dt ++ [(CreateContainerC (ContainerInfo.Config info) EmptyString,
                           Created id)]).
      rewrite <- !app_assoc. reflexivity.
  - entries Hin; try (inversion Hin; subst; fail).
    in_destroy Hdt Hin.
  - entries Hin; try (inversion Hin; subst; fail).
    + in_destroy Hdt Hin.
    + destruct (IH c0 e0 Hin Hab) as [Hx [t0 Ht0]]. split; [exact Hx|].
      exists ([(InspectContainerC (Container.Id c), Described info); (PullImageC image, Done)]
                ++ dt ++ [(CreateContainerC (ContainerInfo.Config info) EmptyString,
                           Created id);
                          (StartContainerC id (ContainerInfo.HostConfig info), Done)] ++ t0).
      rewrite Ht0, <- !app_assoc. reflexivity.
Qed.

Lemma pass_short_start (image : string) cs d t x :
  pass image cs d t x ->
  forall id0 hc, In (StartContainerC id0 hc, Done) t -> (String.length id0 < 8)%nat ->
    x = Panics.
Proof.
  induction 1 as [d|c rest d t x Hm Hp IH|c rest d e Hm|c rest d info e Hm
                  |c rest d info dt e Hm Hdt|c rest d info dt id e Hm Hdt
                  |c rest d info dt id Hm Hdt Hlen
                  |c rest d info dt id t x Hm Hdt Hlen Hp IH];
    intros id0 hc Hin Hs.
  - destruct Hin.
  - exact (IH id0 hc Hin Hs).
  - entries Hin; inversion Hin.
  - entries Hin; inversion Hin.
  - entries Hin; try (inversion Hin; fail). in_destroy Hdt Hin.
  - entries Hin; try (inversion Hin; fail). in_destroy Hdt Hin.
  - reflexivity.
  - entries Hin; try (inversion Hin; fail).
    + in_destroy Hdt Hin.
    + inversion Hin; subst. lia.
    + exact (IH id0 hc Hin Hs).
Qed.

Lemma pass_panics (image : string) cs d t x :
  pass image cs d t x ->
  x = Panics ->
  exists t0 cfg id hc,
    t = t0 ++ [(CreateContainerC cfg EmptyString, Created id); (StartContainerC id hc, Done)] /\
    (String.length id < 8)%nat.
Proof.
  induction 1 as [d|c rest d t x Hm Hp IH|c rest d e Hm|c rest d info e Hm
                  |c rest d info dt e Hm Hdt|c rest d info dt id e Hm Hdt
                  |c rest d info dt id Hm Hdt Hlen
                  |c rest d info dt id t x Hm Hdt Hlen Hp IH];
    intros Hx; try discriminate.
  - exact (IH Hx).
  - exists ([(InspectContainerC (Container.Id c), Described info); (PullImageC image, Done)]
              ++ dt), (ContainerInfo.Config info), id, (ContainerInfo.HostConfig info).
    split; [now rewrite <- !app_assoc|exact Hlen].
  - destruct (IH Hx) as (t0 & cfg & id1 & hc & Ht & Hl).
    exists ([(InspectContainerC (Container.Id c), Described info); (PullImageC image, Done)]
              ++ dt ++ [(CreateContainerC (ContainerInfo.Config info) EmptyString,
                         Created id);
                        (StartContainerC id (ContainerInfo.HostConfig info), Done)] ++ t0),
           cfg, id1, hc.
    split; [rewrite Ht, <- !app_assoc; reflexivity|exact Hl].
Qed.

End PassFacts.

(** ** What a redeployment does, read from the tape *)

Section RedeployTape.
Import dockerclient manager trace trace_more recorded.
Local Open Scope list_scope.

Context {W : Type}.
Variable m : Manager W.

(** The whole of RedeployContainers on the recording engine: the listing,
    a pass of the loop, and the event after a pass that ran to its end with
    [deployed] set. *)
Lemma RedeployContainers_tape (image : string) (s : St (W * Tape)) :
  let lst := ListContainersC false false EmptyString in
  exists out s' t,
    RedeployContainers (recordedManager m) image s = (out, s') /\
    tape s' = tape s ++ t /\
    ((exists e, t = [(lst, Refused e)] /\ out = Returns (Some e)) \/
     (exists cs tl x,
        pass image cs false tl x /\
        ((x = Panics /\ out = Panics /\ t = (lst, Listed cs) :: tl) \/
         (exists e, x = Returns (LoopReturn e) /\ out = Returns (Some e) /\
                    t = (lst, Listed cs) :: tl) \/
         (x = Returns (LoopEnd false) /\ out = Returns None /\ t = (lst, Listed cs) :: tl) \/
         (x = Returns (LoopEnd true) /\
          exists now a,
            t = (lst, Listed cs) :: tl ++ [(InsertEventC (deployEvent image now), a)] /\
            ((a = Done /\ out = Returns None) \/
             (exists e, a = Refused e /\ out = Returns (Some e))))))).
Proof.
  intros lst. unfold RedeployContainers, Containers, mListContainers.
  cbn [client recordedManager recordedClient ListContainers].
  unfold bind at 1. rewrite invoke_keep. fold lst.
  destruct (ListContainers (client m) false false EmptyString (fst (world s)))
    as [[cs|e] w1].
  2:{ do 3 eexists. split; [reflexivity|]. unfold tape. cbn [world snd].
      split; [reflexivity|]. left. exists e. split; reflexivity. }
  unfold bind at 1.
  match goal with
  | |- context [RedeployContainers_loop _ image cs false ?s0] =>
      destruct (RedeployContainers_loop_pass m image cs false s0)
        as (x & s2 & tl & Hrun & Ht & Hp)
  end.
  rewrite Hrun. unfold tape at 2 in Ht. cbn [world snd] in Ht.
  pose proof (pass_never_blocks _ _ _ _ _ Hp) as Hnb.
  destruct x as [[e|[|]]| |].
  - exists (Returns (Some e)), s2. eexists. split; [reflexivity|].
    rewrite Ht, <- app_assoc. split; [reflexivity|]. right. exists cs, tl. eexists.
    split; [exact Hp|]. right. left. exists e. repeat split.
  - unfold bind at 1, timeNowUnix. unfold bind at 1, SaveEvent, mInsertEvent.
    unfold bind at 1. cbn [session recordedManager unixNow]. rewrite invoke_keep.
    destruct (session m (deployEvent image (unixNow m (fst (world s2)))) (fst (world s2)))
      as [[[]|e] w3].
    + do 3 eexists. split; [reflexivity|]. unfold tape at 1. cbn [world snd].
      fold (tape s2). rewrite Ht, <- !app_assoc. split; [reflexivity|].
      right. exists cs, tl. eexists. split; [exact Hp|]. right. right. right.
      split; [reflexivity|]. do 2 eexists. split; [reflexivity|]. left. split; reflexivity.
    + do 3 eexists. split; [reflexivity|]. unfold tape at 1. cbn [world snd].
      fold (tape s2). rewrite Ht, <- !app_assoc. split; [reflexivity|].
      right. exists cs, tl. eexists. split; [exact Hp|]. right. right. right.
      split; [reflexivity|]. do 2 eexists. split; [reflexivity|]. right. exists e.
      split; reflexivity.
  - exists (Returns None), s2. eexists. split; [reflexivity|].
    rewrite Ht, <- app_assoc. split; [reflexivity|]. right. exists cs, tl. eexists.
    split; [exact Hp|]. right. right. left. repeat split.
  - exists Panics, s2. eexists. split; [reflexivity|].
    rewrite Ht, <- app_assoc. split; [reflexivity|]. right. exists cs, tl. eexists.
    split; [exact Hp|]. left. repeat split.
  - now elim Hnb.
Qed.


(** The same, with what the call does on the engine itself. *)
Lemma RedeployContainers_recorded (image : string) (s : St (W * Tape)) :
  let lst := ListContainersC false false EmptyString in
  exists out s' t,
    RedeployContainers (recordedManager m) image s = (out, s') /\
    RedeployContainers m image (forget s) = (out, forget s') /\
    tape s' = tape s ++ t /\
    calls s' = calls s ++ map fst t /\
    ((exists e, t = [(lst, Refused e)] /\ out = Returns (Some e)) \/
     (exists cs tl x,
        pass image cs false tl x /\
        ((x = Panics /\ out = Panics /\ t = (lst, Listed cs) :: tl) \/
         (exists e, x = Returns (LoopReturn e) /\ out = Returns (Some e) /\
                    t = (lst, Listed cs) :: tl) \/
         (x = Returns (LoopEnd false) /\ out = Returns None /\ t = (lst, Listed cs) :: tl) \/
         (x = Returns (LoopEnd true) /\
          exists now a,
            t = (lst, Listed cs) :: tl ++ [(InsertEventC (deployEvent image now), a)] /\
            ((a = Done /\ out = Returns None) \/
             (exists e, a = Refused e /\ out = Returns (Some e))))))).
Proof.
  intros lst.
  destruct (RedeployContainers_tape image s) as (out & s' & t & Hrun & Ht & Hshape).
  destruct (follows_RedeployContainers m image s) as (F1 & F2 & t' & F3 & F4).
  rewrite Hrun in F1, F2, F3, F4. cbn [fst snd] in F1, F2, F3, F4.
  rewrite Ht in F3. apply app_inv_head in F3. subst t'.
  exists out, s', t. split; [exact Hrun|]. split.
  - destruct (RedeployContainers m image (forget s)) as [o0 s0].
    cbn [fst snd] in F1, F2. now subst.
  - split; [exact Ht|]. split; [exact F4|exact Hshape].
Qed.

Lemma started_entry (t : Tape) :
  existsb started t = true <-> exists id hc, In (StartContainerC id hc, Done) t.
Proof.
  rewrite existsb_exists. split.
  - intros ([c a] & Hin & Hs). destruct c; try discriminate. destruct a; try discriminate.
    eauto.
  - intros (id & hc & Hin). eexists. split; [exact Hin|reflexivity].
Qed.

Lemma quiet_no_event (t : Tape) :
  Forall quiet t -> Forall (fun x => is_event (fst x) = false) t.
Proof. apply Forall_impl. intros x [H _]. exact H. Qed.


Lemma quiet_not_event (t : Tape) (c : Call) (a : Answer) :
  Forall quiet t -> In (c, a) t -> is_event c = true -> False.
Proof.
  intros Hq Hin He. rewrite Forall_forall in Hq. destruct (Hq _ Hin) as [H _].
  simpl in H. congruence.
Qed.


(** C8, as the code has it, on every engine, read from the calls and the
    answers they got.  At most one event is handed to the event table; it is
    the last call, the deploy event naming the image, and its error is the
    result.  A refused listing, inspection, pull, creation or start is the
    last call: the call returns its error at once, with no event even if
    replicas were redeployed before.  A refused kill or removal ends nothing.
    So the event is handed over exactly when no such call was refused, the
    call did not panic, and the start of at least one replacement was
    accepted. *)
Theorem RedeployContainers_event_after_full_pass (image : string) (s : St (W * Tape)) :
  exists out s' t,
    RedeployContainers (recordedManager m) image s = (out, s') /\
    RedeployContainers m image (forget s) = (out, forget s') /\
    tape s' = tape s ++ t /\
    calls s' = calls s ++ map fst t /\
    (forall c a, In (c, a) t -> is_event c = true ->
       exists t0 now,
         t = t0 ++ [(c, a)] /\
         c = InsertEventC (Event.mk "deploy" EmptyString now
                                    (image ++ " deployed")%string ["deploy"%string]) /\
         Forall (fun x => is_event (fst x) = false) t0 /\
         out = Returns (match a with Refused e => Some e | _ => None end)) /\
    (forall c e, In (c, Refused e) t -> aborts c = true ->
       out = Returns (Some e) /\
       (exists t0, t = t0 ++ [(c, Refused e)]) /\
       (is_event c = false -> Forall (fun x => is_event (fst x) = false) t)) /\
    ((exists c a, In (c, a) t /\ is_event c = true) <->
     (out <> Panics /\
      (forall c e, In (c, Refused e) t -> aborts c = true -> is_event c = true) /\
      exists id hc, In (StartContainerC id hc, Done) t)).
Proof.
  destruct (RedeployContainers_recorded image s)
    as (out & s' & t & Hrun & Hm & Ht & Hc & Hshape).
  exists out, s', t. split; [exact Hrun|]. split; [exact Hm|].
  split; [exact Ht|]. split; [exact Hc|].
  set (lst := ListContainersC false false EmptyString) in *.
  destruct Hshape as [(e & -> & ->)|(cs & tl & x & Hp & Hcase)].
  { (* the listing is refused *)
    split; [|split].
    - intros c a [H|[]] He. inversion H; subst. discriminate.
    - intros c e0 [H|[]] Hab. inversion H; subst.
      split; [reflexivity|]. split; [now exists []|]. intros _. repeat constructor.
    - split.
      + intros (c & a & [H|[]] & He). inversion H; subst. discriminate.
      + intros (_ & Hall & _). specialize (Hall lst e (or_introl eq_refl) eq_refl).
        discriminate. }
  pose proof (pass_quiet _ _ _ _ _ Hp) as Hq.
  pose proof (quiet_no_event _ Hq) as Hne.
  assert (Hnoev : Forall (fun x => is_event (fst x) = false) ((lst, Listed cs) :: tl))
    by (constructor; [reflexivity|exact Hne]).
  assert (Hnone : forall c a, In (c, a) ((lst, Listed cs) :: tl) -> is_event c = true -> False).
  { intros c a Hin He. rewrite Forall_forall in Hnoev. specialize (Hnoev _ Hin).
    simpl in Hnoev. congruence. }
  destruct Hcase as [(-> & -> & ->)|[(e & -> & -> & ->)|[(-> & -> & ->)|(-> & now & a & -> & Ha)]]].
  - (* the call panics *)
    split; [|split].
    + intros c a Hin He. elim (Hnone c a Hin He).
    + intros c e [H|Hin] Hab; [inversion H|].
      destruct (pass_refused_last _ _ _ _ _ Hp c e Hin Hab) as [Hx _]. discriminate.
    + split.
      * intros (c & a & Hin & He). elim (Hnone c a Hin He).
      * intros (Hnp & _). now elim Hnp.
  - (* a call of the loop is refused *)
    split; [|split].
    + intros c a Hin He. elim (Hnone c a Hin He).
    + intros c e0 [H|Hin] Hab; [inversion H|].
      destruct (pass_refused_last _ _ _ _ _ Hp c e0 Hin Hab) as [Hx [t0 Ht0]].
      inversion Hx; subst e0. split; [reflexivity|].
      split; [exists ((lst, Listed cs) :: t0); rewrite Ht0; reflexivity|].
      intros _. exact Hnoev.
    + split.
      * intros (c & a & Hin & He). elim (Hnone c a Hin He).
      * intros (_ & Hall & _).
        destruct (pass_return_refused _ _ _ _ _ Hp e eq_refl) as (c & Hab & He & Hin).
        specialize (Hall c e (or_intror Hin) Hab). congruence.
  - (* the loop ends with nothing redeployed *)
    split; [|split].
    + intros c a Hin He. elim (Hnone c a Hin He).
    + intros c e [H|Hin] Hab; [inversion H|].
      destruct (pass_refused_last _ _ _ _ _ Hp c e Hin Hab) as [Hx _]. discriminate.
    + split.
      * intros (c & a & Hin & He). elim (Hnone c a Hin He).
      * intros (_ & _ & id & hc & [H|Hin]); [inversion H|].
        pose proof (pass_end_flag _ _ _ _ _ Hp false eq_refl) as Hd.
        assert (Hs : existsb started tl = true) by (apply started_entry; eauto).
        rewrite Hs in Hd. discriminate.
  - (* the loop ends with a replica redeployed *)
    assert (Hlast : forall c a0,
              In (c, a0) ((lst, Listed cs) :: tl ++ [(InsertEventC (deployEvent image now), a)]) ->
              In (c, a0) ((lst, Listed cs) :: tl) \/
              (c, a0) = (InsertEventC (deployEvent image now), a)).
    { intros c a0 [H|Hin]; [left; left; exact H|].
      apply in_app_or in Hin. destruct Hin as [Hin|[H|[]]];
        [left; right; exact Hin|right; now symmetry]. }
    assert (Hout : out = Returns (match a with Refused e => Some e | _ => None end)).
    { destruct Ha as [[-> ->]|(e & -> & ->)]; reflexivity. }
    split; [|split].
    + intros c a0 Hin He. destruct (Hlast c a0 Hin) as [H|H]; [elim (Hnone c a0 H He)|].
      inversion H as [[Hc' Ha']]. exists ((lst, Listed cs) :: tl), now.
      split; [reflexivity|]. split; [reflexivity|]. split; [exact Hnoev|exact Hout].
    + intros c e Hin Hab. destruct (Hlast c (Refused e) Hin) as [[H|H]|H].
      * inversion H.
      * destruct (pass_refused_last _ _ _ _ _ Hp c e H Hab) as [Hx _]. discriminate.
      * inversion H as [[Hc' Ha']]. rewrite <- Ha' in Hout. split; [exact Hout|].
        split; [now exists ((lst, Listed cs) :: tl)|]. discriminate.
    + split.
      * intros _. split; [rewrite Hout; discriminate|]. split.
        -- intros c e Hin Hab. destruct (Hlast c (Refused e) Hin) as [[H|H]|H].
           ++ inversion H.
           ++ destruct (pass_refused_last _ _ _ _ _ Hp c e H Hab) as [Hx _]. discriminate.
           ++ inversion H. reflexivity.
        -- pose proof (pass_end_flag _ _ _ _ _ Hp true eq_refl) as Hd. simpl in Hd.
           symmetry in Hd. apply started_entry in Hd. destruct Hd as (id & hc & Hin).
           exists id, hc. right. apply in_or_app. now left.
      * intros _. exists (InsertEventC (deployEvent image now)), a.
        split; [right; apply in_or_app; right; left; reflexivity|reflexivity].
Qed.

(** RedeployContainers panics in its log line (containerId[:8]) exactly when
    the engine has accepted the start of a replacement whose identifier is
    shorter than eight bytes, whichever listed replica it replaces.  The
    creation that answered with that identifier and the start are then the
    last two calls: no further replica is handled and no event is saved. *)
Theorem RedeployContainers_short_id_panics (image : string) (s : St (W * Tape)) :
  exists out s' t,
    RedeployContainers (recordedManager m) image s = (out, s') /\
    RedeployContainers m image (forget s) = (out, forget s') /\
    tape s' = tape s ++ t /\
    (out = Panics <->
     exists id hc, In (StartContainerC id hc, Done) t /\ (String.length id < 8)%nat) /\
    (out = Panics ->
     exists t0 cfg id hc,
       t = t0 ++ [(CreateContainerC cfg EmptyString, Created id);
                  (StartContainerC id hc, Done)] /\
       (String.length id < 8)%nat /\
       Forall (fun x => is_event (fst x) = false) t).
Proof.
  destruct (RedeployContainers_recorded image s)
    as (out & s' & t & Hrun & Hm & Ht & Hc & Hshape).
  exists out, s', t. split; [exact Hrun|]. split; [exact Hm|]. split; [exact Ht|].
  set (lst := ListContainersC false false EmptyString) in *.
  destruct Hshape as [(e & -> & ->)|(cs & tl & x & Hp & Hcase)].
  { split; [split|]; try discriminate.
    intros (id & hc & [H|[]] & _). inversion H. }
  pose proof (pass_quiet _ _ _ _ _ Hp) as Hq.
  pose proof (quiet_no_event _ Hq) as Hne.
  assert (Hshort : forall tail id hc,
            (forall y, In y tail -> started y = false) ->
            In (StartContainerC id hc, Done) ((lst, Listed cs) :: tl ++ tail) ->
            (String.length id < 8)%nat -> x = Panics).
  { intros tail id hc Htail [H|Hin] Hs; [inversion H|].
    apply in_app_or in Hin. destruct Hin as [Hin|Hin].
    - exact (pass_short_start _ _ _ _ _ Hp id hc Hin Hs).
    - specialize (Htail _ Hin). discriminate. }
  destruct Hcase as [(-> & -> & ->)|[(e & -> & -> & ->)|[(-> & -> & ->)|(-> & now & a & -> & Ha)]]].
  - destruct (pass_panics _ _ _ _ _ Hp eq_refl) as (t0 & cfg & id & hc & Htl & Hlen).
    split; [split; [intros _|reflexivity]|intros _].
    + exists id, hc. split; [|exact Hlen]. right. rewrite Htl.
      apply in_or_app. right. right. left. reflexivity.
    + exists ((lst, Listed cs) :: t0), cfg, id, hc.
      split; [rewrite Htl; reflexivity|]. split; [exact Hlen|].
      constructor; [reflexivity|exact Hne].
  - split; [split|]; try discriminate.
    intros (id & hc & Hin & Hs). rewrite <- (app_nil_r tl) in Hin.
    pose proof (Hshort [] id hc (fun y H => match H with end) Hin Hs). discriminate.
  - split; [split|]; try discriminate.
    intros (id & hc & Hin & Hs). rewrite <- (app_nil_r tl) in Hin.
    pose proof (Hshort [] id hc (fun y H => match H with end) Hin Hs). discriminate.
  - assert (Hout : out <> Panics).
    { destruct Ha as [[_ ->]|(e & _ & ->)]; discriminate. }
    split; [split|]; try (intros H; now elim Hout).
    intros (id & hc & Hin & Hs).
    assert (Hx : Returns (LoopEnd true) = Panics).
    { eapply (Hshort [(InsertEventC (deployEvent image now), a)] id hc); [|exact Hin|exact Hs].
      intros y [<-|[]]. reflexivity. }
    discriminate.
Qed.







End RedeployTape.

(** ** The recorded claims on a concrete fleet *)

Section RecordedInstances.
Import dockerclient manager trace recorded sim sim_short fleet.
Local Open Scope list_scope.


(** C8: the kill of the first replica is refused; the call goes on, both
    replicas are replaced, and the deploy event is handed over. *)
Lemma RedeployContainers_event_after_full_pass_witness :
  let s := observe (boot [web1; web2] [3%nat]) [] in
  exists s' t,
    RedeployContainers (recordedManager simManager) "myapp" s = (Returns None, s') /\
    tape s' = tape s ++ t /\
    In (KillContainerC "aaaaaaaa1" "kill", Refused "engine fault") t /\
    exists c a, In (c, a) t /\ is_event c = true.
Proof.
  intros s.
  destruct (RedeployContainers_event_after_full_pass simManager "myapp" s)
    as (out & s' & t & Hrun & _ & Ht & _ & _ & _ & Hev).
  assert (Hout : out = Returns None).
  { transitivity (fst (RedeployContainers (recordedManager simManager) "myapp" s));
      [rewrite Hrun; reflexivity|vm_compute; reflexivity]. }
  assert (Hs : s' = snd (RedeployContainers (recordedManager simManager) "myapp" s))
    by (rewrite Hrun; reflexivity).
  assert (Et : t = tape (snd (RedeployContainers (recordedManager simManager) "myapp" s))).
  { rewrite <- Hs, Ht. reflexivity. }
  assert (Hkill : In (KillContainerC "aaaaaaaa1" "kill", Refused "engine fault") t).
  { rewrite Et. vm_compute. tauto. }
  assert (Hquiet : forall c e, In (c, Refused e) t -> aborts c = true -> is_event c = true).
  { intros c e Hin Hab.
    assert (Hall : forallb (fun x => match snd x with
                                     | Refused _ => negb (aborts (fst x))
                                     | _ => true
                                     end) t = true)
      by (rewrite Et; vm_compute; reflexivity).
    rewrite forallb_forall in Hall. specialize (Hall _ Hin). simpl in Hall.
    rewrite Hab in Hall. discriminate. }
  assert (Hstart : exists id hc, In (StartContainerC id hc, Done) t).
  { apply started_entry. rewrite Et. vm_compute. reflexivity. }
  exists s', t. split; [rewrite <- Hout; exact Hrun|]. split; [exact Ht|].
  split; [exact Hkill|].
  apply Hev. split; [rewrite Hout; discriminate|]. split; [exact Hquiet|exact Hstart].
Defined.

(** An engine whose identifiers have two bytes, with a database listed
    before the two replicas: the first replica is replaced and the call
    panics. *)
Lemma RedeployContainers_short_id_panics_witness :
  let s := observe (boot [db; web1; web2] []) [] in
  exists s' t hc,
    RedeployContainers (recordedManager shortManager) "myapp" s = (Panics, s') /\
    tape s' = tape s ++ t /\
    In (StartContainerC (short_id 0) hc, Done) t /\
    (String.length (short_id 0) < 8)%nat /\
    Forall (fun x => is_event (fst x) = false) t.
Proof.
  intros s.
  destruct (RedeployContainers_short_id_panics shortManager "myapp" s)
    as (out & s' & t & Hrun & _ & Ht & Hiff & Hlast).
  assert (Hs : s' = snd (RedeployContainers (recordedManager shortManager) "myapp" s))
    by (rewrite Hrun; reflexivity).
  assert (Et : t = tape (snd (RedeployContainers (recordedManager shortManager) "myapp" s))).
  { rewrite <- Hs, Ht. reflexivity. }
  assert (Hin : In (StartContainerC (short_id 0) (HostConfig.mk [] "bridge"), Done) t).
  { rewrite Et. vm_compute. tauto. }
  assert (Hlen : (String.length (short_id 0) < 8)%nat) by (vm_compute; lia).
  assert (Hout : out = Panics).
  { apply Hiff. exists (short_id 0), (HostConfig.mk [] "bridge"). split; assumption. }
  destruct (Hlast Hout) as (_ & _ & _ & _ & _ & _ & Hne).
  exists s', t, (HostConfig.mk [] "bridge").
  split; [rewrite <- Hout; exact Hrun|]. split; [exact Ht|].
  split; [exact Hin|]. split; [exact Hlen|exact Hne].
Defined.


End RecordedInstances.

(** ** The claims on a concrete fleet *)

Section Instances.
Import dockerclient manager trace sim fleet.
Local Open Scope list_scope.

(** C1: Run does not do what is asked of it.  Whatever the size of the
    batch and the order in which the goroutines run, when the first call the
    engine receives fails the goroutine making it leaves without
    [wg.Done()], and Run blocks in [wg.Wait()] instead of returning the
    other replicas and the failure.  And with no failure at all, two
    goroutines that both read [launched] before either writes it leave one
    identifier only in the slice Run returns. *)
Theorem Run_blocks_or_loses_outcomes :
  (forall (n : nat) (sched : list nat) (cs : list SimContainer),
     fst (Run simManager template (Z.of_nat (S n)) false sched (boot cs [0%nat])) = Blocks) /\
  (let r := Run simManager template 2 false [0; 0; 0; 1; 1; 1; 0; 1]%nat (boot [] []) in
   fst r = Returns (["replica-1"%string], None) /\
   map (fun c => (ident c, running c)) (containers (world (snd r)))
     = [("replica-0"%string, true); ("replica-1"%string, true)]).
Proof.
  split.
  - intros n sched cs. apply Run_blocks_sim.
  - vm_compute. split; reflexivity.
Qed.

(** C2, counterexample: redeploying "myapp" over a replica of image
    "myapp:v1" pulls "myapp", never "myapp:v1". *)
Lemma RedeployContainers_pull_counterexample :
  let r := RedeployContainers simManager "myapp" (boot [web1; db] []) in
  fst r = Returns None /\
  ContainerInfo.Image (info web1) = "myapp:v1"%string /\
  filter is_pull (calls (snd r)) = [PullImageC "myapp"] /\
  ~ In (PullImageC "myapp:v1") (calls (snd r)).
Proof.
  vm_compute. repeat split.
  intros H. repeat (destruct H as [H|H]; [discriminate|]). exact H.
Qed.

Lemma RedeployContainers_pulls_caller_image_witness :
  exists cs w1,
    ListContainers (client simManager) false false EmptyString
      (world (boot [web1; web2; web3; db] [])) = (Ok cs, w1) /\
    exists out st' new,
      RedeployContainers simManager "myapp" (boot [web1; web2; web3; db] []) = (out, st') /\
      calls st' = calls (boot [web1; web2; web3; db] []) ++ new /\
      (forall name, In (PullImageC name) new -> name = "myapp"%string) /\
      (List.length (filter is_pull new) <= List.length (filter (matches "myapp") cs))%nat /\
      (out = Returns None ->
       List.length (filter is_pull new) = List.length (filter (matches "myapp") cs)).
Proof.
  eexists. eexists. split; [reflexivity|].
  eapply (RedeployContainers_pulls_caller_image simManager "myapp"). reflexivity.
Defined.


(** C4: with two running replicas of "myapp:v1" and an engine on which the
    kill of the first fails, RedeployContainers "myapp" goes on: it creates
    and starts a replacement next to the replica it did not destroy,
    redeploys the second replica and returns no error.  On the same fleet a
    failing pull for the first replica ends the call at once with the
    error. *)
Theorem RedeployContainers_ignores_destroy_failure :
  let r := RedeployContainers simManager "myapp" (boot [web1; web2] [3%nat]) in
  let r' := RedeployContainers simManager "myapp" (boot [web1; web2] [2%nat]) in
  let hc := HostConfig.mk [] "bridge" in
  (fst r = Returns None /\
   calls (snd r) =
     [ListContainersC false false EmptyString;
      InspectContainerC "aaaaaaaa1"; PullImageC "myapp";
      KillContainerC "aaaaaaaa1" "kill";
      CreateContainerC (ContainerInfo.Config (info web1)) EmptyString;
      StartContainerC "replica-0" hc;
      InspectContainerC "bbbbbbbb2"; PullImageC "myapp";
      KillContainerC "bbbbbbbb2" "kill"; RemoveContainerC "bbbbbbbb2" true;
      CreateContainerC (ContainerInfo.Config (info web2)) EmptyString;
      StartContainerC "replica-1" hc;
      InsertEventC (deployEvent "myapp" 1700000000)] /\
   map ident (containers (world (snd r)))
     = ["aaaaaaaa1"%string; "replica-0"%string; "replica-1"%string]) /\
  (fst r' = Returns (Some "engine fault"%string) /\
   calls (snd r') =
     [ListContainersC false false EmptyString;
      InspectContainerC "aaaaaaaa1"; PullImageC "myapp"]).
Proof. vm_compute. repeat split. Qed.

(** C5, counterexample: when the kill fails Destroy returns its error and
    asks for no removal. *)
Lemma Destroy_no_removal_counterexample :
  let r := Destroy simManager "aaaaaaaa1" (boot [web1] [0%nat]) in
  fst r = Returns (Some "engine fault"%string) /\
  calls (snd r) = [KillContainerC "aaaaaaaa1" "kill"] /\
  ~ In (RemoveContainerC "aaaaaaaa1" true) (calls (snd r)).
Proof.
  vm_compute. repeat split. intros [H|[]]. discriminate.
Qed.

Lemma Destroy_removes_only_after_kill_witness :
  exists rk rr w1 w2,
    KillContainer (client simManager) "aaaaaaaa1" "kill" (world (boot [web1; db] [])) = (rk, w1) /\
    RemoveContainer (client simManager) "aaaaaaaa1" true w1 = (rr, w2) /\
    exists (out : option error) (st' : St World),
      Destroy simManager "aaaaaaaa1" (boot [web1; db] []) = (Returns out, st') /\
      (forall e, rk = Err e ->
         out = Some e /\
         calls st' = calls (boot [web1; db] []) ++ [KillContainerC "aaaaaaaa1" "kill"] /\
         world st' = w1) /\
      (rk = Ok tt ->
         calls st' = calls (boot [web1; db] [])
                       ++ [KillContainerC "aaaaaaaa1" "kill"; RemoveContainerC "aaaaaaaa1" true] /\
         world st' = w2 /\
         forall e, rr = Err e -> out = Some e) /\
      (out = None <-> rk = Ok tt /\ rr = Ok tt).
Proof.
  eexists. eexists. eexists. eexists.
  split; [reflexivity|]. split; [reflexivity|].
  eapply (Destroy_removes_only_after_kill simManager "aaaaaaaa1" (boot [web1; db] []));
    reflexivity.
Defined.




(** C8, counterexample: the first of two replicas is redeployed, the pull
    for the second fails, and the call returns the error without handing an
    event to the event table. *)
Lemma RedeployContainers_no_event_on_abort_counterexample :
  let r := RedeployContainers simManager "myapp" (boot [web1; web2] [8%nat]) in
  fst r = Returns (Some "engine fault"%string) /\
  map (fun c => (ident c, running c)) (containers (world (snd r)))
    = [("bbbbbbbb2"%string, true); ("replica-0"%string, true)] /\
  filter is_event (calls (snd r)) = [] /\
  events (world (snd r)) = [].
Proof. vm_compute. repeat split. Qed.

Lemma Scale_up_clears_hostname_witness :
  let st := boot [web1; web2; db] [] in
  let template := ContainerConfig.set_Hostname EmptyString (ContainerInfo.Config (info web1)) in
  exists st1 st2,
    mInspectContainer simManager (ContainerInfo.Id (info web1)) st
      = (Returns (Ok (info web1)), st1) /\
    IdenticalContainers simManager (info web1) true st1
      = (Returns (Ok [info web1; info web2]), st2) /\
    Z.of_nat (List.length [info web1; info web2]) < 4 /\
    ContainerConfig.Hostname (ContainerInfo.Config (info web1)) = "web1"%string /\
    ContainerConfig.Hostname template = EmptyString /\
    exists out st3 new,
      Scale simManager (info web1) 4 [1; 0; 1]%nat st = (out, st3) /\
      calls st3 = calls st2 ++ new /\
      filter is_pull new = [] /\
      (forall cfg name, In (CreateContainerC cfg name) new ->
         cfg = template /\ ContainerConfig.Hostname cfg = EmptyString) /\
      List.length (filter is_create new) = 2%nat.
Proof.
  eexists. eexists.
  split; [reflexivity|]. split; [reflexivity|]. split; [simpl; lia|].
  split; [reflexivity|].
  destruct (Scale_up_clears_hostname simManager (info web1) (info web1) 4 [1; 0; 1]%nat
              (boot [web1; web2; db] []) _ _ [info web1; info web2]
              eq_refl eq_refl ltac:(simpl; lia))
    as [Hh (out & st3 & new & H1 & _ & H3 & H4 & H5 & H6)].
  split; [exact Hh|].
  exists out, st3, new.
  split; [exact H1|]. split; [exact H3|]. split; [exact H4|]. split; [exact H5|exact H6].
Defined.

Lemma Container_first_prefix_match_witness :
  let st := boot [web1; web2; db] [] in
  exists w1 w2,
    ListContainers (client simManager) true false EmptyString (world st)
      = (Ok [entry web1; entry web2; entry db], w1) /\
    Container simManager "bbbb" st
      = (Returns (Some (info web2), None),
         mkSt w2 [ListContainersC true false EmptyString; InspectContainerC "bbbbbbbb2"]) /\
    Container simManager "zz" st
      = (Returns (None, None), mkSt w1 [ListContainersC true false EmptyString]).
Proof.
  eexists. eexists. split; [reflexivity|].
  destruct (Container_first_prefix_match simManager "bbbb" (boot [web1; web2; db] [])
              [entry web1; entry web2; entry db] _ eq_refl) as [Hfound _].
  destruct (Container_first_prefix_match simManager "zz" (boot [web1; web2; db] [])
              [entry web1; entry web2; entry db] _ eq_refl) as [_ Hnone].
  split.
  - apply (Hfound [entry web1] (entry web2) [entry db] (info web2)).
    + reflexivity.
    + intros c [<-|[]] [rest H]. discriminate.
    + exists "bbbb2"%string. reflexivity.
    + reflexivity.
  - apply Hnone. intros c [<-|[<-|[<-|[]]]] [rest H]; discriminate.
Defined.

End Instances.

(** ** Further properties of the methods, on every engine *)

Section MoreManagerFacts.
Import dockerclient manager trace trace_more.
Local Open Scope list_scope.

Context {W : Type}.
Variable m : Manager W.

(** Container stops at the first listed identifier with the prefix: when
    the listing fails, or when the inspection of that first match fails, the
    error is returned with no container, whatever is listed after it. *)
Theorem Container_stops_at_first_match (id : string) (st : St W) :
  (forall e w1,
     ListContainers (client m) true false EmptyString (world st) = (Err e, w1) ->
     Container m id st
       = (Returns (None, Some e),
          mkSt w1 (calls st ++ [ListContainersC true false EmptyString]))) /\
  (forall pre cnt post w1 e w2,
     ListContainers (client m) true false EmptyString (world st)
       = (Ok (pre ++ cnt :: post), w1) ->
     (forall c, In c pre -> strings.HasPrefix (Container.Id c) id = false) ->
     strings.HasPrefix (Container.Id cnt) id = true ->
     InspectContainer (client m) (Container.Id cnt) w1 = (Err e, w2) ->
     Container m id st
       = (Returns (None, Some e),
          mkSt w2 (calls st ++ [ListContainersC true false EmptyString;
                                InspectContainerC (Container.Id cnt)]))).
Proof.
  split.
  - intros e w1 Hl. unfold Container, mListContainers, bind, invoke, call.
    rewrite Hl. reflexivity.
  - intros pre cnt post w1 e w2 Hl Hpre Hcnt Hi.
    unfold Container, mListContainers. unfold bind at 1, invoke, call. rewrite Hl.
    rewrite (Container_loop_skip m id pre (cnt :: post) _ Hpre).
    simpl. rewrite Hcnt. unfold bind, mInspectContainer, invoke, call. cbn [world calls].
    rewrite Hi. cbn [calls]. rewrite <- app_assoc. reflexivity.
Qed.

Lemma Container_loop_queries (id : string) (cs : list ContainerT) (st : St W) :
  exists new,
    calls (snd (Container_loop m id cs st)) = calls st ++ new /\
    Forall (fun c => is_query c = true) new.
Proof.
  induction cs as [|c cs IH]; simpl.
  - exists []. now rewrite app_nil_r.
  - destruct (strings.HasPrefix (Container.Id c) id); [|exact IH].
    unfold bind, mInspectContainer, invoke, call.
    destruct (InspectContainer (client m) (Container.Id c) (world st)) as [[i|e] w1];
      exists [InspectContainerC (Container.Id c)]; split; try reflexivity;
      repeat constructor.
Qed.

Lemma ContainersByImage_loop_queries (name : string) (cs : list ContainerT) :
  forall (acc : list ContainerInfoT) (st : St W),
  exists new,
    calls (snd (ContainersByImage_loop m name cs acc st)) = calls st ++ new /\
    Forall (fun c => is_query c = true) new.
Proof.
  induction cs as [|c cs IH]; intros acc st; simpl.
  - exists []. now rewrite app_nil_r.
  - destruct (strings.Index (Container.Image c) name >? -1); [|apply IH].
    unfold bind at 1, mInspectContainer, invoke, call.
    destruct (InspectContainer (client m) (Container.Id c) (world st)) as [[i|e] w1].
    + destruct (IH (acc ++ [i]) (mkSt w1 (calls st ++ [InspectContainerC (Container.Id c)])))
        as (new & Hnew & Hall).
      exists (InspectContainerC (Container.Id c) :: new). rewrite Hnew. cbn [calls].
      rewrite <- app_assoc. split; [reflexivity|]. constructor; [reflexivity|assumption].
    + exists [InspectContainerC (Container.Id c)]. split; [reflexivity|].
      repeat constructor.
Qed.

(** The lookups only read the engine: Container, ContainersByImage and
    IdenticalContainers issue ListContainers and InspectContainer calls and
    no other. *)
Theorem lookups_only_query (id name : string) (ref : ContainerInfoT) (all : bool)
    (st : St W) :
  (exists new, calls (snd (Container m id st)) = calls st ++ new /\
               Forall (fun c => is_query c = true) new) /\
  (exists new, calls (snd (ContainersByImage m name all st)) = calls st ++ new /\
               Forall (fun c => is_query c = true) new) /\
  (exists new, calls (snd (IdenticalContainers m ref all st)) = calls st ++ new /\
               Forall (fun c => is_query c = true) new).
Proof.
  assert (Hby : forall name,
            exists new, calls (snd (ContainersByImage m name all st)) = calls st ++ new /\
                        Forall (fun c => is_query c = true) new).
  { intros nm. unfold ContainersByImage, Containers, mListContainers.
    unfold bind, invoke, call.
    destruct (ListContainers (client m) all false EmptyString (world st)) as [[cs|e] w1].
    - destruct (ContainersByImage_loop_queries nm cs []
                  (mkSt w1 (calls st ++ [ListContainersC all false EmptyString])))
        as (new & Hnew & Hall).
      exists (ListContainersC all false EmptyString :: new).
      destruct (ContainersByImage_loop m nm cs [] _) as [[r| |] st'];
        simpl in *; rewrite Hnew, <- app_assoc;
        (split; [reflexivity|constructor; [reflexivity|assumption]]).
    - exists [ListContainersC all false EmptyString]. split; [reflexivity|].
      repeat constructor. }
  split; [|split].
  - unfold Container, mListContainers. unfold bind, invoke, call.
    destruct (ListContainers (client m) true false EmptyString (world st)) as [[cs|e] w1].
    + destruct (Container_loop_queries id cs
                  (mkSt w1 (calls st ++ [ListContainersC true false EmptyString])))
        as (new & Hnew & Hall).
      exists (ListContainersC true false EmptyString :: new).
      rewrite Hnew. cbn [calls]. rewrite <- app_assoc.
      split; [reflexivity|constructor; [reflexivity|assumption]].
    + exists [ListContainersC true false EmptyString]. split; [reflexivity|].
      repeat constructor.
  - apply Hby.
  - destruct (Hby (ContainerInfo.Image ref)) as (new & Hnew & Hall).
    exists new. split; [|assumption]. rewrite <- Hnew.
    unfold IdenticalContainers. unfold bind at 1.
    destruct (ContainersByImage m (ContainerInfo.Image ref) all st) as [[[l|e]| |] st'];
      reflexivity.
Qed.

(** IdenticalContainers is ContainersByImage for the image of the reference,
    followed by a filter: it keeps, in the same order, the descriptors with
    the memory limit and the number of arguments of the reference, and passes
    on the error of ContainersByImage. *)
Theorem IdenticalContainers_refines_ContainersByImage (ref : ContainerInfoT) (all : bool)
    (st : St W) :
  exists st',
    snd (ContainersByImage m (ContainerInfo.Image ref) all st) = st' /\
    snd (IdenticalContainers m ref all st) = st' /\
    (forall e, fst (ContainersByImage m (ContainerInfo.Image ref) all st) = Returns (Err e) ->
       fst (IdenticalContainers m ref all st) = Returns (Err e)) /\
    (forall l, fst (ContainersByImage m (ContainerInfo.Image ref) all st) = Returns (Ok l) ->
       exists cls,
         fst (IdenticalContainers m ref all st) = Returns (Ok cls) /\
         cls = filter (fun c =>
                 (ContainerConfig.Memory (ContainerInfo.Config c)
                    =? ContainerConfig.Memory (ContainerInfo.Config ref))
                 && (List.length (ContainerInfo.Args c)
                       =? List.length (ContainerInfo.Args ref))%nat) l /\
         (List.length cls <= List.length l)%nat).
Proof.
  assert (HI : IdenticalContainers m ref all st
               = match ContainersByImage m (ContainerInfo.Image ref) all st with
                 | (Returns (Ok l), s) =>
                     (Returns (Ok (IdenticalContainers_loop ref l [])), s)
                 | (Returns (Err e), s) => (Returns (Err e), s)
                 | (Panics, s) => (Panics, s)
                 | (Blocks, s) => (Blocks, s)
                 end).
  { unfold IdenticalContainers, bind.
    destruct (ContainersByImage m (ContainerInfo.Image ref) all st) as [[[l|e]| |] s];
      reflexivity. }
  rewrite HI. clear HI.
  destruct (ContainersByImage m (ContainerInfo.Image ref) all st) as [[[l|e]| |] st'];
    exists st'; simpl; (split; [reflexivity|]); (split; [reflexivity|]);
    split; intros x Hx; try discriminate; inversion Hx; subst; try reflexivity.
  eexists. split; [reflexivity|].
  rewrite IdenticalContainers_loop_filter. simpl.
  assert (Hf : filter (sim.same_shape ref) x
               = filter (fun c =>
                   (ContainerConfig.Memory (ContainerInfo.Config c)
                      =? ContainerConfig.Memory (ContainerInfo.Config ref))
                   && (List.length (ContainerInfo.Args c)
                         =? List.length (ContainerInfo.Args ref))%nat) x).
  { apply filter_ext. intros c. unfold sim.same_shape. f_equal.
    destruct (Nat.eqb_spec (List.length (ContainerInfo.Args c))
                           (List.length (ContainerInfo.Args ref))) as [Heq|Hne].
    - rewrite Heq. apply Z.eqb_refl.
    - apply Z.eqb_neq. lia. }
  rewrite Hf. split; [reflexivity|]. apply filter_length_le.
Qed.

(** Scale with the class already at [count] members: nothing is destroyed
    or launched, the reference is left as it is and no error is returned. *)
Theorem Scale_at_count_is_noop (container info : ContainerInfoT) (count : Z)
    (sched : list nat) (st st1 st2 : St W) (cls : list ContainerInfoT) :
  mInspectContainer m (ContainerInfo.Id container) st = (Returns (Ok info), st1) ->
  IdenticalContainers m info true st1 = (Returns (Ok cls), st2) ->
  Z.of_nat (List.length cls) = count ->
  Scale m container count sched st = (Returns (container, None), st2).
Proof.
  intros Hi Hc Hn. unfold Scale. unfold bind at 1. rewrite Hi.
  unfold bind at 1. rewrite Hc. rewrite Hn.
  rewrite Z.gtb_ltb, Z.ltb_irrefl. reflexivity.
Qed.

(** Scale that cannot find its class does nothing else: when the inspection
    of the reference fails, or the classification fails, the error is
    returned and the engine is left as the failed lookup left it. *)
Theorem Scale_lookup_failure (container : ContainerInfoT) (count : Z)
    (sched : list nat) (st : St W) :
  (forall e st1,
     mInspectContainer m (ContainerInfo.Id container) st = (Returns (Err e), st1) ->
     Scale m container count sched st = (Returns (container, Some e), st1) /\
     calls st1 = calls st ++ [InspectContainerC (ContainerInfo.Id container)]) /\
  (forall info st1 e st2,
     mInspectContainer m (ContainerInfo.Id container) st = (Returns (Ok info), st1) ->
     IdenticalContainers m info true st1 = (Returns (Err e), st2) ->
     Scale m container count sched st = (Returns (container, Some e), st2)).
Proof.
  split.
  - intros e st1 Hi. split.
    + unfold Scale. unfold bind at 1. rewrite Hi. reflexivity.
    + unfold mInspectContainer, invoke, call in Hi.
      destruct (InspectContainer (client m) (ContainerInfo.Id container) (world st)).
      inversion Hi. reflexivity.
  - intros info st1 e st2 Hi Hc. unfold Scale. unfold bind at 1. rewrite Hi.
    unfold bind at 1. rewrite Hc. reflexivity.
Qed.

Lemma RedeployContainers_loop_no_match (image : string) (cs : list ContainerT)
    (d : bool) (st : St W) :
  forallb (fun c => negb (matches image c)) cs = true ->
  RedeployContainers_loop m image cs d st = (Returns (LoopEnd d), st).
Proof.
  induction cs as [|c cs IH]; intros H; [reflexivity|].
  simpl in H. apply andb_prop in H. destruct H as [Hc Hcs].
  simpl. fold (matches image c). apply negb_true_iff in Hc. rewrite Hc. now apply IH.
Qed.

(** RedeployContainers with nothing to redeploy: when the listing fails the
    error is returned; when no listed container has the string in its image
    reference the call returns no error; in both cases the listing is the
    only call and no event is saved. *)
Theorem RedeployContainers_nothing_to_do (image : string) (st : St W) :
  (forall e w1,
     ListContainers (client m) false false EmptyString (world st) = (Err e, w1) ->
     RedeployContainers m image st
       = (Returns (Some e),
          mkSt w1 (calls st ++ [ListContainersC false false EmptyString]))) /\
  (forall cs w1,
     ListContainers (client m) false false EmptyString (world st) = (Ok cs, w1) ->
     (forall c pre post, In c cs ->
        Container.Image c <> (pre ++ image ++ post)%string) ->
     RedeployContainers m image st
       = (Returns None,
          mkSt w1 (calls st ++ [ListContainersC false false EmptyString]))).
Proof.
  split.
  - intros e w1 Hl. unfold RedeployContainers, Containers, mListContainers.
    unfold bind, invoke, call. rewrite Hl. reflexivity.
  - intros cs w1 Hl Hno. unfold RedeployContainers, Containers, mListContainers.
    unfold bind at 1, invoke, call. rewrite Hl. unfold bind at 1.
    rewrite RedeployContainers_loop_no_match; [reflexivity|].
    apply forallb_forall. intros c Hc.
    destruct (matches image c) eqn:E; [|reflexivity].
    apply strings_facts.Index_spec in E. destruct E as (pre & post & E).
    exfalso. exact (Hno c pre post Hc E).
Qed.

(** The empty string occurs in every image reference, so RedeployContainers
    called with it selects every running container: a call that returns
    without error has pulled once per listed container, and has saved the
    deploy event as soon as one container is listed. *)
Theorem RedeployContainers_empty_string_selects_all (st : St W)
    (cs : list ContainerT) (w1 : W) :
  ListContainers (client m) false false EmptyString (world st) = (Ok cs, w1) ->
  filter (matches EmptyString) cs = cs /\
  exists out st' new,
    RedeployContainers m EmptyString st = (out, st') /\
    calls st' = calls st ++ new /\
    (out = Returns None ->
     List.length (filter is_pull new) = List.length cs /\
     List.length (filter is_event new) = Nat.min 1 (List.length cs)).
Proof.
  intros Hl.
  assert (Hall : forall l : list ContainerT, filter (matches EmptyString) l = l).
  { intros l. apply forallb_filter_id. apply forallb_forall. intros c _.
    apply strings_facts.Index_spec. exists EmptyString, (Container.Image c). reflexivity. }
  split; [apply Hall|].
  destruct (RedeployContainers_trace m EmptyString st) as (r & w & Hl' & Hr).
  rewrite Hl in Hl'. inversion Hl'; subst r w; clear Hl'.
  destruct Hr as (x & st2 & loopnew & Hloop & Hcalls & Hcall & Hle & Hx).
  pose proof (redeploy_calls_no_event _ _ _ Hcall) as Hne.
  rewrite Hall in *.
  destruct x as [[err|deployed]| |].
  - do 3 eexists. split; [exact Hx|]. split; [exact Hcalls|]. discriminate.
  - destruct Hx as [Hd [Hn Hx]]. destruct deployed.
    + destruct Hx as (re & w3 & Hs & Hx).
      do 3 eexists. split; [exact Hx|]. cbn [calls]. rewrite Hcalls.
      split; [rewrite <- app_assoc; reflexivity|]. intros _.
      simpl. rewrite !filter_app, !length_app, Hne. simpl. rewrite Nat.add_0_r.
      split; [exact Hn|].
      destruct cs; [discriminate|reflexivity].
    + do 3 eexists. split; [exact Hx|]. split; [exact Hcalls|]. intros _.
      simpl. rewrite Hne. split; [exact Hn|].
      destruct cs as [|c cs]; [reflexivity|].
      assert (Hc : matches EmptyString c = true).
      { apply strings_facts.Index_spec. exists EmptyString, (Container.Image c). reflexivity. }
      cbn [existsb] in Hd. rewrite Hc in Hd. discriminate.
  - do 3 eexists. split; [exact Hx|]. split; [exact Hcalls|]. discriminate.
  - do 3 eexists. split; [exact Hx|]. split; [exact Hcalls|]. discriminate.
Qed.

End MoreManagerFacts.

(** ** Further properties of the batch of Run, on every engine *)

Section MoreBatchFacts.
Import dockerclient manager trace batch trace_more.
Local Open Scope list_scope.

Context {W : Type}.
Variable m : Manager W.
Variable config : ContainerConfigT.

Lemma Forall_set_nth_impl {A} (P Q : A -> Prop) (xs : list A) (i : nat) (x : A) :
  (forall a, P a -> Q a) -> Forall P xs -> Q x -> Forall Q (set_nth i x xs).
Proof.
  intros Himp Hxs Hx. apply set_nth_Forall; [|assumption].
  eapply Forall_impl; eassumption.
Qed.

Lemma nth_error_Forall {A} (P : A -> Prop) (xs : list A) (i : nat) (x : A) :
  Forall P xs -> nth_error xs i = Some x -> P x.
Proof.
  intros H Hn. rewrite Forall_forall in H. apply H. eapply nth_error_In; eassumption.
Qed.

Ltac batch_step_cases Hg :=
  unfold step; rewrite Hg;
  match goal with |- context [step_goroutine _ _ ?g _] => destruct g end;
  try discriminate; cbn [step_goroutine]; unfold call;
  repeat match goal with
         | |- context [PullImage ?c ?a ?w] => destruct (PullImage c a w) as [[[]|?] ?]
         | |- context [CreateContainer ?c ?a ?b ?w] =>
             destruct (CreateContainer c a b w) as [[?|?] ?]
         | |- context [StartContainer ?c ?a ?b ?w] =>
             destruct (StartContainer c a b w) as [[[]|?] ?]
         end;
  cbn [rs_st goroutines launched runErr wg world calls fst snd].

Lemma step_batch_inv (l0 : list Call) (k0 i : nat) (g : Goroutine) (rs : @RunState W) :
  nth_error (goroutines rs) i = Some g -> runnable g = true ->
  batch_inv config l0 k0 rs -> batch_inv config l0 k0 (step m config i rs).
Proof.
  intros Hg Hr (new & Hlog & Hcalls & Hpull & Hlaunched & Hholds & Herr & Hlen & Hpend).
  pose proof (nth_error_Forall _ _ _ _ Hholds Hg) as Hg_holds.
  pose proof (nth_error_Forall _ _ _ _ Hpend Hg) as Hg_pend.
  pose proof (fun g' => set_nth_total pulled (goroutines rs) i g g' Hg) as Tp.
  pose proof (fun g' => set_nth_total returned (goroutines rs) i g g' Hg) as Tr.
  pose proof (fun g' => set_nth_total loaded (goroutines rs) i g g' Hg) as Tl.
  unfold batch_inv.
  batch_step_cases Hg;
    match goal with
    | |- context [set_nth i ?g' _] =>
        specialize (Tp g'); specialize (Tr g'); specialize (Tl g');
        simpl in Tp, Tr, Tl, Hg_holds, Hg_pend
    end.
  1-6:
    match goal with
    | |- context [calls (rs_st _) ++ [?c]] =>
        exists (new ++ [c]); rewrite Hlog, <- app_assoc;
        (split; [reflexivity|]);
        (split; [apply Forall_app; split; [assumption|];
                 apply Forall_cons; [|apply Forall_nil];
                 unfold batch_call;
                 first [left; reflexivity
                       |right; left; reflexivity
                       |right; right; eexists; reflexivity]|]);
        (split; [rewrite filter_app, length_app; simpl; lia|]);
        (split; [intros id Hid; apply in_or_app; left; auto|]);
        (split; [apply Forall_set_nth_impl
                   with (P := fun g => forall id, In id (holds g) ->
                     In (StartContainerC id (ContainerConfig.HostConfig config)) new);
                 [intros g0 Hg0 id Hid; apply in_or_app; left; auto
                 |assumption
                 |simpl; intros id Hid;
                  first [contradiction
                        |destruct Hid as [<-|[]]; apply in_or_app; right; now left]]|]);
        (split; [intros Hne; specialize (Herr Hne); lia|]);
        (split; [lia|]);
        apply Forall_set_nth_impl
          with (P := fun g => (pending g <= total loaded (goroutines rs))%nat);
        [intros g0 Hg0; lia|assumption|simpl; lia]
    end.
  - (* runErr = err; return *)
    exists new. repeat (split; [first [assumption|lia]|]).
    split.
    { apply Forall_set_nth_impl
        with (P := fun g => forall id, In id (holds g) ->
                In (StartContainerC id (ContainerConfig.HostConfig config)) new);
        [auto|assumption|simpl; contradiction]. }
    split; [intros _; lia|]. split; [lia|].
    apply Forall_set_nth_impl
      with (P := fun g => (pending g <= total loaded (goroutines rs))%nat);
      [intros g0 Hg0; lia|assumption|simpl; lia].
  - (* read of launched *)
    exists new. repeat (split; [first [assumption|lia]|]).
    split.
    { apply Forall_set_nth_impl
        with (P := fun g => forall id, In id (holds g) ->
                In (StartContainerC id (ContainerConfig.HostConfig config)) new);
        [auto|assumption|].
      simpl. intros id Hid. apply in_app_or in Hid.
      destruct Hid as [Hid|Hid]; [auto|]. apply Hg_holds. exact Hid. }
    split; [intros Hne; specialize (Herr Hne); lia|]. split; [lia|].
    apply Forall_set_nth_impl
      with (P := fun g => (pending g <= total loaded (goroutines rs))%nat);
      [intros g0 Hg0; lia|assumption|simpl; rewrite length_app; simpl; lia].
  - (* write of launched *)
    exists new. repeat (split; [first [assumption|lia]|]).
    split.
    { apply Forall_set_nth_impl
        with (P := fun g => forall id, In id (holds g) ->
                In (StartContainerC id (ContainerConfig.HostConfig config)) new);
        [auto|assumption|simpl; contradiction]. }
    split; [intros Hne; specialize (Herr Hne); lia|]. split; [lia|].
    apply Forall_set_nth_impl
      with (P := fun g => (pending g <= total loaded (goroutines rs))%nat);
      [intros g0 Hg0; lia|assumption|simpl; lia].
  - (* wg.Done() *)
    exists new. repeat (split; [first [assumption|lia]|]).
    split.
    { apply Forall_set_nth_impl
        with (P := fun g => forall id, In id (holds g) ->
                In (StartContainerC id (ContainerConfig.HostConfig config)) new);
        [auto|assumption|simpl; contradiction]. }
    split; [intros Hne; specialize (Herr Hne); lia|]. split; [lia|].
    apply Forall_set_nth_impl
      with (P := fun g => (pending g <= total loaded (goroutines rs))%nat);
      [intros g0 Hg0; lia|assumption|simpl; lia].
Qed.


Lemma total_le_length (f : Goroutine -> nat) (gs : list Goroutine) :
  (forall g, f g <= 1)%nat -> (total f gs <= List.length gs)%nat.
Proof.
  intros Hf. unfold total. induction gs as [|g gs IH]; simpl; [lia|].
  specialize (Hf g). lia.
Qed.

Lemma total_returned_le_failed (gs : list Goroutine) :
  (total returned gs <= total failed gs)%nat.
Proof.
  unfold total. induction gs as [|g gs IH]; simpl; [lia|].
  destruct g; simpl; lia.
Qed.

Lemma total_pulled_terminal (gs : list Goroutine) :
  Forall (fun g => runnable g = false) gs -> total pulled gs = List.length gs.
Proof.
  unfold total. induction 1 as [|g gs Hg _ IH]; simpl; [reflexivity|].
  destruct g; simpl in *; try discriminate; lia.
Qed.

Lemma Run_final_length (count : Z) (pull : bool) (sched : list nat) (st : St W) :
  List.length (goroutines (Run_final m config count pull sched st)) = Z.to_nat count.
Proof.
  unfold Run_final.
  apply (schedule_preserves m config (fun rs => List.length (goroutines rs) = Z.to_nat count)).
  - intros i g rs _ _ H. now rewrite step_length.
  - unfold Run_init. cbn [goroutines]. apply repeat_length.
Qed.

(** The invariant of the batch holds when the scheduler stops. *)
Lemma Run_final_inv (count : Z) (pull : bool) (sched : list nat) (st : St W) :
  batch_inv config (calls st) (if pull then 0 else Z.to_nat count)
            (Run_final m config count pull sched st).
Proof.
  unfold Run_final. apply schedule_preserves.
  - intros i g rs Hg Hr H. eapply step_batch_inv; eassumption.
  - unfold batch_inv, Run_init. cbn [rs_st goroutines launched runErr].
    exists []. rewrite app_nil_r. rewrite !total_repeat.
    split; [reflexivity|]. split; [constructor|].
    split; [destruct pull; simpl; lia|].
    split; [intros id []|].
    split; [apply Forall_forall; intros g Hin; apply repeat_spec in Hin; subst;
            destruct pull; simpl; intros id []|].
    split; [intros H; now elim H|].
    split; [simpl; lia|].
    apply Forall_forall. intros g Hin. apply repeat_spec in Hin. subst.
    destruct pull; simpl; lia.
Qed.

Lemma Run_state (count : Z) (pull : bool) (sched : list nat) (st : St W) :
  0 <= count ->
  snd (Run m config count pull sched st) = rs_st (Run_final m config count pull sched st).
Proof.
  intros Hc. unfold Run. destruct (count <? 0) eqn:E; [apply Z.ltb_lt in E; lia|].
  cbv zeta. destruct (wg _ =? 0); reflexivity.
Qed.

(** Run never returns an error: for a count that is not negative it either
    blocks or returns a nil error, with at most [count] identifiers. *)
Theorem Run_never_returns_an_error (count : Z) (pull : bool) (sched : list nat) (st : St W) :
  0 <= count ->
  fst (Run m config count pull sched st) = Blocks \/
  exists l, fst (Run m config count pull sched st) = Returns (l, None) /\
            Z.of_nat (List.length l) <= count.
Proof.
  intros Hc.
  pose proof (Run_final_wg m config count pull sched st Hc) as Hwg.
  pose proof (Run_final_length count pull sched st) as Hlen.
  destruct (Run_final_inv count pull sched st)
    as (new & _ & _ & _ & _ & _ & Herr & Hl & _).
  pose proof (total_returned_le_failed (goroutines (Run_final m config count pull sched st))).
  pose proof (total_le_length loaded (goroutines (Run_final m config count pull sched st))) as Hle.
  unfold Run. destruct (count <? 0) eqn:E; [apply Z.ltb_lt in E; lia|].
  cbv zeta. destruct (wg _ =? 0) eqn:E0; [|now left].
  right. apply Z.eqb_eq in E0. cbn [fst].
  destruct (runErr (Run_final m config count pull sched st)) as [e|] eqn:He.
  - exfalso. assert (Some e <> None) as Hne by discriminate.
    specialize (Herr Hne). lia.
  - eexists. split; [reflexivity|].
    assert (forall g, (loaded g <= 1)%nat) as H1 by (intros g; destruct g; simpl; lia).
    specialize (Hle H1). lia.
Qed.

(** Every identifier Run returns was passed to StartContainer by the batch,
    with the host configuration of the template. *)
Theorem Run_returns_started_ids (count : Z) (pull : bool) (sched : list nat) (st : St W)
    (l : list string) (e : option error) (st' : St W) :
  Run m config count pull sched st = (Returns (l, e), st') ->
  exists new,
    calls st' = calls st ++ new /\
    forall id, In id l ->
      In (StartContainerC id (ContainerConfig.HostConfig config)) new.
Proof.
  intros HR.
  destruct (Run_final_inv count pull sched st)
    as (new & Hlog & _ & _ & Hlaunched & _).
  unfold Run in HR. destruct (count <? 0); [discriminate|]. cbv zeta in HR.
  destruct (wg _ =? 0); [|discriminate]. inversion HR; subst.
  exists new. split; assumption.
Qed.

(** Run with [pull] set pulls the image of the template once per goroutine:
    whatever the schedule and whatever fails, the batch issues exactly
    [count] PullImage calls, all for [config.Image]. *)
Theorem Run_pulls_once_per_goroutine (count : Z) (sched : list nat) (st : St W) :
  0 <= count ->
  exists new,
    calls (snd (Run m config count true sched st)) = calls st ++ new /\
    List.length (filter is_pull new) = Z.to_nat count /\
    (forall name, In (PullImageC name) new -> name = ContainerConfig.Image config) /\
    (forall cfg name, In (CreateContainerC cfg name) new -> cfg = config).
Proof.
  intros Hc. rewrite (Run_state count true sched st Hc).
  destruct (Run_final_inv count true sched st)
    as (new & Hlog & Hcalls & Hpull & _).
  pose proof (total_pulled_terminal _ (Run_final_terminal m config count true sched st)) as Ht.
  pose proof (Run_final_length count true sched st) as Hlen.
  exists new. split; [exact Hlog|]. split; [lia|].
  split.
  - intros name Hin. rewrite Forall_forall in Hcalls.
    destruct (Hcalls _ Hin) as [H|[H|[id H]]]; inversion H; reflexivity.
  - intros cfg name Hin. rewrite Forall_forall in Hcalls.
    destruct (Hcalls _ Hin) as [H|[H|[id H]]]; inversion H; reflexivity.
Qed.

End MoreBatchFacts.

(** ** The event handler and the identifiers of webhook keys *)

Section HandlerFacts.
Import dockerclient manager trace eventhandler.
Local Open Scope list_scope.

Context {W : Type}.
Variable m : Manager W.

(** Handle never reports an error.  On an identifier shorter than twelve
    bytes it panics before anything is saved.  Otherwise it hands one event
    to the event table, with the status, the time and the identifier of the
    engine's event and the tag docker, and returns nil even when saving the
    event fails, an error that logDockerEvent does return. *)
Theorem Handle_saves_one_event_and_hides_errors (e : docker_event.t) (st : St W) :
  let evt := Event.mk (docker_event.Status e) (docker_event.Id e) (docker_event.Time e)
                      EmptyString ["docker"%string] in
  ((String.length (docker_event.Id e) < 12)%nat -> Handle m e st = (Panics, st)) /\
  (forall r w1,
     (12 <= String.length (docker_event.Id e))%nat ->
     session m evt (world st) = (r, w1) ->
     Handle m e st = (Returns None, mkSt w1 (calls st ++ [InsertEventC evt])) /\
     logDockerEvent m e st
       = (Returns (match r with Err err => Some err | Ok _ => None end),
          mkSt w1 (calls st ++ [InsertEventC evt]))).
Proof.
  intros evt. split.
  - intros Hlen. unfold Handle. apply Nat.ltb_lt in Hlen. rewrite Hlen. reflexivity.
  - intros r w1 Hlen Hs.
    assert (Hlog : logDockerEvent m e st
                   = (Returns (match r with Err err => Some err | Ok _ => None end),
                      mkSt w1 (calls st ++ [InsertEventC evt]))).
    { unfold logDockerEvent, SaveEvent, mInsertEvent, bind, invoke, call, ret.
      fold evt. rewrite Hs. destruct r as [[]|err]; reflexivity. }
    split; [|exact Hlog].
    unfold Handle. apply Nat.ltb_ge in Hlen. rewrite Hlen.
    unfold bind at 1. rewrite Hlog. reflexivity.
Qed.

End HandlerFacts.

Section UtilsFacts.
Import utils.
Local Open Scope list_scope.

Lemma EncodeToString_length (src : list Byte.byte) :
  String.length (EncodeToString src) = (2 * List.length src)%nat.
Proof. induction src as [|b src IH]; simpl; [reflexivity|]. rewrite IH. lia. Qed.

Lemma hexdigit_in_table (v : N) : In (hexdigit v) (list_ascii_of_string hextable).
Proof.
  unfold hexdigit.
  destruct (String.get (N.to_nat v) hextable) as [c|] eqn:E.
  - revert E. generalize (N.to_nat v). intros n E.
    do 16 (destruct n as [|n]; [inversion E; subst; simpl; tauto|]).
    discriminate.
  - simpl. tauto.
Qed.

Lemma EncodeToString_hex (src : list Byte.byte) (c : ascii) :
  In c (list_ascii_of_string (EncodeToString src)) ->
  In c (list_ascii_of_string hextable).
Proof.
  induction src as [|b src IH]; simpl; [contradiction|].
  intros [<-|[<-|H]]; [apply hexdigit_in_table|apply hexdigit_in_table|exact (IH H)].
Qed.

Lemma substring_prefix_length (s : string) :
  forall n, (n <= String.length s)%nat -> String.length (String.substring 0 n s) = n.
Proof.
  induction s as [|a s IH]; intros [|n] H; simpl in *; try reflexivity; try lia.
  rewrite IH; [reflexivity|lia].
Qed.

Lemma substring_prefix_chars (s : string) (c : ascii) :
  forall n, In c (list_ascii_of_string (String.substring 0 n s)) ->
            In c (list_ascii_of_string s).
Proof.
  induction s as [|a s IH]; intros [|n] H; simpl in *; try contradiction.
  destruct H as [H|H]; [now left|right; eauto].
Qed.

(** Within the digest's text the slice is taken: the identifier has the
    length asked for and hexadecimal digits only. *)
Lemma generateId_within (Sum256 : list Byte.byte -> list Byte.byte) (now : string) (n : Z) :
  (forall bs, List.length (Sum256 bs) = 32%nat) ->
  0 <= n <= 64 ->
  exists s,
    generateId Sum256 now n = Returns s /\
    String.length s = Z.to_nat n /\
    (forall c, In c (list_ascii_of_string s) ->
       In c (list_ascii_of_string "0123456789abcdef")).
Proof.
  intros Hsum Hn.
  assert (Hlen : String.length (EncodeToString (Sum256 (list_byte_of_string now))) = 64%nat).
  { rewrite EncodeToString_length, Hsum. reflexivity. }
  unfold generateId. cbv zeta. rewrite Hlen.
  destruct (n <? 0) eqn:E1; [apply Z.ltb_lt in E1; lia|].
  destruct (Z.of_nat 64 <? n) eqn:E2; [apply Z.ltb_lt in E2; lia|].
  cbn [orb]. eexists. split; [reflexivity|]. split.
  - apply substring_prefix_length. rewrite Hlen. lia.
  - intros c Hc. apply substring_prefix_chars in Hc.
    eapply EncodeToString_hex. exact Hc.
Qed.

(** generateId(n) is made of the first [n] digits of the hexadecimal text of
    a SHA-256 digest, which has 64: for [0 <= n <= 64] it returns exactly [n]
    characters, all of them lower-case hexadecimal digits; for any other [n]
    it panics. *)
Theorem generateId_length_and_alphabet (Sum256 : list Byte.byte -> list Byte.byte)
    (now : string) (n : Z) :
  (forall bs, List.length (Sum256 bs) = 32%nat) ->
  (0 <= n <= 64 ->
   exists s,
     generateId Sum256 now n = Returns s /\
     String.length s = Z.to_nat n /\
     (forall c, In c (list_ascii_of_string s) ->
        In c (list_ascii_of_string "0123456789abcdef"))) /\
  (n < 0 \/ 64 < n -> generateId Sum256 now n = Panics).
Proof.
  intros Hsum. split.
  - intros Hn. apply generateId_within; assumption.
  - assert (Hlen : String.length (EncodeToString (Sum256 (list_byte_of_string now))) = 64%nat).
    { rewrite EncodeToString_length, Hsum. reflexivity. }
    unfold generateId. cbv zeta. rewrite Hlen.
    intros [Hn|Hn].
    + apply Z.ltb_lt in Hn. rewrite Hn. reflexivity.
    + destruct (n <? 0); [reflexivity|].
      assert ((Z.of_nat 64 <? n) = true) as -> by (apply Z.ltb_lt; lia). reflexivity.
Qed.

End UtilsFacts.

(** ** A batch whose goroutines run one after the other *)

Section SequentialBatch.
Import dockerclient manager trace batch sim sim_batch.
Local Open Scope list_scope.

Variable config : ContainerConfigT.

Lemma runnable_from_finished (k i : nat) (l : list Goroutine) :
  runnable_from i (repeat GFinished k ++ l) = runnable_from (i + k) l.
Proof.
  revert i. induction k as [|k IH]; intros i; simpl.
  - now rewrite Nat.add_0_r.
  - rewrite IH. f_equal. lia.
Qed.

Lemma pick_first (k : nat) (g : Goroutine) (rest : list Goroutine) :
  runnable g = true -> pick 0 (repeat GFinished k ++ g :: rest) = Some k.
Proof.
  intros Hr. unfold pick. rewrite runnable_from_finished. cbn [runnable_from].
  rewrite Hr, Nat.Div0.mod_0_l. reflexivity.
Qed.

Lemma nth_error_finished (k : nat) (g : Goroutine) (rest : list Goroutine) :
  nth_error (repeat GFinished k ++ g :: rest) k = Some g.
Proof.
  rewrite nth_error_app2; rewrite repeat_length; [|lia]. now rewrite Nat.sub_diag.
Qed.

Lemma set_nth_finished (k : nat) (g g' : Goroutine) (rest : list Goroutine) :
  set_nth k g' (repeat GFinished k ++ g :: rest) = repeat GFinished k ++ g' :: rest.
Proof. induction k as [|k IH]; simpl; [reflexivity|]. now rewrite IH. Qed.

(** One more step of the first goroutine that can move. *)
Lemma schedule_first (f k : nat) (g : Goroutine) (rest : list Goroutine)
    (rs : @RunState World) :
  goroutines rs = repeat GFinished k ++ g :: rest -> runnable g = true ->
  schedule simManager config (S f) [] rs
    = schedule simManager config f []
        (mkRun (rs_st (snd (step_goroutine simManager config g rs)))
               (repeat GFinished k ++ fst (step_goroutine simManager config g rs) :: rest)
               (launched (snd (step_goroutine simManager config g rs)))
               (runErr (snd (step_goroutine simManager config g rs)))
               (wg (snd (step_goroutine simManager config g rs)))).
Proof.
  intros Hgs Hr. cbn [schedule hd tl]. rewrite Hgs, (pick_first k g rest Hr).
  f_equal. unfold step. rewrite Hgs, nth_error_finished.
  pose proof (step_goroutine_keeps simManager config g rs) as Hk.
  destruct (step_goroutine simManager config g rs) as [g' rs']. cbn [fst snd] in *.
  now rewrite Hk, Hgs, set_nth_finished.
Qed.

Lemma schedule_all_finished (f : nat) (sched : list nat) (rs : @RunState World) :
  Forall (fun g => runnable g = false) (goroutines rs) ->
  schedule simManager config f sched rs = rs.
Proof.
  intros H. destruct f as [|f]; [reflexivity|]. simpl.
  destruct (pick (hd 0%nat sched) (goroutines rs)) as [i|] eqn:Hp; [|reflexivity].
  destruct (pick_some _ _ _ Hp) as (g & Hg & Hr).
  rewrite Forall_forall in H. rewrite (H g) in Hr; [discriminate|].
  eapply nth_error_In; eassumption.
Qed.

Lemma is_running_app (w : World) (c : SimContainer) (id : string) (w' : World) :
  containers w' = containers w ++ [c] ->
  is_running w id = true -> is_running w' id = true.
Proof.
  unfold is_running. intros -> H. rewrite existsb_app, H. reflexivity.
Qed.

Lemma is_running_start (cs : list SimContainer) (id id' : string) (hc : HostConfigT) :
  existsb (fun c => has_id id c && running c) cs = true ->
  existsb (fun c => has_id id c && running c)
    (map (fun c => if has_id id' c
                   then mkC (ContainerInfo.mk (ContainerInfo.Id (info c))
                               (ContainerInfo.Image (info c))
                               (ContainerInfo.Args (info c))
                               (ContainerInfo.Config (info c)) hc) true
                   else c) cs) = true.
Proof.
  induction cs as [|c cs IH]; simpl; [discriminate|].
  intros H. apply orb_true_iff in H. apply orb_true_iff.
  destruct H as [H|H]; [left|right; now apply IH].
  apply andb_prop in H. destruct H as [H1 H2].
  destruct (has_id id' c); [|now rewrite H1, H2].
  unfold has_id in *. simpl. now rewrite H1.
Qed.

Lemma step_pull_quiet (rs : @RunState World) :
  faults (world (rs_st rs)) = [] ->
  exists w1,
    step_goroutine simManager config GPull rs
      = (GCreate,
         mkRun (mkSt w1 (calls (rs_st rs) ++ [PullImageC (ContainerConfig.Image config)]))
               (goroutines rs) (launched rs) (runErr rs) (wg rs)) /\
    faults w1 = [] /\ serial w1 = serial (world (rs_st rs)) /\
    containers w1 = containers (world (rs_st rs)).
Proof.
  intros Hq. cbn [step_goroutine]. unfold call.
  cbn [client simManager PullImage simClient]. unfold simPull.
  rewrite attempt_quiet by assumption. eexists. split; [reflexivity|].
  cbn [faults serial containers advance]. auto.
Qed.

Lemma step_create_quiet (rs : @RunState World) :
  faults (world (rs_st rs)) = [] ->
  exists w1 c,
    step_goroutine simManager config GCreate rs
      = (GStart (fresh_id (serial (world (rs_st rs)))),
         mkRun (mkSt w1 (calls (rs_st rs) ++ [CreateContainerC config EmptyString]))
               (goroutines rs) (launched rs) (runErr rs) (wg rs)) /\
    faults w1 = [] /\ serial w1 = S (serial (world (rs_st rs))) /\
    containers w1 = containers (world (rs_st rs)) ++ [c] /\
    has_id (fresh_id (serial (world (rs_st rs)))) c = true.
Proof.
  intros Hq. cbn [step_goroutine]. unfold call.
  cbn [client simManager CreateContainer simClient]. unfold simCreate.
  rewrite attempt_quiet by assumption. eexists. eexists. split; [reflexivity|].
  cbn [faults serial containers advance]. repeat split; try assumption.
  unfold has_id. cbn [info ContainerInfo.Id]. apply String.eqb_refl.
Qed.

Lemma step_start_quiet (id : string) (rs : @RunState World) :
  faults (world (rs_st rs)) = [] ->
  existsb (has_id id) (containers (world (rs_st rs))) = true ->
  exists w1,
    step_goroutine simManager config (GStart id) rs
      = (GLoad id,
         mkRun (mkSt w1 (calls (rs_st rs)
                           ++ [StartContainerC id (ContainerConfig.HostConfig config)]))
               (goroutines rs) (launched rs) (runErr rs) (wg rs)) /\
    faults w1 = [] /\ serial w1 = serial (world (rs_st rs)) /\
    is_running w1 id = true /\
    (forall id', is_running (world (rs_st rs)) id' = true -> is_running w1 id' = true).
Proof.
  intros Hq Hex. cbn [step_goroutine]. unfold call.
  cbn [client simManager StartContainer simClient]. unfold simStart.
  rewrite attempt_quiet by assumption. cbn [containers advance]. rewrite Hex.
  eexists. split; [reflexivity|].
  cbn [faults serial containers advance with_containers]. repeat split; try assumption.
  - unfold is_running. cbn [containers with_containers].
    clear -Hex. induction (containers (world (rs_st rs))) as [|c cs IH]; [discriminate|].
    simpl in *. destruct (has_id id c) eqn:E.
    + unfold has_id in *. simpl. now rewrite E.
    + simpl in Hex. rewrite E. simpl. now apply IH.
  - intros id' H. unfold is_running in *. cbn [containers with_containers].
    now apply is_running_start.
Qed.

(** The next goroutine runs from its first statement to its end. *)
Lemma sequential_next (pull : bool) (s0 k j : nat) (count : Z) (f : nat)
    (rs : @RunState World) :
  sequential pull s0 k (S j) count rs ->
  exists rs',
    schedule simManager config ((if pull then 6 else 5) + f) [] rs
      = schedule simManager config f [] rs' /\
    sequential pull s0 (S k) j count rs'.
Proof.
  intros (Hgs & Hl & He & Hwg & Hq & Hser & Hrun).
  cbn [repeat] in Hgs.
  (* the pull, when there is one, leads to the creation *)
  assert (Hcreate : exists rs1,
            schedule simManager config ((if pull then 6 else 5) + f) [] rs
              = schedule simManager config (5 + f) [] rs1 /\
            goroutines rs1
              = repeat GFinished k ++ GCreate :: repeat (if pull then GPull else GCreate) j /\
            launched rs1 = launched rs /\ runErr rs1 = runErr rs /\ wg rs1 = wg rs /\
            faults (world (rs_st rs1)) = [] /\
            serial (world (rs_st rs1)) = serial (world (rs_st rs)) /\
            containers (world (rs_st rs1)) = containers (world (rs_st rs))).
  { destruct pull.
    - destruct (step_pull_quiet rs Hq) as (w1 & Hstep & Hq1 & Hs1 & Hc1).
      eexists. split.
      + change (6 + f)%nat with (S (5 + f)).
        rewrite (schedule_first (5 + f) k GPull _ rs Hgs eq_refl), Hstep.
        cbn [fst snd rs_st launched runErr wg]. reflexivity.
      + cbn [goroutines launched runErr wg rs_st world]. auto 10.
    - exists rs. auto 10. }
  destruct Hcreate as (rs1 & Hsch1 & Hgs1 & Hl1 & He1 & Hwg1 & Hq1 & Hs1 & Hc1).
  rewrite Hsch1. clear Hsch1.
  destruct (step_create_quiet rs1 Hq1) as (w2 & c & Hstep2 & Hq2 & Hs2 & Hc2 & Hid2).
  change (5 + f)%nat with (S (4 + f)).
  rewrite (schedule_first (4 + f) k GCreate _ rs1 Hgs1 eq_refl), Hstep2.
  cbn [fst snd rs_st launched runErr wg].
  set (id := fresh_id (serial (world (rs_st rs1)))) in *.
  match goal with |- context [schedule _ _ _ _ ?r] => set (rs2 := r) end.
  assert (Hex : existsb (has_id id) (containers (world (rs_st rs2))) = true).
  { cbn [rs2 rs_st world]. rewrite Hc2, existsb_app. simpl. rewrite Hid2.
    now rewrite orb_true_r. }
  destruct (step_start_quiet id rs2 Hq2 Hex) as (w3 & Hstep3 & Hq3 & Hs3 & Hr3 & Hkeep3).
  change (4 + f)%nat with (S (3 + f)).
  rewrite (schedule_first (3 + f) k (GStart id) _ rs2 eq_refl eq_refl), Hstep3.
  cbn [fst snd rs_st launched runErr wg rs2].
  change (3 + f)%nat with (S (S (S f))).
  erewrite (schedule_first (S (S f)) k (GLoad id)); [|reflexivity|reflexivity].
  cbn [step_goroutine fst snd rs_st launched runErr wg].
  erewrite (schedule_first (S f) k (GStore _)); [|reflexivity|reflexivity].
  cbn [step_goroutine fst snd rs_st launched runErr wg].
  erewrite (schedule_first f k GDone); [|reflexivity|reflexivity].
  cbn [step_goroutine fst snd rs_st launched runErr wg].
  eexists. split; [reflexivity|].
  unfold sequential. cbn [goroutines launched runErr wg rs_st world].
  split.
  { clear. induction k as [|k IH]; simpl; [reflexivity|]. now rewrite IH. }
  split.
  { rewrite Hl1, Hl. rewrite seq_S, map_app. simpl. unfold id. now rewrite Hs1, Hser. }
  split; [congruence|].
  split; [rewrite Hwg1, Hwg; lia|].
  split; [assumption|].
  split; [rewrite Hs3; cbn [rs2 rs_st world]; rewrite Hs2, Hs1, Hser; lia|].
  rewrite Hl1. apply Forall_app. split.
  - eapply Forall_impl; [|exact Hrun]. intros id' Hid'. apply Hkeep3.
    cbn [rs2 rs_st world]. eapply is_running_app; [exact Hc2|].
    unfold is_running in *. now rewrite Hc1.
  - constructor; [exact Hr3|constructor].
Qed.

Lemma sequential_all (pull : bool) (s0 : nat) (count : Z) :
  forall (j k extra : nat) (rs : @RunState World),
    sequential pull s0 k j count rs ->
    sequential pull s0 (k + j) 0 count
      (schedule simManager config ((if pull then 6 else 5) * j + extra) [] rs).
Proof.
  induction j as [|j IH]; intros k extra rs Hs.
  - rewrite Nat.add_0_r. rewrite schedule_all_finished; [exact Hs|].
    destruct Hs as (Hgs & _). rewrite Hgs. simpl. rewrite app_nil_r.
    apply Forall_forall. intros g Hg. apply repeat_spec in Hg. now subst.
  - replace ((if pull then 6 else 5) * S j + extra)%nat
      with ((if pull then 6 else 5) + ((if pull then 6 else 5) * j + extra))%nat by lia.
    destruct (sequential_next pull s0 k j count
                ((if pull then 6 else 5) * j + extra)%nat rs Hs) as (rs' & Hsch & Hs').
    rewrite Hsch. replace (k + S j)%nat with (S k + j)%nat by lia. now apply IH.
Qed.

(** On an engine without faults a batch whose goroutines run one after the
    other returns: Run gives back the identifiers of the [n] containers it
    created, in order, with a nil error, and all of them are running. *)
Theorem Run_sequential_returns_all (n : nat) (pull : bool) (st : St World) :
  faults (world st) = [] ->
  exists st',
    Run simManager config (Z.of_nat n) pull [] st
      = (Returns (map fresh_id (seq (serial (world st)) n), None), st') /\
    Forall (fun id => is_running (world st') id = true)
           (map fresh_id (seq (serial (world st)) n)).
Proof.
  intros Hq.
  assert (Hinit : sequential pull (serial (world st)) 0 n (Z.of_nat n)
                    (Run_init (Z.of_nat n) pull st)).
  { unfold sequential, Run_init. cbn [goroutines launched runErr wg rs_st].
    rewrite Nat2Z.id. simpl. repeat split; try assumption; try lia. constructor. }
  pose proof (sequential_all pull (serial (world st)) (Z.of_nat n) n 0
                (if pull then 0 else n) _ Hinit) as Hfin.
  replace ((if pull then 6 else 5) * n + (if pull then 0 else n))%nat
    with (6 * n)%nat in Hfin by (destruct pull; lia).
  destruct Hfin as (Hgs & Hl & He & Hwg & _ & _ & Hrun). cbn [Nat.add] in Hl, Hwg.
  unfold Run. destruct (Z.of_nat n <? 0) eqn:E; [apply Z.ltb_lt in E; lia|].
  cbv zeta. unfold Run_final. rewrite Nat2Z.id.
  rewrite Hwg, Z.sub_diag. cbn [Z.eqb]. rewrite Hl, He.
  eexists. split; [reflexivity|]. rewrite <- Hl. exact Hrun.
Qed.

End SequentialBatch.

(** ** Redeployment on the simulated engine *)

Section SimRedeploy.
Import dockerclient manager trace sim sim_redeploy.
Local Open Scope list_scope.

Lemma fresh_id_inj (a b : nat) : fresh_id a = fresh_id b -> a = b.
Proof.
  unfold fresh_id. intros H. simpl in H. inversion H as [H'].
  assert (Hu : Nat.to_uint a = Nat.to_uint b).
  { pose proof (NilEmpty.usu (Nat.to_uint a)) as Ha.
    pose proof (NilEmpty.usu (Nat.to_uint b)) as Hb.
    rewrite H' in Ha. rewrite Ha in Hb. now inversion Hb. }
  rewrite <- (DecimalNat.Unsigned.of_to a), <- (DecimalNat.Unsigned.of_to b). now rewrite Hu.
Qed.

Lemma fresh_id_long (n : nat) : (String.length (fresh_id n) <? 8)%nat = false.
Proof. reflexivity. Qed.

Lemma find_app_l {A} (p : A -> bool) (l r : list A) (x : A) :
  find p l = Some x -> find p (l ++ r) = Some x.
Proof.
  induction l as [|a l IH]; simpl; [discriminate|].
  destruct (p a); [auto|exact IH].
Qed.

Lemma mInspect_found (st : St World) (id : string) (c : SimContainer) :
  faults (world st) = [] ->
  find (has_id id) (containers (world st)) = Some c ->
  mInspectContainer simManager id st
    = (Returns (Ok (info c)), mkSt (advance (world st)) (calls st ++ [InspectContainerC id])).
Proof.
  intros Hq Hf. unfold mInspectContainer, invoke, call.
  cbn [client simManager InspectContainer simClient]. unfold simInspect.
  rewrite attempt_quiet by assumption. cbn [containers advance]. now rewrite Hf.
Qed.

Lemma mPull_quiet (st : St World) (image : string) :
  faults (world st) = [] ->
  exists w1,
    mPullImage simManager image st
      = (Returns (Ok tt), mkSt w1 (calls st ++ [PullImageC image])) /\
    containers w1 = containers (world st) /\ same_books (world st) w1 /\
    serial w1 = serial (world st) /\ images w1 = images (world st) ++ [image].
Proof.
  intros Hq. unfold mPullImage, invoke, call.
  cbn [client simManager PullImage simClient]. unfold simPull.
  rewrite attempt_quiet by assumption. eexists. split; [reflexivity|].
  unfold same_books. cbn. auto.
Qed.

Lemma Destroy_quiet (id : string) (st : St World) :
  faults (world st) = [] ->
  existsb (has_id id) (containers (world st)) = true ->
  exists st',
    Destroy simManager id st = (Returns None, st') /\
    containers (world st') = filter (fun c => negb (has_id id c)) (containers (world st)) /\
    same_books (world st) (world st') /\
    serial (world st') = serial (world st) /\ images (world st') = images (world st).
Proof.
  intros Hq Hex.
  set (cs := containers (world st)) in *.
  set (mark := fun c : SimContainer => if has_id id c then mkC (info c) false else c).
  assert (Hm : existsb (has_id id) (map mark cs) = existsb (has_id id) cs /\
               filter (fun c => negb (has_id id c)) (map mark cs)
                 = filter (fun c => negb (has_id id c)) cs).
  { apply has_id_mark; intros c; unfold mark.
    - destruct (has_id id c); reflexivity.
    - intros ->. reflexivity. }
  destruct Hm as [Hm1 Hm2].
  set (w1 := with_containers (map mark cs) (advance (world st))).
  assert (Hk : KillContainer (client simManager) id "kill" (world st) = (Ok tt, w1)).
  { cbn [client simManager KillContainer simClient]. unfold simKill.
    rewrite attempt_quiet by assumption. cbn [containers advance].
    fold cs. rewrite Hex. reflexivity. }
  set (w2 := with_containers (filter (fun c => negb (has_id id c)) (map mark cs)) (advance w1)).
  assert (Hr : RemoveContainer (client simManager) id true w1 = (Ok tt, w2)).
  { cbn [client simManager RemoveContainer simClient]. unfold simRemove.
    rewrite attempt_quiet by exact Hq. cbn [containers advance w1 with_containers].
    rewrite Hm1, Hex. reflexivity. }
  rewrite (Destroy_kill_succeeds simManager id st w1 w2 (Ok tt) Hk Hr).
  eexists. split; [reflexivity|]. cbn [world]. unfold same_books.
  cbn [w2 w1 containers with_containers advance faults clock events serial images].
  rewrite Hm2. auto 10.
Qed.

Lemma mCreate_quiet (st : St World) (cfg : ContainerConfigT) :
  faults (world st) = [] ->
  exists w1,
    mCreateContainer simManager cfg EmptyString st
      = (Returns (Ok (fresh_id (serial (world st)))),
         mkSt w1 (calls st ++ [CreateContainerC cfg EmptyString])) /\
    containers w1
      = containers (world st)
          ++ [mkC (ContainerInfo.mk (fresh_id (serial (world st)))
                     (ContainerConfig.Image cfg) (ContainerConfig.Cmd cfg) cfg
                     (ContainerConfig.HostConfig cfg)) false] /\
    same_books (world st) w1 /\
    serial w1 = S (serial (world st)) /\ images w1 = images (world st).
Proof.
  intros Hq. unfold mCreateContainer, invoke, call.
  cbn [client simManager CreateContainer simClient]. unfold simCreate.
  rewrite attempt_quiet by assumption. eexists. split; [reflexivity|].
  unfold same_books. cbn. auto.
Qed.

Lemma mStart_last (st : St World) (id : string) (hc : HostConfigT)
    (X : list SimContainer) (c : SimContainer) :
  faults (world st) = [] ->
  containers (world st) = X ++ [c] ->
  ident c = id ->
  (forall x, In x X -> ident x <> id) ->
  exists w1,
    mStartContainer simManager id hc st
      = (Returns (Ok tt), mkSt w1 (calls st ++ [StartContainerC id hc])) /\
    containers w1
      = X ++ [mkC (ContainerInfo.mk (ContainerInfo.Id (info c)) (ContainerInfo.Image (info c))
                     (ContainerInfo.Args (info c)) (ContainerInfo.Config (info c)) hc) true] /\
    same_books (world st) w1 /\
    serial w1 = serial (world st) /\ images w1 = images (world st).
Proof.
  intros Hq Hcs Hid HX. unfold mStartContainer, invoke, call.
  cbn [client simManager StartContainer simClient]. unfold simStart.
  rewrite attempt_quiet by assumption. cbn [containers advance]. rewrite Hcs.
  assert (Hc : has_id id c = true).
  { unfold has_id. fold (ident c). rewrite Hid. apply String.eqb_refl. }
  assert (Hex : existsb (has_id id) (X ++ [c]) = true).
  { rewrite existsb_app. simpl. rewrite Hc. now rewrite orb_true_r. }
  rewrite Hex. eexists. split; [reflexivity|].
  unfold same_books. cbn [containers with_containers advance faults clock events serial images].
  split; [|auto 10].
  rewrite map_app. simpl. rewrite Hc. f_equal.
  clear -HX. induction X as [|x X IH]; [reflexivity|].
  simpl. rewrite IH by (intros y Hy; apply HX; now right).
  assert (Hx : has_id id x = false).
  { unfold has_id. fold (ident x). apply String.eqb_neq. apply HX. now left. }
  now rewrite Hx.
Qed.

(** The loop of RedeployContainers over the listed containers [l], on a
    quiet engine that holds the original containers [A] followed by the
    replacements [R] made so far. *)
Lemma RedeployContainers_loop_sim (image : string) :
  forall (l : list SimContainer) (d : bool) (st : St World) (A R : list SimContainer),
    faults (world st) = [] ->
    containers (world st) = A ++ R ->
    NoDup (map ident A) -> incl l A -> NoDup (map ident l) ->
    (forall c n, In c A -> ident c <> fresh_id n) ->
    (forall r, In r R -> exists n, (n < serial (world st))%nat /\ ident r = fresh_id n) ->
    exists st',
      RedeployContainers_loop simManager image (map entry l) d st
        = (Returns (LoopEnd (d || existsb (fun c => matches image (entry c)) l)), st') /\
      same_books (world st) (world st') /\
      images (world st')
        = images (world st) ++ repeat image (List.length (targets image l)) /\
      serial (world st') = (serial (world st) + List.length (targets image l))%nat /\
      containers (world st')
        = filter (survives (map info (targets image l))) A
            ++ R ++ replacements (targets image l) (serial (world st)).
Proof.
  induction l as [|c l IH]; intros d st A R Hq Hcs HndA Hincl Hndl HfreshA HR.
  - exists st. simpl. rewrite orb_false_r, !app_nil_r, Nat.add_0_r.
    split; [reflexivity|]. unfold same_books. repeat split; auto.
    rewrite Hcs. f_equal. symmetry. apply forallb_filter_id. now apply forallb_forall.
  - assert (HcA : In c A) by (apply Hincl; now left).
    assert (Hl : incl l A) by (intros x Hx; apply Hincl; now right).
    inversion Hndl as [|? ? Hcl Hndl']; subst.
    cbn [map RedeployContainers_loop]. fold (matches image (entry c)).
    unfold targets. cbn [filter existsb]. fold (targets image l).
    destruct (matches image (entry c)) eqn:Hm.
    2:{ rewrite orb_false_l. apply IH; assumption. }
    rewrite orb_true_l, orb_true_r.
    (* capture of the configuration *)
    change (Container.Id (entry c)) with (ident c).
    unfold bind at 1.
    rewrite (mInspect_found st (ident c) c Hq)
      by (rewrite Hcs; apply find_app_l; now apply find_has_id).
    (* pull *)
    set (st1 := mkSt (advance (world st)) (calls st ++ [InspectContainerC (ident c)])).
    destruct (mPull_quiet st1 image Hq) as (w2 & Hpull & Hc2 & Hb2 & Hs2 & Hi2).
    unfold bind at 1. rewrite Hpull.
    set (st2 := mkSt w2 (calls st1 ++ [PullImageC image])) in *.
    destruct Hb2 as (Hq2 & Hk2 & He2).
    cbn [st1 world advance faults clock events serial images containers]
      in Hc2, Hq2, Hk2, He2, Hs2, Hi2.
    assert (Hq2' : faults (world st2) = []) by (cbn [st2 world]; congruence).
    (* destroy *)
    assert (Hex : existsb (has_id (ident c)) (containers (world st2)) = true).
    { cbn [st2 world]. rewrite Hc2, Hcs. apply existsb_exists. exists c.
      split; [apply in_or_app; now left|]. unfold has_id. apply String.eqb_refl. }
    destruct (Destroy_quiet (ident c) st2 Hq2' Hex) as (st3 & Hdes & Hc3 & Hb3 & Hs3 & Hi3).
    unfold bind at 1. rewrite Hdes.
    destruct Hb3 as (Hq3 & Hk3 & He3). cbn [st2 world] in Hc3, Hq3, Hk3, He3, Hs3, Hi3.
    assert (HRkeep : filter (fun x => negb (has_id (ident c) x)) R = R).
    { apply forallb_filter_id. apply forallb_forall. intros r Hr.
      destruct (HR r Hr) as (n & _ & Hn). unfold has_id. fold (ident r).
      apply negb_true_iff, String.eqb_neq. rewrite Hn. intros Heq.
      exact (HfreshA c n HcA (eq_sym Heq)). }
    set (A' := filter (fun x => negb (has_id (ident c) x)) A).
    assert (Hc3' : containers (world st3) = A' ++ R).
    { rewrite Hc3, Hc2, Hcs, filter_app, HRkeep. reflexivity. }
    assert (Hq3' : faults (world st3) = []) by congruence.
    (* create *)
    destruct (mCreate_quiet st3 (ContainerInfo.Config (info c)) Hq3')
      as (w4 & Hcre & Hc4 & Hb4 & Hs4 & Hi4).
    unfold bind at 1. rewrite Hcre.
    set (st4 := mkSt w4 (calls st3 ++ [CreateContainerC (ContainerInfo.Config (info c))
                                         EmptyString])) in *.
    destruct Hb4 as (Hq4 & Hk4 & He4).
    assert (Hser3 : serial (world st3) = serial (world st)) by congruence.
    rewrite Hser3 in *.
    (* start *)
    assert (Hq4' : faults (world st4) = []) by (cbn [st4 world]; congruence).
    assert (HX : forall x, In x (A' ++ R) -> ident x <> fresh_id (serial (world st))).
    { intros x Hx. apply in_app_or in Hx. destruct Hx as [Hx|Hx].
      - apply filter_In in Hx. apply HfreshA. tauto.
      - destruct (HR x Hx) as (n & Hn & Hid). rewrite Hid. intros Heq.
        apply fresh_id_inj in Heq. lia. }
    destruct (mStart_last st4 (fresh_id (serial (world st)))
                (ContainerInfo.HostConfig (info c)) (A' ++ R) _ Hq4'
                ltac:(cbn [st4 world]; rewrite Hc4, Hc3'; reflexivity) eq_refl HX)
      as (w5 & Hsta & Hc5 & Hb5 & Hs5 & Hi5).
    unfold bind at 1. rewrite Hsta.
    destruct Hb5 as (Hq5 & Hk5 & He5). cbn [st4 world] in Hq5, Hk5, He5, Hs5, Hi5.
    rewrite fresh_id_long.
    set (st5 := mkSt w5 (calls st4 ++ [StartContainerC (fresh_id (serial (world st)))
                                         (ContainerInfo.HostConfig (info c))])).
    cbn [info ContainerInfo.Id ContainerInfo.Image ContainerInfo.Args ContainerInfo.Config]
      in Hc5.
    fold (replacement c (serial (world st))) in Hc5.
    (* the rest of the loop *)
    assert (Hnd' : NoDup (map ident A')) by (apply ident_distinct_filter; exact HndA).
    assert (Hl' : incl l A').
    { intros x Hx. apply filter_In. split; [now apply Hl|].
      unfold has_id. fold (ident x). apply negb_true_iff, String.eqb_neq.
      intros Heq. apply Hcl. rewrite <- Heq. now apply in_map. }
    destruct (IH true st5 A' (R ++ [replacement c (serial (world st))]))
      as (st' & Hrun & Hb' & Hi' & Hs' & Hc').
    + cbn [st5 world]. congruence.
    + cbn [st5 world]. rewrite Hc5, <- app_assoc. reflexivity.
    + exact Hnd'.
    + exact Hl'.
    + exact Hndl'.
    + intros x n Hx. apply filter_In in Hx. apply HfreshA. tauto.
    + intros r Hr. cbn [st5 world]. rewrite Hs5, Hs4.
      apply in_app_or in Hr. destruct Hr as [Hr|[<-|[]]].
      * destruct (HR r Hr) as (n & Hn & Hid). exists n. split; [lia|assumption].
      * exists (serial (world st)). split; [lia|reflexivity].
    + exists st'. rewrite Hrun. cbn [orb]. split; [reflexivity|].
      destruct Hb' as (Hq' & Hk' & He'). cbn [st5 world] in Hq', Hk', He', Hi', Hs', Hc'.
      split; [unfold same_books; repeat split; congruence|].
      split.
      { rewrite Hi', Hi5, Hi4, Hi3, Hi2. cbn [List.length repeat].
        rewrite <- app_assoc. reflexivity. }
      split; [rewrite Hs', Hs5, Hs4; cbn [List.length]; lia|].
      rewrite Hc', Hs5, Hs4. cbn [map replacements].
      rewrite <- !app_assoc. cbn [app]. f_equal.
      unfold A'. rewrite filter_filter. apply filter_ext. intros x.
      now rewrite survives_cons.
Qed.

(** RedeployContainers on a quiet engine: every running container whose
    image reference contains [image] is gone and a running container created
    from its configuration and started with its host configuration stands at
    the end of the list in its place, in the same order; every other
    container is as it was; the image was pulled once per replaced container
    and one event is saved if a container was replaced, none otherwise. *)
Theorem RedeployContainers_replaces_with_same_configuration (image : string) (st : St World) :
  faults (world st) = [] ->
  NoDup (map ident (containers (world st))) ->
  (forall c n, In c (containers (world st)) -> ident c <> fresh_id n) ->
  let old := targets image (filter running (containers (world st))) in
  exists st',
    RedeployContainers simManager image st = (Returns None, st') /\
    containers (world st')
      = filter (fun c => negb (existsb (fun t => String.eqb (ident c) (ident t)) old))
               (containers (world st))
          ++ replacements old (serial (world st)) /\
    images (world st') = images (world st) ++ repeat image (List.length old) /\
    events (world st')
      = events (world st)
          ++ (if List.length old =? 0 then [] else [deployEvent image (clock (world st))])%nat.
Proof.
  intros Hq Hnd Hfresh old.
  set (cs := containers (world st)) in *.
  unfold RedeployContainers, Containers, mListContainers.
  unfold bind at 1, invoke, call.
  cbn [client simManager ListContainers simClient]. unfold simList.
  rewrite attempt_quiet by assumption. cbn [containers advance orb]. fold cs.
  set (st1 := mkSt (advance (world st)) (calls st ++ [ListContainersC false false EmptyString])).
  change (filter (fun c => running c) cs) with (filter running cs).
  destruct (RedeployContainers_loop_sim image (filter running cs) false st1 cs [])
    as (st2 & Hrun & (Hq2 & Hk2 & He2) & Hi2 & Hs2 & Hc2).
  - exact Hq.
  - cbn [st1 world containers advance]. fold cs. now rewrite app_nil_r.
  - exact Hnd.
  - apply incl_filter.
  - apply ident_distinct_filter. exact Hnd.
  - exact Hfresh.
  - intros r [].
  - fold old in Hi2, Hs2, Hc2. cbn [st1 world advance faults clock events images serial] in *.
    unfold bind at 1.
    replace (filter (fun c => running c) cs) with (filter running cs)
      by (apply filter_ext; reflexivity).
    rewrite Hrun. cbn [orb].
    assert (Hold : existsb (fun c => matches image (entry c)) (filter running cs)
                   = negb (List.length old =? 0)%nat).
    { unfold old, targets. clear. induction (filter running cs) as [|c l IH]; [reflexivity|].
      simpl. destruct (matches image (entry c)); [reflexivity|exact IH]. }
    rewrite Hold.
    assert (Hcont : containers (world st2)
              = filter (fun c => negb (existsb (fun t => String.eqb (ident c) (ident t)) old)) cs
                  ++ replacements old (serial (world st))).
    { rewrite Hc2. cbn [app]. f_equal. apply filter_ext. intros c.
      unfold survives. f_equal. clear.
      induction old as [|t ts IH]; [reflexivity|]. simpl. now rewrite IH. }
    destruct (List.length old =? 0)%nat eqn:E; cbn [negb].
    + exists st2. split; [reflexivity|]. split; [exact Hcont|].
      split; [exact Hi2|]. rewrite He2. now rewrite app_nil_r.
    + cbv beta iota zeta delta [bind timeNowUnix SaveEvent mInsertEvent invoke call ret].
      cbn [client simManager session unixNow]. unfold simInsertEvent.
      rewrite attempt_quiet by congruence.
      eexists. split; [reflexivity|].
      cbn [world containers images events advance].
      split; [exact Hcont|]. split; [exact Hi2|]. now rewrite He2, Hk2.
Qed.

End SimRedeploy.

(** ** Lookups and scale-up on the simulated engine *)

Section MoreSimFacts.
Import dockerclient manager trace sim sim_batch.
Local Open Scope list_scope.

(** ContainersByImage on a quiet engine: it returns, in listing order, the
    descriptors of the listed containers (all of them, or the running ones)
    whose image reference contains [name], and leaves the engine's
    containers as they are; with the empty name that is every listed
    container. *)
Theorem ContainersByImage_returns_matching_listed (name : string) (all : bool)
    (st : St World) :
  faults (world st) = [] ->
  NoDup (map ident (containers (world st))) ->
  exists l st',
    ContainersByImage simManager name all st = (Returns (Ok l), st') /\
    containers (world st') = containers (world st) /\
    l = map info (filter (fun c => (all || running c) && matches name (entry c))
                         (containers (world st))) /\
    (forall b, In b l ->
       exists pre post, ContainerInfo.Image b = (pre ++ name ++ post)%string) /\
    (name = EmptyString ->
     l = map info (filter (fun c => all || running c) (containers (world st)))).
Proof.
  intros Hq Hnd.
  unfold ContainersByImage, Containers, mListContainers.
  unfold bind at 1, invoke, call.
  cbn [client simManager ListContainers simClient]. unfold simList.
  rewrite attempt_quiet by assumption. cbn [containers advance].
  set (cs := containers (world st)) in *.
  destruct (ContainersByImage_loop_sim name cs Hnd
              (filter (fun c => all || running c) cs) []
              (mkSt (advance (world st)) (calls st ++ [ListContainersC all false EmptyString])))
    as (st' & Hrun & Hq' & Hcs' & _); [apply incl_filter|assumption|reflexivity|].
  rewrite Hrun. simpl app. rewrite filter_filter.
  eexists. exists st'. split; [reflexivity|]. split; [exact Hcs'|].
  split; [reflexivity|]. split.
  - intros b Hb. apply in_map_iff in Hb. destruct Hb as (c & <- & Hc).
    apply filter_In in Hc. destruct Hc as [_ Hc]. apply andb_prop in Hc.
    destruct Hc as [_ Hm]. apply strings_facts.Index_spec in Hm. exact Hm.
  - intros ->. f_equal. apply filter_ext. intros c.
    assert (Hm : matches EmptyString (entry c) = true).
    { apply strings_facts.Index_spec. exists EmptyString, (Container.Image (entry c)).
      reflexivity. }
    rewrite Hm. apply andb_true_r.
Qed.

(** Scale-up on a quiet engine when the goroutines of the batch run one
    after the other: Scale returns no error, the reference comes back with
    an empty hostname, and [count - current] new containers are running. *)
Theorem Scale_up_sequential_launches_missing (container info0 : ContainerInfoT) (count : Z)
    (st st1 st2 : St World) (cls : list ContainerInfoT) :
  faults (world st) = [] ->
  NoDup (map ident (containers (world st))) ->
  mInspectContainer simManager (ContainerInfo.Id container) st = (Returns (Ok info0), st1) ->
  IdenticalContainers simManager info0 true st1 = (Returns (Ok cls), st2) ->
  Z.of_nat (List.length cls) < count ->
  let template := ContainerConfig.set_Hostname EmptyString (ContainerInfo.Config container) in
  let n := (Z.to_nat count - List.length cls)%nat in
  let launched := map fresh_id (seq (serial (world st2)) n) in
  exists st3,
    Scale simManager container count [] st
      = (Returns (ContainerInfo.set_Config template container, None), st3) /\
    List.length launched = n /\
    Forall (fun id => is_running (world st3) id = true) launched.
Proof.
  intros Hq Hnd Hi Hc Hcount template n launched.
  destruct (mInspect_sim_inv st st1 _ info0 Hq Hi) as (_ & Hq1 & Hcs1).
  destruct (IdenticalContainers_sim info0 true st1 _ Hq1 Hcs1 Hnd)
    as (st2' & Hc' & Hq2 & _).
  rewrite Hc in Hc'. inversion Hc'; subst st2'. clear Hc'.
  rewrite (Scale_up_unfold simManager container info0 count [] st st1 st2 cls Hi Hc Hcount).
  fold template.
  replace (count - Z.of_nat (List.length cls)) with (Z.of_nat n) by (unfold n; lia).
  destruct (Run_sequential_returns_all template n false st2 Hq2) as (st3 & HR & Hrun).
  rewrite HR. exists st3. split; [reflexivity|].
  split; [unfold launched; now rewrite length_map, length_seq|exact Hrun].
Qed.

End MoreSimFacts.

(** ** Accounts, tokens and keys on every database *)

Section StoreFacts.
Import dockerclient manager trace store.
Local Open Scope list_scope.

Context {W : Type}.
Variable m : Manager W.
Variable db : Backend W.

(** A lookup ends in one of two ways, and issues no call to the engine or
    the event table. *)
Lemma Account_outcome (username : string) (st : St W) :
  exists p st1,
    Account db username st = (Returns p, st1) /\ calls st1 = calls st /\
    ((exists a, p = (Some a, None)) \/ (exists e, p = (None, Some e))).
Proof.
  unfold Account, bind, run, ret.
  destruct (accountsFilterUsername db username (world st)) as [[res|e] w1].
  - destruct (IsNil res).
    + eexists. eexists. split; [reflexivity|]. split; [reflexivity|]. right. eauto.
    + destruct (One res) as [a|e]; eexists; eexists;
        (split; [reflexivity|]); (split; [reflexivity|]); [left|right]; eauto.
  - eexists. eexists. split; [reflexivity|]. split; [reflexivity|]. right. eauto.
Qed.

Lemma ServiceKey_outcome (key : string) (st : St W) :
  exists p st1,
    ServiceKey db key st = (Returns p, st1) /\ calls st1 = calls st /\
    ((exists k, p = (Some k, None)) \/ (exists e, p = (None, Some e))).
Proof.
  unfold ServiceKey, bind, run, ret.
  destruct (serviceKeysFilterKey db key (world st)) as [[res|e] w1].
  - destruct (IsNil res).
    + eexists. eexists. split; [reflexivity|]. split; [reflexivity|]. right. eauto.
    + destruct (One res) as [a|e]; eexists; eexists;
        (split; [reflexivity|]); (split; [reflexivity|]); [left|right]; eauto.
  - eexists. eexists. split; [reflexivity|]. split; [reflexivity|]. right. eauto.
Qed.

Lemma WebhookKey_outcome (key : string) (st : St W) :
  exists p st1,
    WebhookKey db key st = (Returns p, st1) /\ calls st1 = calls st /\
    ((exists k, p = (Some k, None)) \/ (exists e, p = (None, Some e))).
Proof.
  unfold WebhookKey, bind, run, ret.
  destruct (webhookKeysFilterKey db key (world st)) as [[res|e] w1].
  - destruct (IsNil res).
    + eexists. eexists. split; [reflexivity|]. split; [reflexivity|]. right. eauto.
    + destruct (One res) as [a|e]; eexists; eexists;
        (split; [reflexivity|]); (split; [reflexivity|]); [left|right]; eauto.
  - eexists. eexists. split; [reflexivity|]. split; [reflexivity|]. right. eauto.
Qed.

Lemma VerifyAuthToken_loop_In (token : string) (tokens : list AuthToken.t) :
  VerifyAuthToken_loop token tokens = true <-> In token (map AuthToken.Token tokens).
Proof.
  induction tokens as [|t rest IH]; simpl.
  - split; [discriminate|tauto].
  - destruct (String.eqb token (AuthToken.Token t)) eqn:E.
    + apply String.eqb_eq in E. split; [intros _; left; congruence|reflexivity].
    + apply String.eqb_neq in E. rewrite IH. split; [tauto|]. intros [H|H]; [congruence|exact H].
Qed.

(** VerifyAuthToken accepts exactly the tokens stored with the account: it
    hands on the error of the lookup, returns nil when the token is the
    value of one of the account's tokens, whatever its user agent, and
    ErrInvalidAuthToken otherwise; it writes nothing. *)
Theorem VerifyAuthToken_accepts_stored_tokens (username token : string) (st : St W) :
  (forall e st1,
     Account db username st = (Returns (None, Some e), st1) ->
     VerifyAuthToken db username token st = (Returns (Some e), st1)) /\
  (forall acct st1,
     Account db username st = (Returns (Some acct, None), st1) ->
     exists out,
       VerifyAuthToken db username token st = (Returns out, st1) /\
       (out = None <-> In token (map AuthToken.Token (Account.Tokens acct))) /\
       (out <> None -> out = Some ErrInvalidAuthToken)).
Proof.
  split.
  - intros e st1 H. unfold VerifyAuthToken, bind. rewrite H. reflexivity.
  - intros acct st1 H. unfold VerifyAuthToken, bind. rewrite H.
    pose proof (VerifyAuthToken_loop_In token (Account.Tokens acct)) as HI.
    destruct (VerifyAuthToken_loop token (Account.Tokens acct)).
    + exists None. split; [reflexivity|]. split; [tauto|congruence].
    + exists (Some ErrInvalidAuthToken). split; [reflexivity|].
      split; [|reflexivity]. split; [discriminate|].
      intros Hin. apply HI in Hin. discriminate.
Qed.


(** The loop of NewAuthToken changes the first token of the user agent and
    no other. *)
Lemma NewAuthToken_loop_found (userAgent tk : string) (old : list AuthToken.t) :
  forall tokens token,
    NewAuthToken_loop userAgent tk old = Some (tokens, token) ->
    exists pre t post,
      old = pre ++ t :: post /\
      Forall (fun x => String.eqb (AuthToken.UserAgent x) userAgent = false) pre /\
      AuthToken.UserAgent t = userAgent /\
      token = AuthToken.set_Token tk t /\
      tokens = pre ++ token :: post.
Proof.
  induction old as [|t rest IH]; intros tokens token H; simpl in H; [discriminate|].
  destruct (String.eqb (AuthToken.UserAgent t) userAgent) eqn:E.
  - inversion H; subst. apply String.eqb_eq in E.
    exists [], t, rest. repeat split; auto.
  - destruct (NewAuthToken_loop userAgent tk rest) as [[rest' tok]|] eqn:L; [|discriminate].
    inversion H; subst.
    destruct (IH _ _ eq_refl) as (pre & t0 & post & -> & Hpre & Ht & Htok & ->).
    exists (t :: pre), t0, post. repeat split; auto.
Qed.

Lemma NewAuthToken_loop_missing (userAgent tk : string) (old : list AuthToken.t) :
  NewAuthToken_loop userAgent tk old = None ->
  Forall (fun x => String.eqb (AuthToken.UserAgent x) userAgent = false) old.
Proof.
  induction old as [|t rest IH]; intros H; simpl in H; [constructor|].
  destruct (String.eqb (AuthToken.UserAgent t) userAgent) eqn:E; [discriminate|].
  destruct (NewAuthToken_loop userAgent tk rest) as [[rest' tok]|]; [discriminate|].
  constructor; auto.
Qed.

Lemma other_agents_keep (userAgent : string) (l : list AuthToken.t) :
  Forall (fun x => String.eqb (AuthToken.UserAgent x) userAgent = false) l ->
  filter (fun x => negb (String.eqb (AuthToken.UserAgent x) userAgent)) l = l /\
  existsb (fun x => String.eqb (AuthToken.UserAgent x) userAgent) l = false.
Proof.
  induction 1 as [|x l Hx Hl [IH1 IH2]]; [split; reflexivity|].
  simpl. rewrite Hx, IH1, IH2. split; reflexivity.
Qed.

(** What NewAuthToken writes: the tokens of the account with the first
    token of the user agent refreshed, or with a new token at the end. *)
Lemma NewAuthToken_tokens_spec (userAgent tk : string) (old : list AuthToken.t) :
  let other := fun x => negb (String.eqb (AuthToken.UserAgent x) userAgent) in
  let known := existsb (fun x => String.eqb (AuthToken.UserAgent x) userAgent) old in
  let (tokens, token) := NewAuthToken_tokens userAgent tk old in
  AuthToken.Token token = tk /\ AuthToken.UserAgent token = userAgent /\
  In token tokens /\
  map AuthToken.UserAgent tokens
    = map AuthToken.UserAgent old ++ (if known then [] else [userAgent]) /\
  filter other tokens = filter other old.
Proof.
  intros other known. unfold NewAuthToken_tokens.
  destruct (NewAuthToken_loop userAgent tk old) as [[tokens token]|] eqn:L.
  - destruct (NewAuthToken_loop_found _ _ _ _ _ L)
      as (pre & t & post & Hold & Hpre & Ht & Htok & Htokens).
    destruct (other_agents_keep _ _ Hpre) as [Hf He].
    assert (Hk : known = true).
    { unfold known. rewrite Hold, existsb_app, He. simpl.
      rewrite Ht, String.eqb_refl. reflexivity. }
    rewrite Hk, app_nil_r. subst token tokens old.
    split; [reflexivity|]. split; [exact Ht|].
    split; [apply in_or_app; right; left; reflexivity|].
    split.
    + rewrite !map_app. reflexivity.
    + unfold other. rewrite !filter_app. simpl. rewrite Ht, String.eqb_refl. reflexivity.
  - pose proof (NewAuthToken_loop_missing _ _ _ L) as Hall.
    destruct (other_agents_keep _ _ Hall) as [Hf He].
    fold known in He. rewrite He.
    split; [reflexivity|]. split; [reflexivity|].
    split; [apply in_or_app; right; left; reflexivity|].
    split.
    + rewrite map_app. reflexivity.
    + unfold other. rewrite filter_app. simpl. rewrite String.eqb_refl. simpl.
      apply app_nil_r.
Qed.

(** NewAuthToken keeps one token per user agent.  Once the token is
    generated, the account found and the delete query answered, the list it
    hands to the update holds the returned token, which carries the generated
    value and the user agent; the user agents of the list are those of the
    account, with the new one at the end when it was unknown; the tokens of
    the other user agents are what they were; and VerifyAuthToken's loop
    accepts the generated value on that list.  The token is returned when the
    update succeeds, and the update's error alone otherwise. *)
Theorem NewAuthToken_replaces_or_appends (username userAgent tk : string)
    (acct : Account.t) (st : St W) (w1 : W) (st2 : St W) (w3 : W) :
  Authenticator.GenerateToken (authenticator db) (world st) = (Ok tk, w1) ->
  Account db username (mkSt w1 (calls st)) = (Returns (Some acct, None), st2) ->
  accountsDeleteUserAgent db username userAgent (world st2) = (Ok tt, w3) ->
  let other := fun x => negb (String.eqb (AuthToken.UserAgent x) userAgent) in
  let known := existsb (fun x => String.eqb (AuthToken.UserAgent x) userAgent)
                       (Account.Tokens acct) in
  exists tokens token,
    (forall r w4,
       accountsUpdateTokens db username tokens w3 = (r, w4) ->
       NewAuthToken db username userAgent st
         = (Returns (match r with
                     | Ok _ => (Some token, None)
                     | Err e => (None, Some (Passed e))
                     end), mkSt w4 (calls st))) /\
    AuthToken.Token token = tk /\ AuthToken.UserAgent token = userAgent /\
    In token tokens /\
    map AuthToken.UserAgent tokens
      = map AuthToken.UserAgent (Account.Tokens acct) ++ (if known then [] else [userAgent]) /\
    filter other tokens = filter other (Account.Tokens acct) /\
    VerifyAuthToken_loop tk tokens = true.
Proof.
  intros Hg Ha Hd other known.
  pose proof (NewAuthToken_tokens_spec userAgent tk (Account.Tokens acct)) as Hs.
  cbv zeta in Hs.
  destruct (NewAuthToken_tokens userAgent tk (Account.Tokens acct)) as [tokens token] eqn:Ht.
  destruct Hs as (H1 & H2 & H3 & H4 & H5).
  exists tokens, token.
  split; [|repeat split; try assumption].
  - intros r w4 Hu.
    destruct (Account_outcome username (mkSt w1 (calls st))) as (p & st2' & Ha' & Hc & _).
    rewrite Ha in Ha'. inversion Ha'; subst p st2'. clear Ha'. simpl in Hc.
    unfold NewAuthToken. unfold bind at 1. unfold run at 1. rewrite Hg.
    unfold bind at 1. rewrite Ha. rewrite Ht.
    unfold bind at 1. unfold run at 1. rewrite Hd.
    unfold bind, run. cbn [world calls]. rewrite Hu, Hc.
    destruct r as [[]|e]; reflexivity.
  - apply VerifyAuthToken_loop_In. rewrite <- H1. apply in_map. exact H3.
Qed.


(** SaveAccount always returns, and what it hands back is the caller's
    account with at most the password changed: when it returns nil the
    password is the hash the authenticator gave for the caller's password.
    It saves at most one event, the add-account event of the user name; for
    an account that exists it runs the password update alone, whatever else
    the caller's account holds, and saves no event. *)
Theorem SaveAccount_returns_hashed_account (account : Account.t) (st : St W) :
  exists account' err st',
    SaveAccount m db account st = (Returns (account', err), st') /\
    Account.ID account' = Account.ID account /\
    Account.Username account' = Account.Username account /\
    Account.Tokens account' = Account.Tokens account /\
    (err = None ->
     exists hash w1,
       Authenticator.Hash (authenticator db) (Account.Password account) (world st)
         = (Ok hash, w1) /\
       Account.Password account' = hash) /\
    (calls st' = calls st \/
     exists now,
       calls st' = calls st ++ [InsertEventC
                                  (Event.mk "add-account" EmptyString now
                                     ("name=" ++ Account.Username account)
                                     ["cluster"; "security"])]) /\
    (forall hash w1 stored st2 r w3,
       Authenticator.Hash (authenticator db) (Account.Password account) (world st)
         = (Ok hash, w1) ->
       Account db (Account.Username account) (mkSt w1 (calls st))
         = (Returns (Some stored, None), st2) ->
       accountsUpdatePassword db (Account.Username account) hash (world st2) = (r, w3) ->
       st' = mkSt w3 (calls st) /\
       account' = Account.set_Password hash account /\
       err = match r with Ok _ => None | Err e => Some (Passed e) end).
Proof.
  unfold SaveAccount. unfold bind at 1. unfold run at 1.
  destruct (Authenticator.Hash (authenticator db) (Account.Password account) (world st))
    as [[hash|e] w1] eqn:Hh.
  2: { exists account, (Some (Passed e)), (mkSt w1 (calls st)).
       split; [reflexivity|]. repeat split; try reflexivity.
       - discriminate.
       - left. reflexivity.
       - discriminate.
       - discriminate.
       - discriminate. }
  unfold bind at 1.
  destruct (Account_outcome (Account.Username account) (mkSt w1 (calls st)))
    as (p & st2 & Ha & Hc & Hp).
  rewrite Ha. simpl in Hc.
  destruct Hp as [[stored ->]|[e ->]].
  - (* the account exists *)
    cbn [Account.set_Password Account.Username].
    unfold bind, run, ret.
    destruct (accountsUpdatePassword db (Account.Username account) hash (world st2))
      as [r w3] eqn:Hu.
    exists (Account.set_Password hash account),
           (match r with Ok _ => None | Err e => Some (Passed e) end),
           (mkSt w3 (calls st)).
    rewrite Hc.
    split; [destruct r as [[]|e]; reflexivity|].
    split; [reflexivity|]. split; [reflexivity|]. split; [reflexivity|].
    split; [intros _; exists hash, w1; split; reflexivity|].
    split; [left; reflexivity|].
    intros hash' w1' stored' st2' r' w3' Hh' Ha' Hu'.
    inversion Hh'; subst hash' w1'. rewrite Ha in Ha'. inversion Ha'; subst stored' st2'.
    rewrite Hu in Hu'. inversion Hu'; subst r' w3'. repeat split.
  - (* the lookup failed *)
    assert (Hno : forall hash' w1' stored' st2',
              (Ok hash, w1) = (Ok hash', w1') ->
              Account db (Account.Username account) (mkSt w1' (calls st))
                = (Returns (Some stored', None), st2') -> False).
    { intros hash' w1' stored' st2' Hh' Ha'. inversion Hh'; subst.
      rewrite Ha in Ha'. discriminate. }
    destruct e;
      try (exists account; eexists; eexists; split; [reflexivity|];
           repeat split; try reflexivity;
           [discriminate | left; exact Hc
           | exfalso; eapply Hno; eassumption
           | exfalso; eapply Hno; eassumption
           | exfalso; eapply Hno; eassumption ]).
    (* the account does not exist *)
    cbn [Account.set_Password Account.Username].
    unfold bind at 1. unfold run at 1.
    destruct (accountsInsert db (Account.set_Password hash account) (world st2))
      as [[[]|e] w3] eqn:Hi.
    + unfold bind at 1, timeNowUnix. cbn [world].
      unfold bind at 1, saveEvent, SaveEvent, mInsertEvent.
      unfold bind at 1. unfold bind at 1. unfold invoke, call. cbn [world calls].
      match goal with
      | |- context [session m ?evt w3] => destruct (session m evt w3) as [[[]|e] w4] eqn:Hs
      end.
      * eexists. eexists. eexists. split; [reflexivity|].
        repeat split; try reflexivity.
        -- intros _. exists hash, w1. split; reflexivity.
        -- right. exists (unixNow m w3). rewrite Hc. reflexivity.
        -- exfalso; eapply Hno; eassumption.
        -- exfalso; eapply Hno; eassumption.
        -- exfalso; eapply Hno; eassumption.
      * eexists. eexists. eexists. split; [reflexivity|].
        repeat split; try reflexivity.
        -- discriminate.
        -- right. exists (unixNow m w3). rewrite Hc. reflexivity.
        -- exfalso; eapply Hno; eassumption.
        -- exfalso; eapply Hno; eassumption.
        -- exfalso; eapply Hno; eassumption.
    + eexists. eexists. eexists. split; [reflexivity|].
      repeat split; try reflexivity.
      * discriminate.
      * left. exact Hc.
      * exfalso; eapply Hno; eassumption.
      * exfalso; eapply Hno; eassumption.
      * exfalso; eapply Hno; eassumption.
Qed.


Lemma substring_whole (s : string) : String.substring 0 (String.length s) s = s.
Proof. induction s as [|c s IH]; simpl; [reflexivity|]. now rewrite IH. Qed.

(** A string is its first [n] bytes followed by the slice from [n] on. *)
Lemma substring_tail (s : string) :
  forall n, (n <= String.length s)%nat ->
    s = (String.substring 0 n s ++ String.substring n (String.length s - n) s)%string /\
    String.length (String.substring n (String.length s - n) s) = (String.length s - n)%nat.
Proof.
  induction s as [|c s IH]; intros [|n] Hn; simpl in Hn; try lia.
  - split; reflexivity.
  - change (String.length (String c s) - 0)%nat with (S (String.length s)).
    cbn [String.substring append]. rewrite substring_whole. split; reflexivity.
  - destruct (IH n ltac:(lia)) as [H1 H2].
    change (String.length (String c s) - S n)%nat with (String.length s - n)%nat.
    cbn [String.substring append]. split; [f_equal; exact H1|exact H2].
Qed.

(** NewServiceKey makes the key from the generated token without its first
    24 bytes, and panics on a token that is shorter.  When the insertion of
    the key fails nothing else happens; when it succeeds one more usage
    reporter is started and the add-service-key event is saved, and the key
    is returned only if saving the event succeeds: on a failure there the key
    is in the table and the caller gets the error alone. *)
Theorem NewServiceKey_key_is_token_tail (description tk : string) (st : St W) (w1 : W) :
  Authenticator.GenerateToken (authenticator db) (world st) = (Ok tk, w1) ->
  ((String.length tk < 24)%nat ->
   NewServiceKey m db description st = (Panics, mkSt w1 (calls st))) /\
  ((24 <= String.length tk)%nat ->
   exists key,
     tk = (String.substring 0 24 tk ++ ServiceKey.Key key)%string /\
     String.length (ServiceKey.Key key) = (String.length tk - 24)%nat /\
     ServiceKey.Description key = description /\
     (forall e w2,
        serviceKeysInsert db key w1 = (Err e, w2) ->
        NewServiceKey m db description st
          = (Returns (None, Some (Passed e)), mkSt w2 (calls st))) /\
     (forall w2 r w4,
        serviceKeysInsert db key w1 = (Ok tt, w2) ->
        let w3 := goUsageReport db w2 in
        let evt := Event.mk "add-service-key" EmptyString (unixNow m w3)
                     ("description=" ++ description) ["cluster"; "security"] in
        session m evt w3 = (r, w4) ->
        NewServiceKey m db description st
          = (Returns (match r with
                      | Ok _ => (Some key, None)
                      | Err e => (None, Some (Passed e))
                      end),
             mkSt w4 (calls st ++ [InsertEventC evt])))).
Proof.
  intros Hg.
  assert (HN : NewServiceKey m db description st
               = if (String.length tk <? 24)%nat then (Panics, mkSt w1 (calls st))
                 else
                   let key := ServiceKey.mk
                                (String.substring 24 (String.length tk - 24) tk) description in
                   match SaveServiceKey m db key (mkSt w1 (calls st)) with
                   | (Returns (Some err), st') => (Returns (None, Some err), st')
                   | (Returns None, st') => (Returns (Some key, None), st')
                   | (Panics, st') => (Panics, st')
                   | (Blocks, st') => (Blocks, st')
                   end).
  { unfold NewServiceKey. unfold bind at 1. unfold run at 1. rewrite Hg.
    destruct (String.length tk <? 24)%nat; [reflexivity|].
    cbv zeta. unfold bind at 1.
    destruct (SaveServiceKey m db _ _) as [[[e|]| |] st']; reflexivity. }
  rewrite HN. clear HN. split.
  - intros Hlt. apply Nat.ltb_lt in Hlt. rewrite Hlt. reflexivity.
  - intros Hge.
    assert (Hnlt : (String.length tk <? 24)%nat = false) by (apply Nat.ltb_ge; exact Hge).
    rewrite Hnlt. cbv zeta.
    destruct (substring_tail tk 24 Hge) as [H1 H2].
    exists (ServiceKey.mk (String.substring 24 (String.length tk - 24) tk) description).
    split; [exact H1|]. split; [exact H2|]. split; [reflexivity|]. split.
    + intros e w2 Hi. unfold SaveServiceKey. unfold bind at 1. unfold run at 1.
      cbn [world calls]. rewrite Hi. reflexivity.
    + intros w2 r w4 Hi Hs.
      unfold SaveServiceKey. unfold bind at 1. unfold run at 1.
      cbn [world calls]. rewrite Hi.
      cbv beta iota zeta delta [bind init timeNowUnix saveEvent SaveEvent mInsertEvent
                                 invoke call ret world calls ServiceKey.Description].
      rewrite Hs. destruct r as [[]|e]; reflexivity.
Qed.

(** NewWebhookKey never panics in generateId: with a digest of 32 bytes the
    key it inserts has 16 lower-case hexadecimal digits, an empty ID and the
    image.  The key is returned only if the insertion and the saving of the
    add-webhook-key event both succeed; a failed insertion saves no event. *)
Theorem NewWebhookKey_key_has_16_hex_digits (image : string) (st : St W) :
  (forall bs, List.length (Sum256 db bs) = 32%nat) ->
  exists k,
    String.length k = 16%nat /\
    (forall c, In c (list_ascii_of_string k) ->
       In c (list_ascii_of_string "0123456789abcdef")) /\
    let key := WebhookKey.mk EmptyString k image in
    (forall e w1,
       webhookKeysInsert db key (world st) = (Err e, w1) ->
       NewWebhookKey m db image st
         = (Returns (None, Some (Passed e)), mkSt w1 (calls st))) /\
    (forall w1 r w2,
       webhookKeysInsert db key (world st) = (Ok tt, w1) ->
       let evt := Event.mk "add-webhook-key" EmptyString (unixNow m w1)
                    ("image=" ++ image) ["docker"; "webhook"] in
       session m evt w1 = (r, w2) ->
       NewWebhookKey m db image st
         = (Returns (match r with
                     | Ok _ => (Some key, None)
                     | Err e => (None, Some (Passed e))
                     end),
            mkSt w2 (calls st ++ [InsertEventC evt]))).
Proof.
  intros Hsum.
  destruct (generateId_within (Sum256 db) (timeNowString db (world st)) 16 Hsum)
    as (k & Hk & Hlen & Hhex); [lia|].
  exists k. split; [exact Hlen|]. split; [exact Hhex|].
  intros key. split.
  - intros e w1 Hi. unfold NewWebhookKey. unfold bind at 1, generateId16. rewrite Hk.
    fold key. unfold bind at 1, SaveWebhookKey. unfold bind at 1. unfold run at 1.
    rewrite Hi. reflexivity.
  - intros w1 r w2 Hi evt Hs.
    unfold NewWebhookKey. unfold bind at 1, generateId16. rewrite Hk.
    fold key. unfold bind at 1, SaveWebhookKey. unfold bind at 1. unfold run at 1.
    rewrite Hi.
    cbv beta iota zeta delta [bind timeNowUnix saveEvent SaveEvent mInsertEvent
                               invoke call ret world calls WebhookKey.Image key].
    fold evt. rewrite Hs. destruct r as [[]|e]; reflexivity.
Qed.

(** RemoveServiceKey saves its event before it deletes.  A key that is not
    found gives the error of the lookup and nothing else; when saving the
    event fails the key is not deleted; and when the deletion fails after
    that, the error is returned while the remove-service-key event stays
    saved. *)
Theorem RemoveServiceKey_event_before_delete (key : string) (st : St W) :
  (forall e st1,
     ServiceKey db key st = (Returns (None, Some e), st1) ->
     RemoveServiceKey m db key st = (Returns (Some e), st1)) /\
  (forall k st1 r w2,
     ServiceKey db key st = (Returns (Some k, None), st1) ->
     let evt := Event.mk "remove-service-key" EmptyString (unixNow m (world st1))
                  ("description=" ++ ServiceKey.Description k) ["cluster"; "security"] in
     session m evt (world st1) = (r, w2) ->
     match r with
     | Err e =>
         RemoveServiceKey m db key st
           = (Returns (Some (Passed e)), mkSt w2 (calls st ++ [InsertEventC evt]))
     | Ok _ =>
         forall r' w3,
           serviceKeysDeleteKey db key w2 = (r', w3) ->
           RemoveServiceKey m db key st
             = (Returns (match r' with Ok _ => None | Err e => Some (Passed e) end),
                mkSt w3 (calls st ++ [InsertEventC evt]))
     end).
Proof.
  split.
  - intros e st1 H. unfold RemoveServiceKey. unfold bind at 1. rewrite H. reflexivity.
  - intros k st1 r w2 H evt Hs.
    destruct (ServiceKey_outcome key st) as (p & st1' & H' & Hc & _).
    rewrite H in H'. inversion H'; subst p st1'. clear H'.
    assert (HR : RemoveServiceKey m db key st
                 = match r with
                   | Err e => (Returns (Some (Passed e)),
                               mkSt w2 (calls st ++ [InsertEventC evt]))
                   | Ok _ =>
                       let (r', w3) := serviceKeysDeleteKey db key w2 in
                       (Returns (match r' with Ok _ => None | Err e => Some (Passed e) end),
                        mkSt w3 (calls st ++ [InsertEventC evt]))
                   end).
    { unfold RemoveServiceKey. unfold bind at 1. rewrite H.
      destruct st1 as [wa ca]. cbn [world calls] in *. subst ca.
      unfold bind at 1, timeNowUnix. cbn [world calls].
      fold evt. unfold bind at 1, saveEvent, SaveEvent, mInsertEvent.
      unfold bind at 1. unfold bind at 1. unfold invoke, call. cbn [world calls].
      rewrite Hs.
      destruct r as [[]|e]; [|reflexivity].
      unfold ret, bind, run. cbn [world calls].
      destruct (serviceKeysDeleteKey db key w2) as [[[]|e] w3]; reflexivity. }
    rewrite HR. destruct r as [[]|e]; [|reflexivity].
    intros r' w3 Hd. rewrite Hd. reflexivity.
Qed.

(** DeleteWebhookKey deletes before it saves its event, and deletes by the
    ID of the key it found.  A key that is not found, a failed deletion or a
    nil answer of the deletion save no event; the delete-webhook-key event
    carries the image and the key of the key found, and an error saving it is
    returned although the key is gone. *)
Theorem DeleteWebhookKey_delete_before_event (id : string) (st : St W) :
  (forall e st1,
     WebhookKey db id st = (Returns (None, Some e), st1) ->
     DeleteWebhookKey m db id st = (Returns (Some e), st1)) /\
  (forall key st1 r w2,
     WebhookKey db id st = (Returns (Some key, None), st1) ->
     webhookKeysGetDelete db (WebhookKey.ID key) (world st1) = (r, w2) ->
     match r with
     | Err e => DeleteWebhookKey m db id st = (Returns (Some (Passed e)), mkSt w2 (calls st))
     | Ok true =>
         DeleteWebhookKey m db id st
           = (Returns (Some ErrWebhookKeyDoesNotExist), mkSt w2 (calls st))
     | Ok false =>
         let evt := Event.mk "delete-webhook-key" EmptyString (unixNow m w2)
                      ("image=" ++ WebhookKey.Image key ++ " key=" ++ WebhookKey.Key key)
                      ["docker"; "webhook"] in
         forall r' w3,
           session m evt w2 = (r', w3) ->
           DeleteWebhookKey m db id st
             = (Returns (match r' with Ok _ => None | Err e => Some (Passed e) end),
                mkSt w3 (calls st ++ [InsertEventC evt]))
     end).
Proof.
  split.
  - intros e st1 H. unfold DeleteWebhookKey. unfold bind at 1. rewrite H. reflexivity.
  - intros key st1 r w2 H Hd.
    destruct (WebhookKey_outcome id st) as (p & st1' & H' & Hc & _).
    rewrite H in H'. inversion H'; subst p st1'. clear H'.
    assert (HD : DeleteWebhookKey m db id st
                 = match r with
                   | Err e => (Returns (Some (Passed e)), mkSt w2 (calls st))
                   | Ok true => (Returns (Some ErrWebhookKeyDoesNotExist), mkSt w2 (calls st))
                   | Ok false =>
                       let evt := Event.mk "delete-webhook-key" EmptyString (unixNow m w2)
                                    ("image=" ++ WebhookKey.Image key ++ " key="
                                       ++ WebhookKey.Key key)
                                    ["docker"; "webhook"] in
                       let (r', w3) := session m evt w2 in
                       (Returns (match r' with Ok _ => None | Err e => Some (Passed e) end),
                        mkSt w3 (calls st ++ [InsertEventC evt]))
                   end).
    { unfold DeleteWebhookKey. unfold bind at 1. rewrite H.
      unfold bind at 1. unfold run at 1. rewrite Hd, Hc.
      destruct r as [[|]|e]; try reflexivity.
      cbv beta iota zeta delta [bind timeNowUnix saveEvent SaveEvent mInsertEvent
                                 invoke call ret world calls].
      match goal with
      | |- context [session m ?e w2] => destruct (session m e w2) as [[[]|e'] w3]
      end; reflexivity. }
    rewrite HD. destruct r as [[|]|e]; try reflexivity.
    intros evt r' w3 Hs. cbv zeta. fold evt. rewrite Hs. reflexivity.
Qed.

End StoreFacts.

(** ** Accounts, tokens and keys on the simulated database *)

Section SimStore.
Import dockerclient manager trace sim store sim_store.
Local Open Scope list_scope.

Lemma query_quiet {R} (f : Tables -> result R * Tables) (t : Tables) :
  faults (engine t) = [] -> query f t = f (counted t).
Proof. intros H. unfold query, faulty. rewrite H. reflexivity. Qed.

Lemma Account_sim (username : string) (st : St Tables) :
  faults (engine (world st)) = [] ->
  Account simBackend username st
    = (Returns (match filter (named username) (accounts (world st)) with
                | [] => (None, Some ErrAccountDoesNotExist)
                | a :: _ => (Some a, None)
                end),
       mkSt (counted (world st)) (calls st)).
Proof.
  intros Hq. unfold Account, bind, run. cbn [accountsFilterUsername simBackend].
  rewrite query_quiet by assumption. cbn [accounts counted with_engine].
  destruct (filter (named username) (accounts (world st))); reflexivity.
Qed.

Lemma ServiceKey_sim (key : string) (st : St Tables) :
  faults (engine (world st)) = [] ->
  ServiceKey simBackend key st
    = (Returns (match filter (keyed key) (service_keys (world st)) with
                | [] => (None, Some ErrServiceKeyDoesNotExist)
                | k :: _ => (Some k, None)
                end),
       mkSt (counted (world st)) (calls st)).
Proof.
  intros Hq. unfold ServiceKey, bind, run. cbn [serviceKeysFilterKey simBackend].
  rewrite query_quiet by assumption. cbn [service_keys counted with_engine].
  destruct (filter (keyed key) (service_keys (world st))); reflexivity.
Qed.

Lemma digest_eqb (p q : string) : String.eqb (digest p) (digest q) = String.eqb p q.
Proof. reflexivity. Qed.


Lemma on_engine_insert_quiet (evt : Event.t) (t : Tables) :
  faults (engine t) = [] ->
  on_engine (simInsertEvent evt) t
    = (Ok tt, with_engine
                (mkW (containers (engine t)) (images (engine t))
                     (events (engine t) ++ [evt]) (clock (engine t))
                     (S (tick (engine t))) (faults (engine t)) (serial (engine t))) t).
Proof.
  intros Hq. unfold on_engine, simInsertEvent, attempt, faulty.
  destruct (engine t) as [cs imgs evs clk tk fs ser] eqn:E. cbn in Hq |- *.
  subst fs. reflexivity.
Qed.

Lemma saveEvent_sim (evt : Event.t) (st : St Tables) :
  faults (engine (world st)) = [] ->
  exists st',
    saveEvent storeManager evt st = (Returns None, st') /\
    calls st' = calls st ++ [InsertEventC evt] /\
    faults (engine (world st')) = [] /\
    events (engine (world st')) = events (engine (world st)) ++ [evt] /\
    accounts (world st') = accounts (world st) /\
    service_keys (world st') = service_keys (world st) /\
    webhook_keys (world st') = webhook_keys (world st) /\
    reporters (world st') = reporters (world st).
Proof.
  intros Hq. unfold saveEvent, SaveEvent, mInsertEvent, bind, invoke, call.
  cbn [session storeManager]. rewrite on_engine_insert_quiet by assumption.
  eexists. split; [reflexivity|]. cbn. repeat split; try reflexivity. exact Hq.
Qed.

Lemma filter_named_update (u h : string) (l : list Account.t) :
  filter (named u) (map (fun a => if named u a then Account.set_Password h a else a) l)
    = map (Account.set_Password h) (filter (named u) l) /\
  filter (fun a => negb (named u a))
         (map (fun a => if named u a then Account.set_Password h a else a) l)
    = filter (fun a => negb (named u a)) l.
Proof.
  induction l as [|a l [IH1 IH2]]; [split; reflexivity|].
  simpl. destruct (named u a) eqn:E.
  - assert (E' : named u (Account.set_Password h a) = true) by exact E.
    rewrite E'. simpl. rewrite IH1, IH2. split; reflexivity.
  - rewrite E. simpl. rewrite IH1, IH2. split; reflexivity.
Qed.

(** On a database that fails no query, an account that was saved can
    authenticate with the password it was saved with and with no other,
    whether the user name was new or known; the rows of the other user names
    are left as they are. *)
Theorem SaveAccount_then_Authenticate (account : Account.t) (password : string)
    (st : St Tables) :
  faults (engine (world st)) = [] ->
  exists st1 st2,
    SaveAccount storeManager simBackend account st
      = (Returns (Account.set_Password (digest (Account.Password account)) account, None),
         st1) /\
    Authenticate simBackend (Account.Username account) password st1
      = (Returns (String.eqb (Account.Password account) password), st2) /\
    filter (fun a => negb (named (Account.Username account) a)) (accounts (world st1))
      = filter (fun a => negb (named (Account.Username account) a)) (accounts (world st)).
Proof.
  intros Hq. set (u := Account.Username account). set (h := digest (Account.Password account)).
  unfold SaveAccount. unfold bind at 1. unfold run at 1.
  cbn [Authenticator.Hash authenticator simBackend simAuthenticator].
  rewrite query_quiet by assumption. fold h.
  unfold bind at 1. rewrite Account_sim by exact Hq. cbn [world calls accounts counted with_engine].
  fold u.
  destruct (filter (named u) (accounts (world st))) as [|a0 rest] eqn:Hf.
  - (* a new user name *)
    assert (Hn : named u (Account.set_Password h account) = true)
      by (unfold named, u; simpl; apply String.eqb_refl).
    cbn [Account.set_Password Account.Username]. fold u.
    unfold bind at 1. unfold run at 1. cbn [accountsInsert simBackend world calls].
    rewrite query_quiet by exact Hq.
    unfold bind at 1, timeNowUnix. cbn [world calls].
    unfold bind at 1.
    match goal with
    | |- context [saveEvent storeManager ?evt ?s] =>
        destruct (saveEvent_sim evt s Hq) as (st1 & Hs & _ & Hq1 & _ & Hacc & _)
    end.
    rewrite Hs. unfold ret.
    exists st1. eexists. split; [reflexivity|].
    cbn [world accounts with_accounts counted with_engine] in Hacc.
    split.
    + unfold Authenticate. unfold bind at 1. rewrite Account_sim by exact Hq1.
      rewrite Hacc, filter_app, Hf. cbn [filter app]. rewrite Hn.
      cbn [Account.Password Account.set_Password].
      unfold ret. cbn [Authenticator.Authenticate authenticator simBackend simAuthenticator].
      unfold h. rewrite digest_eqb. reflexivity.
    + rewrite Hacc, filter_app. cbn [filter]. rewrite Hn. cbn [negb]. apply app_nil_r.
  - (* a known user name *)
    cbn [Account.set_Password Account.Username]. fold u.
    unfold bind at 1. unfold run at 1. cbn [accountsUpdatePassword simBackend world calls].
    rewrite query_quiet by exact Hq. unfold ret.
    eexists. eexists. split; [reflexivity|].
    destruct (filter_named_update u h (accounts (world st))) as [H1 H2].
    split.
    + unfold Authenticate. unfold bind at 1. rewrite Account_sim by exact Hq.
      cbn [world accounts with_accounts counted with_engine].
      rewrite H1, Hf. cbn [map Account.set_Password Account.Password].
      unfold ret. cbn [Authenticator.Authenticate authenticator simBackend simAuthenticator].
      unfold h. rewrite digest_eqb. reflexivity.
    + cbn [world accounts with_accounts counted with_engine]. exact H2.
Qed.


Lemma filter_named_tokens (u : string) (l : list AuthToken.t) (rows : list Account.t) :
  filter (named u) (map (fun a => if named u a then with_tokens l a else a) rows)
    = map (with_tokens l) (filter (named u) rows).
Proof.
  induction rows as [|a rows IH]; [reflexivity|].
  simpl. destruct (named u a) eqn:E.
  - assert (E' : named u (with_tokens l a) = true) by exact E.
    rewrite E'. simpl. now rewrite IH.
  - rewrite E. exact IH.
Qed.

(** On a database that fails no query, the token NewAuthToken returns for an
    account is accepted by VerifyAuthToken afterwards, and so is every token
    the account held for another user agent. *)
Theorem NewAuthToken_then_VerifyAuthToken (username userAgent : string) (st : St Tables)
    (acct : Account.t) (rest : list Account.t) :
  faults (engine (world st)) = [] ->
  filter (named username) (accounts (world st)) = acct :: rest ->
  exists tok st1,
    NewAuthToken simBackend username userAgent st = (Returns (Some tok, None), st1) /\
    AuthToken.UserAgent tok = userAgent /\
    AuthToken.Token tok = token (minted (world st)) /\
    fst (VerifyAuthToken simBackend username (AuthToken.Token tok) st1) = Returns None /\
    (forall t, In t (Account.Tokens acct) -> AuthToken.UserAgent t <> userAgent ->
       fst (VerifyAuthToken simBackend username (AuthToken.Token t) st1) = Returns None).
Proof.
  intros Hq Hf.
  pose proof (NewAuthToken_tokens_spec userAgent (token (minted (world st)))
                (Account.Tokens acct)) as Hs.
  cbv zeta in Hs.
  unfold NewAuthToken. unfold bind at 1. unfold run at 1.
  cbn [Authenticator.GenerateToken authenticator simBackend simAuthenticator].
  rewrite query_quiet by assumption.
  cbn [minted counted with_engine].
  unfold bind at 1. rewrite Account_sim by exact Hq.
  cbn [world calls accounts mint counted with_engine]. rewrite Hf.
  destruct (NewAuthToken_tokens userAgent (token (minted (world st))) (Account.Tokens acct))
    as [tokens tok] eqn:Ht.
  destruct Hs as (H1 & H2 & H3 & H4 & H5).
  unfold bind at 1. unfold run at 1. cbn [accountsDeleteUserAgent simBackend world calls].
  rewrite query_quiet by exact Hq.
  unfold bind at 1. unfold run at 1. cbn [accountsUpdateTokens simBackend world calls].
  rewrite query_quiet by exact Hq. unfold ret.
  assert (Hv : forall value st1,
            faults (engine (world st1)) = [] ->
            filter (named username) (accounts (world st1))
              = map (with_tokens tokens) (acct :: rest) ->
            In value (map AuthToken.Token tokens) ->
            fst (VerifyAuthToken simBackend username value st1) = Returns None).
  { intros value st1 Hq1 Hrows Hin. unfold VerifyAuthToken. unfold bind at 1.
    rewrite Account_sim by exact Hq1. rewrite Hrows. cbn [map with_tokens Account.Tokens].
    apply VerifyAuthToken_loop_In in Hin. rewrite Hin. reflexivity. }
  eexists. eexists. split; [reflexivity|].
  split; [exact H2|]. split; [exact H1|].
  split.
  - apply Hv; [exact Hq| |apply in_map; exact H3].
    cbn [world accounts with_accounts counted with_engine mint].
    rewrite filter_named_tokens, Hf. reflexivity.
  - intros t Hin Hua. apply Hv; [exact Hq| |].
    + cbn [world accounts with_accounts counted with_engine mint].
      rewrite filter_named_tokens, Hf. reflexivity.
    + apply in_map.
      assert (Hk : In t (filter (fun x => negb (String.eqb (AuthToken.UserAgent x) userAgent))
                                tokens)).
      { rewrite H5. apply filter_In. split; [exact Hin|].
        apply negb_true_iff. apply String.eqb_neq. exact Hua. }
      apply filter_In in Hk. tauto.
Qed.

Lemma filter_keyed_gone (k : string) (l : list ServiceKey.t) :
  filter (keyed k) (filter (fun s => negb (keyed k s)) l) = [].
Proof.
  induction l as [|s l IH]; [reflexivity|].
  simpl. destruct (keyed k s) eqn:E; simpl; [exact IH|]. rewrite E. exact IH.
Qed.

(** On a database that fails no query, a service key lives as expected:
    the key NewServiceKey returns is accepted by VerifyServiceKey, it is
    removed by RemoveServiceKey, and it is refused afterwards with
    ErrServiceKeyDoesNotExist.  Making the key starts one more usage
    reporter, and the two events are saved in this order. *)
Theorem NewServiceKey_Verify_Remove (description : string) (st : St Tables) :
  faults (engine (world st)) = [] ->
  exists key st1 st2 st3 st4 removed,
    NewServiceKey storeManager simBackend description st = (Returns (Some key, None), st1) /\
    VerifyServiceKey simBackend (ServiceKey.Key key) st1 = (Returns None, st2) /\
    RemoveServiceKey storeManager simBackend (ServiceKey.Key key) st2 = (Returns None, st3) /\
    VerifyServiceKey simBackend (ServiceKey.Key key) st3
      = (Returns (Some ErrServiceKeyDoesNotExist), st4) /\
    reporters (world st1) = S (reporters (world st)) /\
    map Event.Type_ (events (engine (world st3)))
      = map Event.Type_ (events (engine (world st)))
          ++ ["add-service-key"%string; "remove-service-key"%string] /\
    calls st3 = calls st ++ [InsertEventC
                               (Event.mk "add-service-key" EmptyString
                                  (clock (engine (world st)))
                                  ("description=" ++ description) ["cluster"; "security"]);
                             InsertEventC removed].
Proof.
  intros Hq.
  set (tk := token (minted (world st))).
  set (key := ServiceKey.mk (String.substring 24 (String.length tk - 24) tk) description).
  set (added := Event.mk "add-service-key" EmptyString (clock (engine (world st)))
                  ("description=" ++ description) ["cluster"; "security"]).
  assert (HN : exists st1,
            NewServiceKey storeManager simBackend description st
              = (Returns (Some key, None), st1) /\
            faults (engine (world st1)) = [] /\
            service_keys (world st1) = service_keys (world st) ++ [key] /\
            reporters (world st1) = S (reporters (world st)) /\
            events (engine (world st1)) = events (engine (world st)) ++ [added] /\
            calls st1 = calls st ++ [InsertEventC added]).
  { unfold NewServiceKey. unfold bind at 1. unfold run at 1.
    cbn [Authenticator.GenerateToken authenticator simBackend simAuthenticator].
    rewrite query_quiet by assumption.
    cbn [minted counted with_engine]. fold tk.
    assert (Hlen : (String.length tk <? 24)%nat = false) by (unfold tk, token; reflexivity).
    rewrite Hlen. fold key.
    unfold bind at 1, SaveServiceKey. unfold bind at 1. unfold run at 1.
    cbn [serviceKeysInsert simBackend world calls]. rewrite query_quiet by exact Hq.
    unfold bind at 1, init. cbn [world calls goUsageReport simBackend].
    unfold bind at 1, timeNowUnix. cbn [world calls].
    match goal with
    | |- context [saveEvent storeManager ?evt ?s] =>
        destruct (saveEvent_sim evt s Hq)
          as (st1 & Hs & Hc1 & Hq1 & Hev1 & _ & Hk1 & _ & Hr1)
    end.
    rewrite Hs. unfold ret.
    cbn [world calls service_keys reporters engine with_service_keys counted with_engine mint
         unixNow storeManager advance clock events ServiceKey.Description key] in Hc1, Hev1, Hk1, Hr1.
    exists st1. split; [reflexivity|]. split; [exact Hq1|]. split; [exact Hk1|].
    split; [exact Hr1|]. split; [exact Hev1|exact Hc1]. }
  destruct HN as (st1 & HNew & Hq1 & Hk1 & Hr1 & Hev1 & Hc1).
  assert (Hrows : exists k0 more, filter (keyed (ServiceKey.Key key)) (service_keys (world st1))
                                  = k0 :: more).
  { rewrite Hk1, filter_app. cbn [filter]. unfold keyed at 2. rewrite String.eqb_refl.
    destruct (filter (keyed (ServiceKey.Key key)) (service_keys (world st))); simpl; eauto. }
  destruct Hrows as (k0 & more & Hrows).
  set (removed := Event.mk "remove-service-key" EmptyString (clock (engine (world st1)))
                    ("description=" ++ ServiceKey.Description k0) ["cluster"; "security"]).
  assert (HR : exists st3,
            RemoveServiceKey storeManager simBackend (ServiceKey.Key key)
              (mkSt (counted (world st1)) (calls st1)) = (Returns None, st3) /\
            faults (engine (world st3)) = [] /\
            service_keys (world st3)
              = filter (fun s => negb (keyed (ServiceKey.Key key) s)) (service_keys (world st1)) /\
            events (engine (world st3)) = events (engine (world st1)) ++ [removed] /\
            calls st3 = calls st1 ++ [InsertEventC removed]).
  { unfold RemoveServiceKey. unfold bind at 1.
    rewrite ServiceKey_sim by exact Hq1. cbn [world calls service_keys counted with_engine].
    rewrite Hrows.
    unfold bind at 1, timeNowUnix. cbn [world calls].
    unfold bind at 1.
    match goal with
    | |- context [saveEvent storeManager ?evt ?s] =>
        destruct (saveEvent_sim evt s Hq1)
          as (sa & Hsa & Hca & Hqa & Heva & _ & Hka & _)
    end.
    rewrite Hsa. unfold bind at 1. unfold run at 1.
    cbn [serviceKeysDeleteKey simBackend]. rewrite query_quiet by exact Hqa. unfold ret.
    eexists. split; [reflexivity|].
    cbn [world calls service_keys engine with_service_keys counted with_engine
         unixNow storeManager advance clock events faults] in *.
    split; [exact Hqa|]. split; [now rewrite Hka|]. split; [exact Heva|exact Hca]. }
  destruct HR as (st3 & HRm & Hq3 & Hk3 & Hev3 & Hc3).
  exists key, st1, (mkSt (counted (world st1)) (calls st1)), st3,
         (mkSt (counted (world st3)) (calls st3)), removed.
  split; [exact HNew|].
  split.
  { unfold VerifyServiceKey, bind. rewrite ServiceKey_sim by exact Hq1. rewrite Hrows.
    reflexivity. }
  split; [exact HRm|].
  split.
  { unfold VerifyServiceKey, bind. rewrite ServiceKey_sim by exact Hq3.
    rewrite Hk3, filter_keyed_gone. reflexivity. }
  split; [exact Hr1|].
  split.
  { rewrite Hev3, Hev1, !map_app, <- app_assoc. reflexivity. }
  rewrite Hc3, Hc1, <- app_assoc. reflexivity.
Qed.

End SimStore.

(** ** Instances of the further properties *)

Section MoreInstances.
Import dockerclient manager trace trace_more sim sim_short sim_redeploy sim_batch fleet.
Import eventhandler utils.
Local Open Scope list_scope.

(** The first match fails to be inspected: the second call of the engine fails, and Container returns that error although a later replica has the prefix too. *)
Lemma Container_stops_at_first_match_witness :
  let st := boot [db; web1; web2] [1%nat] in
  exists e w1 w2,
    ListContainers (client simManager) true false EmptyString (world st)
      = (Ok ([entry db] ++ entry web1 :: [entry web2]), w1) /\
    InspectContainer (client simManager) "aaaaaaaa1" w1 = (Err e, w2) /\
    Container simManager "aaaa" st
      = (Returns (None, Some e),
         mkSt w2 (calls st ++ [ListContainersC true false EmptyString;
                               InspectContainerC "aaaaaaaa1"])).
Proof.
  eexists. eexists. eexists.
  split; [reflexivity|]. split; [reflexivity|].
  eapply (proj2 (Container_stops_at_first_match simManager "aaaa" (boot [db; web1; web2] [1%nat]))
            [entry db] (entry web1) [entry web2]).
  - reflexivity.
  - intros c [<-|[]]. reflexivity.
  - reflexivity.
  - reflexivity.
Defined.

(** The class of the replica of image app, drawn from the three containers whose image reference contains app. *)
Lemma IdenticalContainers_refines_ContainersByImage_witness :
  let st := boot [web1; db; web2; app] [] in
  fst (ContainersByImage simManager (ContainerInfo.Image (info app)) true st)
    = Returns (Ok [info web1; info web2; info app]) /\
  exists cls,
    fst (IdenticalContainers simManager (info app) true st) = Returns (Ok cls) /\
    cls = filter (fun c =>
            (ContainerConfig.Memory (ContainerInfo.Config c)
               =? ContainerConfig.Memory (ContainerInfo.Config (info app)))
            && (List.length (ContainerInfo.Args c)
                  =? List.length (ContainerInfo.Args (info app)))%nat)
            [info web1; info web2; info app] /\
    (List.length cls <= 3)%nat.
Proof.
  assert (H : fst (ContainersByImage simManager (ContainerInfo.Image (info app)) true
                     (boot [web1; db; web2; app] []))
              = Returns (Ok [info web1; info web2; info app])) by (vm_compute; reflexivity).
  split; [exact H|].
  destruct (IdenticalContainers_refines_ContainersByImage simManager (info app) true
              (boot [web1; db; web2; app] [])) as (st' & _ & _ & _ & Hok).
  exact (Hok _ H).
Defined.

(** A class of two members scaled to two. *)
Lemma Scale_at_count_is_noop_witness :
  let st := boot [web1; db; web2] [] in
  exists st1 st2,
    mInspectContainer simManager (ContainerInfo.Id (info web1)) st
      = (Returns (Ok (info web1)), st1) /\
    IdenticalContainers simManager (info web1) true st1
      = (Returns (Ok [info web1; info web2]), st2) /\
    Scale simManager (info web1) 2 [] st = (Returns (info web1, None), st2).
Proof.
  eexists. eexists. split; [reflexivity|]. split; [vm_compute; reflexivity|].
  eapply (Scale_at_count_is_noop simManager (info web1) (info web1) 2 []
            (boot [web1; db; web2] [])).
  - reflexivity.
  - vm_compute; reflexivity.
  - reflexivity.
Defined.

(** The listing behind the classification fails. *)
Lemma Scale_lookup_failure_witness :
  let st := boot [web1; db; web2] [1%nat] in
  exists st1 e st2,
    mInspectContainer simManager (ContainerInfo.Id (info web1)) st
      = (Returns (Ok (info web1)), st1) /\
    IdenticalContainers simManager (info web1) true st1 = (Returns (Err e), st2) /\
    Scale simManager (info web1) 5 [] st = (Returns (info web1, Some e), st2).
Proof.
  eexists. eexists. eexists. split; [reflexivity|]. split; [vm_compute; reflexivity|].
  eapply (proj2 (Scale_lookup_failure simManager (info web1) 5 []
                   (boot [web1; db; web2] [1%nat]))).
  - reflexivity.
  - vm_compute; reflexivity.
Defined.

(** Only a database container is running: nothing carries the image. *)
Lemma RedeployContainers_nothing_to_do_witness :
  let st := boot [db; parked] [] in
  exists w1,
    ListContainers (client simManager) false false EmptyString (world st)
      = (Ok [entry db], w1) /\
    RedeployContainers simManager "myapp" st
      = (Returns None, mkSt w1 (calls st ++ [ListContainersC false false EmptyString])).
Proof.
  eexists. split; [reflexivity|].
  eapply (proj2 (RedeployContainers_nothing_to_do simManager "myapp" (boot [db; parked] []))).
  - reflexivity.
  - intros c pre post [<-|[]] H.
    assert (Hi : (strings.Index (Container.Image (entry db)) "myapp" >? -1) = true).
    { apply strings_facts.Index_spec. exists pre, post. exact H. }
    vm_compute in Hi. discriminate Hi.
Defined.

(** Two running containers of different images, both redeployed. *)
Lemma RedeployContainers_empty_string_selects_all_witness :
  let st := boot [web1; db; parked] [] in
  exists w1 st' new,
    ListContainers (client simManager) false false EmptyString (world st)
      = (Ok [entry web1; entry db], w1) /\
    RedeployContainers simManager EmptyString st = (Returns None, st') /\
    calls st' = calls st ++ new /\
    List.length (filter is_pull new) = 2%nat /\
    List.length (filter is_event new) = 1%nat.
Proof.
  destruct (RedeployContainers_empty_string_selects_all simManager (boot [web1; db; parked] [])
              [entry web1; entry db]
              (advance (world (boot [web1; db; parked] []))) eq_refl)
    as (_ & out & st' & new & Hr & Hc & Hn).
  assert (Ho : out = Returns None).
  { assert (E : fst (RedeployContainers simManager EmptyString (boot [web1; db; parked] []))
                = Returns None) by (vm_compute; reflexivity).
    rewrite Hr in E. exact E. }
  subst out. destruct (Hn eq_refl) as [H1 H2].
  eexists. exists st', new. split; [reflexivity|]. split; [exact Hr|].
  split; [exact Hc|]. split; [exact H1|exact H2].
Defined.

(** A batch of two in which the fourth call of the engine fails. *)
Lemma Run_never_returns_an_error_witness :
  0 <= 2 /\
  (fst (Run simManager template 2 true [1; 0; 1]%nat (boot [] [3%nat])) = Blocks \/
   exists l, fst (Run simManager template 2 true [1; 0; 1]%nat (boot [] [3%nat]))
               = Returns (l, None) /\
             Z.of_nat (List.length l) <= 2).
Proof.
  split; [lia|].
  apply (Run_never_returns_an_error simManager template 2 true [1; 0; 1]%nat
           (boot [] [3%nat])).
  lia.
Defined.

(** A batch of two on an empty engine. *)
Lemma Run_returns_started_ids_witness :
  let st := boot [] [] in
  exists st',
    Run simManager template 2 false [] st
      = (Returns ([fresh_id 0; fresh_id 1], None), st') /\
    exists new,
      calls st' = calls st ++ new /\
      forall id, In id [fresh_id 0; fresh_id 1] ->
        In (StartContainerC id (ContainerConfig.HostConfig template)) new.
Proof.
  eexists. split; [vm_compute; reflexivity|].
  eapply (Run_returns_started_ids simManager template 2 false [] (boot [] [])).
  vm_compute; reflexivity.
Defined.

(** A batch of three in which the third call of the engine fails. *)
Lemma Run_pulls_once_per_goroutine_witness :
  let st := boot [] [2%nat] in
  0 <= 3 /\
  exists new,
    calls (snd (Run simManager template 3 true [2; 0; 1]%nat st)) = calls st ++ new /\
    List.length (filter is_pull new) = Z.to_nat 3 /\
    (forall name, In (PullImageC name) new -> name = ContainerConfig.Image template) /\
    (forall cfg name, In (CreateContainerC cfg name) new -> cfg = template).
Proof.
  split; [lia|].
  apply (Run_pulls_once_per_goroutine simManager template 3 [2; 0; 1]%nat (boot [] [2%nat])).
  lia.
Defined.

(** The event table refuses the event, and Handle returns nil all the same. *)
Lemma Handle_saves_one_event_and_hides_errors_witness :
  let e := docker_event.mk "0123456789abcdef" "die" "myapp:v1" 1700000123 in
  let evt := Event.mk "die" "0123456789abcdef" 1700000123 EmptyString ["docker"] in
  let st := boot [web1] [0%nat] in
  exists err w1,
    (12 <= String.length (docker_event.Id e))%nat /\
    session simManager evt (world st) = (Err err, w1) /\
    Handle simManager e st = (Returns None, mkSt w1 (calls st ++ [InsertEventC evt])) /\
    logDockerEvent simManager e st
      = (Returns (Some err), mkSt w1 (calls st ++ [InsertEventC evt])).
Proof.
  eexists. eexists. split; [simpl; lia|]. split; [reflexivity|].
  eapply (proj2 (Handle_saves_one_event_and_hides_errors simManager
                   (docker_event.mk "0123456789abcdef" "die" "myapp:v1" 1700000123)
                   (boot [web1] [0%nat])) (Err _)).
  - simpl; lia.
  - reflexivity.
Defined.

(** A stand-in digest of 32 bytes that depends on its input. *)
Lemma generateId_length_and_alphabet_witness :
  let Sum256 := fun bs : list Byte.byte => firstn 32 (bs ++ repeat Byte.x2a 32) in
  (forall bs, List.length (Sum256 bs) = 32%nat) /\
  exists s,
    generateId Sum256 "2014-11-03 10:00:00 +0000 UTC" 12 = Returns s /\
    String.length s = Z.to_nat 12 /\
    (forall c, In c (list_ascii_of_string s) ->
       In c (list_ascii_of_string "0123456789abcdef")).
Proof.
  assert (H : forall bs : list Byte.byte,
            List.length (firstn 32 (bs ++ repeat Byte.x2a 32)) = 32%nat).
  { intros bs. rewrite length_firstn, length_app, repeat_length. lia. }
  split; [exact H|].
  apply (proj1 (generateId_length_and_alphabet _ "2014-11-03 10:00:00 +0000 UTC" 12 H)).
  lia.
Defined.

(** A batch of three with pull on an engine that holds one container. *)
Lemma Run_sequential_returns_all_witness :
  let st := boot [web1] [] in
  faults (world st) = [] /\
  exists st',
    Run simManager template (Z.of_nat 3) true [] st
      = (Returns (map fresh_id (seq (serial (world st)) 3), None), st') /\
    Forall (fun id => is_running (world st') id = true)
           (map fresh_id (seq (serial (world st)) 3)).
Proof.
  split; [reflexivity|].
  apply (Run_sequential_returns_all template 3 true (boot [web1] [])).
  reflexivity.
Defined.

(** Two running replicas of the image among four containers. *)
Lemma RedeployContainers_replaces_with_same_configuration_witness :
  let st := boot [web1; db; parked; web2] [] in
  faults (world st) = [] /\
  NoDup (map ident (containers (world st))) /\
  (forall c n, In c (containers (world st)) -> ident c <> fresh_id n) /\
  exists st',
    RedeployContainers simManager "myapp" st = (Returns None, st') /\
    containers (world st') = [db; parked; replacement web1 0; replacement web2 1] /\
    images (world st') = ["myapp"; "myapp"] /\
    events (world st') = [deployEvent "myapp" 1700000000].
Proof.
  assert (Hq : faults (world (boot [web1; db; parked; web2] [])) = []) by reflexivity.
  assert (Hnd : NoDup (map ident (containers (world (boot [web1; db; parked; web2] []))))).
  { simpl. repeat constructor; simpl; intuition discriminate. }
  assert (Hf : forall c n, In c (containers (world (boot [web1; db; parked; web2] []))) ->
                           ident c <> fresh_id n).
  { intros c n [<-|[<-|[<-|[<-|[]]]]]; unfold fresh_id; simpl; discriminate. }
  split; [exact Hq|]. split; [exact Hnd|]. split; [exact Hf|].
  exact (RedeployContainers_replaces_with_same_configuration "myapp" _ Hq Hnd Hf).
Defined.

(** The running containers whose image reference contains app. *)
Lemma ContainersByImage_returns_matching_listed_witness :
  let st := boot [web1; db; parked; app] [] in
  faults (world st) = [] /\
  NoDup (map ident (containers (world st))) /\
  exists l st',
    ContainersByImage simManager "app" false st = (Returns (Ok l), st') /\
    containers (world st') = containers (world st) /\
    l = [info web1; info app] /\
    (forall b, In b l ->
       exists pre post, ContainerInfo.Image b = (pre ++ "app" ++ post)%string) /\
    ("app" = EmptyString ->
     l = map info (filter (fun c => false || running c) (containers (world st)))).
Proof.
  assert (Hq : faults (world (boot [web1; db; parked; app] [])) = []) by reflexivity.
  assert (Hnd : NoDup (map ident (containers (world (boot [web1; db; parked; app] []))))).
  { simpl. repeat constructor; simpl; intuition discriminate. }
  split; [exact Hq|]. split; [exact Hnd|].
  exact (ContainersByImage_returns_matching_listed "app" false _ Hq Hnd).
Defined.

(** A class of two members scaled to four. *)
Lemma Scale_up_sequential_launches_missing_witness :
  let st := boot [web1; db; web2] [] in
  faults (world st) = [] /\
  NoDup (map ident (containers (world st))) /\
  exists st1 st2 st3,
    mInspectContainer simManager (ContainerInfo.Id (info web1)) st
      = (Returns (Ok (info web1)), st1) /\
    IdenticalContainers simManager (info web1) true st1
      = (Returns (Ok [info web1; info web2]), st2) /\
    Scale simManager (info web1) 4 [] st
      = (Returns (ContainerInfo.set_Config
                    (ContainerConfig.set_Hostname EmptyString (ContainerInfo.Config (info web1)))
                    (info web1), None), st3) /\
    List.length (map fresh_id (seq (serial (world st2)) 2)) = 2%nat /\
    Forall (fun id => is_running (world st3) id = true)
           (map fresh_id (seq (serial (world st2)) 2)).
Proof.
  assert (Hq : faults (world (boot [web1; db; web2] [])) = []) by reflexivity.
  assert (Hnd : NoDup (map ident (containers (world (boot [web1; db; web2] []))))).
  { simpl. repeat constructor; simpl; intuition discriminate. }
  split; [exact Hq|]. split; [exact Hnd|].
  pose (st1 := snd (mInspectContainer simManager (ContainerInfo.Id (info web1))
                      (boot [web1; db; web2] []))).
  pose (st2 := snd (IdenticalContainers simManager (info web1) true st1)).
  assert (Hi : mInspectContainer simManager (ContainerInfo.Id (info web1))
                 (boot [web1; db; web2] [])
               = (Returns (Ok (info web1)), st1)) by (vm_compute; reflexivity).
  assert (Hc : IdenticalContainers simManager (info web1) true st1
               = (Returns (Ok [info web1; info web2]), st2)) by (vm_compute; reflexivity).
  assert (Hn : Z.of_nat (List.length [info web1; info web2]) < 4) by (simpl; lia).
  destruct (Scale_up_sequential_launches_missing (info web1) (info web1) 4 _ st1 st2 _
              Hq Hnd Hi Hc Hn) as (st3 & H1 & H2 & H3).
  exists st1, st2, st3. split; [exact Hi|]. split; [exact Hc|]. split; [exact H1|].
  split; [exact H2|exact H3].
Defined.

End MoreInstances.

(** ** Instances on the simulated database *)

Section StoreInstances.
Import dockerclient manager trace sim store sim_store.
Local Open Scope list_scope.

(** The second token of the account is presented. *)
Lemma VerifyAuthToken_accepts_stored_tokens_witness :
  let st := open [guest; admin] [ci] [hook] [] in
  exists st1 out,
    Account simBackend "admin" st = (Returns (Some admin, None), st1) /\
    VerifyAuthToken simBackend "admin" "tok-phone" st = (Returns out, st1) /\
    (out = None <-> In "tok-phone" (map AuthToken.Token (Account.Tokens admin))) /\
    (out <> None -> out = Some ErrInvalidAuthToken).
Proof.
  eexists.
  assert (H : Account simBackend "admin" (open [guest; admin] [ci] [hook] [])
              = (Returns (Some admin, None), _)) by (vm_compute; reflexivity).
  destruct (proj2 (VerifyAuthToken_accepts_stored_tokens simBackend "admin" "tok-phone"
                     (open [guest; admin] [ci] [hook] [])) _ _ H) as (out & H1 & H2 & H3).
  exists out. split; [exact H|]. split; [exact H1|]. split; [exact H2|exact H3].
Defined.

(** A token for a user agent the account already has a token for. *)
Lemma NewAuthToken_replaces_or_appends_witness :
  let st := open [guest; admin] [ci] [hook] [] in
  exists tokens tok st',
    NewAuthToken simBackend "admin" "safari" st = (Returns (Some tok, None), st') /\
    AuthToken.Token tok = token 0 /\ AuthToken.UserAgent tok = "safari" /\
    In tok tokens /\
    map AuthToken.UserAgent tokens = ["firefox"; "safari"] ++ [] /\
    filter (fun x => negb (String.eqb (AuthToken.UserAgent x) "safari")) tokens = [laptop] /\
    VerifyAuthToken_loop (token 0) tokens = true.
Proof.
  pose (st := open [guest; admin] [ci] [hook] []).
  pose (w1 := snd (Authenticator.GenerateToken (authenticator simBackend) (world st))).
  pose (st2 := snd (Account simBackend "admin" (mkSt w1 (calls st)))).
  pose (w3 := snd (accountsDeleteUserAgent simBackend "admin" "safari" (world st2))).
  assert (Hg : Authenticator.GenerateToken (authenticator simBackend) (world st)
               = (Ok (token 0), w1)) by (vm_compute; reflexivity).
  assert (Ha : Account simBackend "admin" (mkSt w1 (calls st))
               = (Returns (Some admin, None), st2)) by (vm_compute; reflexivity).
  assert (Hd : accountsDeleteUserAgent simBackend "admin" "safari" (world st2) = (Ok tt, w3))
    by (vm_compute; reflexivity).
  destruct (NewAuthToken_replaces_or_appends simBackend "admin" "safari" (token 0) admin
              st w1 st2 w3 Hg Ha Hd) as (tokens & tok & Hr & H1 & H2 & H3 & H4 & H5 & H6).
  pose (w4 := snd (accountsUpdateTokens simBackend "admin" tokens w3)).
  assert (Hu : accountsUpdateTokens simBackend "admin" tokens w3 = (Ok tt, w4))
    by reflexivity.
  exists tokens, tok, (mkSt w4 (calls st)).
  split; [exact (Hr _ _ Hu)|]. split; [exact H1|]. split; [exact H2|]. split; [exact H3|].
  split; [exact H4|]. split; [exact H5|exact H6].
Defined.

(** A new user name. *)
Lemma SaveAccount_returns_hashed_account_witness :
  let st := open [guest; admin] [ci] [hook] [] in
  let carol := Account.mk EmptyString "carol" "pw" [] in
  exists account' st',
    SaveAccount storeManager simBackend carol st = (Returns (account', None), st') /\
    Account.Username account' = "carol" /\
    Account.Password account' = digest "pw".
Proof.
  destruct (SaveAccount_returns_hashed_account storeManager simBackend
              (Account.mk EmptyString "carol" "pw" []) (open [guest; admin] [ci] [hook] []))
    as (account' & err & st' & Hr & _ & Hu & _ & Hh & _).
  assert (He : err = None).
  { assert (E : exists a s, SaveAccount storeManager simBackend
                              (Account.mk EmptyString "carol" "pw" [])
                              (open [guest; admin] [ci] [hook] []) = (Returns (a, None), s))
      by (eexists; eexists; vm_compute; reflexivity).
    destruct E as (a & s & E). rewrite E in Hr. inversion Hr. reflexivity. }
  subst err. destruct (Hh eq_refl) as (hash & w1 & Hhash & Hp).
  exists account', st'. split; [exact Hr|]. split; [exact Hu|].
  rewrite Hp. vm_compute in Hhash. inversion Hhash. reflexivity.
Defined.

(** The first token of a fresh database. *)
Lemma NewServiceKey_key_is_token_tail_witness :
  let st := open [] [ci] [] [] in
  exists w1 key out st',
    Authenticator.GenerateToken (authenticator simBackend) (world st) = (Ok (token 0), w1) /\
    (24 <= String.length (token 0))%nat /\
    token 0 = (String.substring 0 24 (token 0) ++ ServiceKey.Key key)%string /\
    String.length (ServiceKey.Key key) = (String.length (token 0) - 24)%nat /\
    NewServiceKey storeManager simBackend "deploys" st = (Returns out, st') /\
    out = (Some key, None).
Proof.
  pose (st := open [] [ci] [] []).
  pose (w1 := snd (Authenticator.GenerateToken (authenticator simBackend) (world st))).
  assert (Hg : Authenticator.GenerateToken (authenticator simBackend) (world st)
               = (Ok (token 0), w1)) by (vm_compute; reflexivity).
  assert (Hlen : (24 <= String.length (token 0))%nat) by (vm_compute; lia).
  destruct (proj2 (NewServiceKey_key_is_token_tail storeManager simBackend "deploys" (token 0)
                     st w1 Hg) Hlen) as (key & H1 & H2 & H3 & _ & Hok).
  pose (w2 := snd (serviceKeysInsert simBackend key w1)).
  assert (Hi : serviceKeysInsert simBackend key w1 = (Ok tt, w2)) by reflexivity.
  specialize (Hok w2 (Ok tt) _ Hi eq_refl).
  exists w1, key. eexists. eexists.
  split; [exact Hg|]. split; [exact Hlen|]. split; [exact H1|]. split; [exact H2|].
  split; [exact Hok|reflexivity].
Defined.

(** The digest of the simulated database has 32 bytes. *)
Lemma NewWebhookKey_key_has_16_hex_digits_witness :
  let st := open [] [] [hook] [] in
  (forall bs, List.length (Sum256 simBackend bs) = 32%nat) /\
  exists k out st',
    String.length k = 16%nat /\
    (forall c, In c (list_ascii_of_string k) ->
       In c (list_ascii_of_string "0123456789abcdef")) /\
    NewWebhookKey storeManager simBackend "myapp" st = (Returns out, st') /\
    out = (Some (WebhookKey.mk EmptyString k "myapp"), None).
Proof.
  assert (Hsum : forall bs, List.length (Sum256 simBackend bs) = 32%nat).
  { intros bs. cbn [Sum256 simBackend].
    rewrite length_firstn, length_app, repeat_length. lia. }
  split; [exact Hsum|].
  destruct (NewWebhookKey_key_has_16_hex_digits storeManager simBackend "myapp"
              (open [] [] [hook] []) Hsum) as (k & H1 & H2 & _ & Hok).
  pose (w1 := snd (webhookKeysInsert simBackend (WebhookKey.mk EmptyString k "myapp")
                     (world (open [] [] [hook] [])))).
  assert (Hi : webhookKeysInsert simBackend (WebhookKey.mk EmptyString k "myapp")
                 (world (open [] [] [hook] [])) = (Ok tt, w1)) by reflexivity.
  specialize (Hok w1 (Ok tt) _ Hi eq_refl).
  exists k. eexists. eexists. split; [exact H1|]. split; [exact H2|].
  split; [exact Hok|reflexivity].
Defined.

(** The third call, the deletion, fails. *)
Lemma RemoveServiceKey_event_before_delete_witness :
  let st := open [] [ci] [] [2%nat] in
  exists e st',
    RemoveServiceKey storeManager simBackend "keyci" st = (Returns (Some (Passed e)), st') /\
    map Event.Type_ (events (engine (world st'))) = ["remove-service-key"] /\
    service_keys (world st') = [ci].
Proof.
  pose (st := open [] [ci] [] [2%nat]).
  pose (st1 := snd (ServiceKey simBackend "keyci" st)).
  assert (Hl : ServiceKey simBackend "keyci" st = (Returns (Some ci, None), st1))
    by (vm_compute; reflexivity).
  pose (evt := Event.mk "remove-service-key" EmptyString (unixNow storeManager (world st1))
                 ("description=" ++ ServiceKey.Description ci) ["cluster"; "security"]).
  pose (w2 := snd (session storeManager evt (world st1))).
  assert (Hs : session storeManager evt (world st1) = (Ok tt, w2)) by (vm_compute; reflexivity).
  pose proof (proj2 (RemoveServiceKey_event_before_delete storeManager simBackend "keyci" st)
                ci st1 (Ok tt) w2 Hl Hs) as Hr.
  cbv beta iota in Hr.
  pose (w3 := snd (serviceKeysDeleteKey simBackend "keyci" w2)).
  assert (Hd : serviceKeysDeleteKey simBackend "keyci" w2 = (Err "database fault", w3))
    by (vm_compute; reflexivity).
  specialize (Hr _ _ Hd).
  eexists. eexists. split; [exact Hr|]. split; vm_compute; reflexivity.
Defined.

(** The key of the sample row is deleted. *)
Lemma DeleteWebhookKey_delete_before_event_witness :
  let st := open [] [] [hook] [] in
  exists st',
    DeleteWebhookKey storeManager simBackend "0123456789abcdef" st = (Returns None, st') /\
    webhook_keys (world st') = [] /\
    map Event.Message (events (engine (world st')))
      = ["image=myapp key=0123456789abcdef"].
Proof.
  pose (st := open [] [] [hook] []).
  pose (st1 := snd (WebhookKey simBackend "0123456789abcdef" st)).
  assert (Hl : WebhookKey simBackend "0123456789abcdef" st = (Returns (Some hook, None), st1))
    by (vm_compute; reflexivity).
  pose (w2 := snd (webhookKeysGetDelete simBackend (WebhookKey.ID hook) (world st1))).
  assert (Hd : webhookKeysGetDelete simBackend (WebhookKey.ID hook) (world st1)
               = (Ok false, w2)) by (vm_compute; reflexivity).
  pose proof (proj2 (DeleteWebhookKey_delete_before_event storeManager simBackend
                       "0123456789abcdef" st) hook st1 (Ok false) w2 Hl Hd) as Hr.
  cbv beta iota zeta in Hr.
  specialize (Hr (Ok tt) _ eq_refl).
  eexists. split; [exact Hr|]. split; vm_compute; reflexivity.
Defined.

(** A known user name saved with a new password. *)
Lemma SaveAccount_then_Authenticate_witness :
  let st := open [guest; admin] [ci] [hook] [] in
  let account := Account.mk "1" "admin" "changed" [] in
  faults (engine (world st)) = [] /\
  exists st1 st2,
    SaveAccount storeManager simBackend account st
      = (Returns (Account.set_Password (digest "changed") account, None), st1) /\
    Authenticate simBackend "admin" "secret" st1
      = (Returns (String.eqb "changed" "secret"), st2) /\
    filter (fun a => negb (named "admin" a)) (accounts (world st1))
      = filter (fun a => negb (named "admin" a)) (accounts (world st)).
Proof.
  split; [reflexivity|].
  apply (SaveAccount_then_Authenticate (Account.mk "1" "admin" "changed" []) "secret"
           (open [guest; admin] [ci] [hook] [])).
  reflexivity.
Defined.

(** A token for a new user agent of the sample account. *)
Lemma NewAuthToken_then_VerifyAuthToken_witness :
  let st := open [guest; admin] [ci] [hook] [] in
  faults (engine (world st)) = [] /\
  filter (named "admin") (accounts (world st)) = admin :: [] /\
  exists tok st1,
    NewAuthToken simBackend "admin" "curl" st = (Returns (Some tok, None), st1) /\
    AuthToken.UserAgent tok = "curl" /\
    AuthToken.Token tok = token (minted (world st)) /\
    fst (VerifyAuthToken simBackend "admin" (AuthToken.Token tok) st1) = Returns None /\
    (forall t, In t (Account.Tokens admin) -> AuthToken.UserAgent t <> "curl" ->
       fst (VerifyAuthToken simBackend "admin" (AuthToken.Token t) st1) = Returns None).
Proof.
  split; [reflexivity|]. split; [reflexivity|].
  apply (NewAuthToken_then_VerifyAuthToken "admin" "curl"
           (open [guest; admin] [ci] [hook] []) admin []); reflexivity.
Defined.

(** A key made on a database that holds one key. *)
Lemma NewServiceKey_Verify_Remove_witness :
  let st := open [] [ci] [] [] in
  faults (engine (world st)) = [] /\
  exists key st1 st2 st3 st4 removed,
    NewServiceKey storeManager simBackend "deploys" st = (Returns (Some key, None), st1) /\
    VerifyServiceKey simBackend (ServiceKey.Key key) st1 = (Returns None, st2) /\
    RemoveServiceKey storeManager simBackend (ServiceKey.Key key) st2 = (Returns None, st3) /\
    VerifyServiceKey simBackend (ServiceKey.Key key) st3
      = (Returns (Some ErrServiceKeyDoesNotExist), st4) /\
    reporters (world st1) = S (reporters (world st)) /\
    map Event.Type_ (events (engine (world st3)))
      = map Event.Type_ (events (engine (world st)))
          ++ ["add-service-key"; "remove-service-key"] /\
    calls st3 = calls st ++ [InsertEventC
                               (Event.mk "add-service-key" EmptyString
                                  (clock (engine (world st)))
                                  ("description=" ++ "deploys") ["cluster"; "security"]);
                             InsertEventC removed].
Proof.
  split; [reflexivity|].
  apply (NewServiceKey_Verify_Remove "deploys" (open [] [ci] [] [])).
  reflexivity.
Defined.

End StoreInstances.

(** ** The usage report *)

Section UploadFacts.
Import telemetry.
Local Open Scope list_scope.

Context {W : Type}.
Variable h : Host W.

Lemma uploadUsage_loop_first (pre post : list Interface) (iface : Interface) (id : string) :
  Forall (fun i => Name i = "lo") pre ->
  Name iface <> "lo" ->
  uploadUsage_loop h (pre ++ iface :: post) id
    = Replace h (HardwareAddr iface) ":" EmptyString (-1).
Proof.
  intros Hpre Hi. induction Hpre as [|i pre Hlo _ IH]; simpl.
  - apply String.eqb_neq in Hi. rewrite Hi. reflexivity.
  - rewrite Hlo. simpl. exact IH.
Qed.

Lemma uploadUsage_loop_all_lo (l : list Interface) (id : string) :
  Forall (fun i => Name i = "lo") l -> uploadUsage_loop h l id = id.
Proof.
  induction 1 as [|i l Hlo _ IH]; simpl; [reflexivity|]. rewrite Hlo. simpl. exact IH.
Qed.

(** uploadUsage names the installation after the first network interface
    that is not called lo: the identifier is that interface's hardware
    address with its colons replaced, whatever interfaces follow and even
    when that address is empty, and it is anon when the interfaces cannot be
    listed or are all called lo.  Nothing is posted when the engine's Info
    fails; otherwise one report is posted to the tracker's update URL, whose
    body is the serialised usage record with that identifier. *)
Theorem uploadUsage_reports_first_interface (w : W) :
  (forall e w1, Interfaces h w = (Err e, w1) -> fst (uploadUsage_id h w) = "anon") /\
  (forall l w1,
     Interfaces h w = (Ok l, w1) ->
     Forall (fun i => Name i = "lo") l ->
     fst (uploadUsage_id h w) = "anon") /\
  (forall pre iface post w1,
     Interfaces h w = (Ok (pre ++ iface :: post), w1) ->
     Forall (fun i => Name i = "lo") pre ->
     Name iface <> "lo" ->
     fst (uploadUsage_id h w) = Replace h (HardwareAddr iface) ":" EmptyString (-1)) /\
  (forall e w2,
     clientInfo h (snd (uploadUsage_id h w)) = (Err e, w2) -> uploadUsage h w = w2) /\
  (forall info w2,
     clientInfo h (snd (uploadUsage_id h w)) = (Ok info, w2) ->
     exists body,
       uploadUsage h w
         = snd (Post h "http://tracker.shipyard-project.com/update" "application/json"
                  body w2) /\
       forall b,
         Marshal h (Usage.mk (fst (uploadUsage_id h w)) (version h) (Images info)
                      (Containers info) (NCPU info) (MemTotal info)) = Ok b ->
         body = b).
Proof.
  repeat split.
  - intros e w1 H. unfold uploadUsage_id. rewrite H. reflexivity.
  - intros l w1 H Hl. unfold uploadUsage_id. rewrite H. simpl.
    apply uploadUsage_loop_all_lo. exact Hl.
  - intros pre iface post w1 H Hpre Hi. unfold uploadUsage_id. rewrite H. simpl.
    apply uploadUsage_loop_first; assumption.
  - intros e w2 H. unfold uploadUsage.
    destruct (uploadUsage_id h w) as [id w1]. simpl in H. rewrite H. reflexivity.
  - intros info w2 H. unfold uploadUsage.
    destruct (uploadUsage_id h w) as [id w1]. simpl in H |- *. rewrite H.
    eexists. split; [reflexivity|].
    intros b Hb. rewrite Hb. reflexivity.
Qed.

End UploadFacts.

Section UploadInstances.
Import telemetry.
Local Open Scope list_scope.

(** Loopback first, then a bridge, then a wireless card. *)
Lemma uploadUsage_reports_first_interface_witness :
  let ifaces := [mkInterface "lo" EmptyString;
                 mkInterface "eth0" "02:42:ac:11:00:02";
                 mkInterface "wlan0" "a4:5e:60:c1:00:9f"] in
  let h := sampleHost ifaces true in
  fst (uploadUsage_id h []) = "0242ac110002" /\
  uploadUsage h [] = ["http://tracker.shipyard-project.com/update 0242ac110002/2.0.8"].
Proof.
  intros ifaces h.
  destruct (uploadUsage_reports_first_interface h []) as (_ & _ & Hid & _ & Hup).
  assert (H1 : fst (uploadUsage_id h []) = "0242ac110002").
  { rewrite (Hid [mkInterface "lo" EmptyString] (mkInterface "eth0" "02:42:ac:11:00:02")
               [mkInterface "wlan0" "a4:5e:60:c1:00:9f"] [] eq_refl).
    - reflexivity.
    - repeat constructor.
    - discriminate. }
  split; [exact H1|].
  destruct (Hup (mkInfo 3 5 4 8192) [] eq_refl) as (body & Hpost & Hbody).
  rewrite Hpost. rewrite (Hbody _ eq_refl). rewrite H1. reflexivity.
Defined.

End UploadInstances.

(** ** Creating the tables *)

Section InitdbFacts.
Import schema.
Local Open Scope list_scope.

Lemma held_app (t : string) (l1 l2 : list string) :
  held t (l1 ++ l2) = held t l1 || held t l2.
Proof. apply existsb_app. Qed.

Lemma held_In (t : string) (l : list string) : held t l = true <-> In t l.
Proof.
  unfold held. rewrite existsb_exists. split.
  - intros (x & Hx & E). apply String.eqb_eq in E. now subst.
  - intros H. exists t. split; [exact H|apply String.eqb_refl].
Qed.

Lemma missing_after_create (t : string) (have rest : list string) :
  ~ In t rest ->
  filter (fun x => negb (held x (have ++ [t]))) rest
    = filter (fun x => negb (held x have)) rest.
Proof.
  intros Hn. apply filter_ext_in. intros x Hx. rewrite held_app. simpl.
  destruct (String.eqb x t) eqn:E.
  - apply String.eqb_eq in E. subst. contradiction.
  - now rewrite !orb_false_r.
Qed.

(** The loop on the simulated server: the missing tables are created in
    order, up to the first one the server refuses. *)
Lemma initdb_loop_sim (refused : list string) (tbls : list string) :
  NoDup tbls ->
  forall have,
    let missing := filter (fun x => negb (held x have)) tbls in
    (Forall (fun t => held t refused = false) missing ->
     initdb_loop simSchema tbls (have, refused) = (Ready, (have ++ missing, refused))) /\
    (forall pre t post,
       missing = pre ++ t :: post ->
       Forall (fun x => held x refused = false) pre ->
       held t refused = true ->
       initdb_loop simSchema tbls (have, refused)
         = (Fatal "creation refused", (have ++ pre, refused))).
Proof.
  induction 1 as [|tbl rest Hnin Hnd IH]; intros have missing.
  - split.
    + intros _. simpl. now rewrite app_nil_r.
    + intros pre t post Hm. destruct pre; discriminate.
  - subst missing. cbn [filter initdb_loop tableRun tableCreate simSchema fst snd].
    destruct (held tbl have) eqn:Hh;
      cbn [negb filter initdb_loop tableRun tableCreate simSchema fst snd].
    + exact (IH have).
    + destruct (IH (have ++ [tbl])) as [IH1 IH2].
      rewrite (missing_after_create tbl have rest Hnin) in IH1, IH2.
      split.
      * intros Hall. inversion Hall as [|x l Hx Hl]; subst. rewrite Hx.
        rewrite (IH1 Hl), <- app_assoc. reflexivity.
      * intros pre t post Hm Hpre Ht.
        destruct pre as [|p pre]; simpl in Hm; inversion Hm as [[Hp Hrest]].
        -- subst t. rewrite Ht, app_nil_r. reflexivity.
        -- subst p. inversion Hpre as [|x l Hx Hl]; subst. rewrite Hx.
           rewrite (IH2 pre t post Hrest Hl Ht), <- app_assoc. reflexivity.
Qed.

(** initdb makes the seven tables exist and creates the missing ones
    only: on a server that creates what is asked, the tables held
    afterwards are those held before followed by the missing ones in the
    order of the source; and when the server refuses a missing table, the
    process ends there, with the missing tables before it created and none
    after it. *)
Theorem initdb_creates_missing_tables (have refused : list string) :
  let missing := filter (fun x => negb (held x have)) tables in
  (Forall (fun t => held t refused = false) missing ->
   initdb simSchema (have, refused) = (Ready, (have ++ missing, refused)) /\
   forall t, In t tables -> In t (have ++ missing)) /\
  (forall pre t post,
     missing = pre ++ t :: post ->
     Forall (fun x => held x refused = false) pre ->
     held t refused = true ->
     initdb simSchema (have, refused) = (Fatal "creation refused", (have ++ pre, refused))).
Proof.
  intros missing.
  assert (Hnd : NoDup tables).
  { unfold tables. repeat constructor; simpl; intuition discriminate. }
  destruct (initdb_loop_sim refused tables Hnd have) as [H1 H2].
  split.
  - intros Hall. split; [exact (H1 Hall)|].
    intros t Ht. apply in_or_app.
    destruct (held t have) eqn:E.
    + left. apply held_In. exact E.
    + right. apply filter_In. split; [exact Ht|]. now rewrite E.
  - exact H2.
Qed.

End InitdbFacts.

Section InitdbInstances.
Import schema.
Local Open Scope list_scope.

(** A server that holds two of the tables and refuses none. *)
Lemma initdb_creates_missing_tables_witness :
  initdb simSchema (["events"; "accounts"], [])
    = (Ready, (["events"; "accounts"; "config"; "roles"; "service_keys"; "extensions";
                "webhook_keys"], [])) /\
  forall t, In t tables ->
    In t (["events"; "accounts"]
            ++ filter (fun x => negb (held x ["events"; "accounts"])) tables).
Proof.
  apply (proj1 (initdb_creates_missing_tables ["events"; "accounts"] [])).
  repeat constructor.
Defined.

End InitdbInstances.
